(** * myshell: a shallow embedding of [myshell.c]

    The shell reads one line at a time into the static array [buffer],
    strips trailing white space, and dispatches on the line with
    [sscanf]/[strncmp] to the built-in commands [do_cd], [do_ls], [do_cat],
    [do_mkdir], [do_rmdir], [do_rm], [do_pwd] and [do_stat].

    The embedding follows the C text function by function.  The process
    state the program can observe or change is gathered in the record
    [world]; the answers of the operating system to the system calls are
    gathered in the record [OS].  The C library routines the program relies
    on ([isspace], [strnlen], [strncmp], [sscanf] with the directives used
    here, [fgets]) are written out in the module [Libc].

    The file has two parts: the definitions (library, memory, system calls,
    the shell, the notions the properties are stated with, sample
    environments), then the properties, one section per concern of the
    shell. *)

From Stdlib Require Import ZArith List String Ascii Bool Lia DecimalString.
Import ListNotations.

Local Open Scope string_scope.
Local Open Scope Z_scope.

(** ** Constants of the program and of the system headers *)

Definition BUFFER_SIZE : nat := 256.
Definition MAX_PATH_LENGTH : nat := 256.
Definition MAX_FILENAME_LENGTH : nat := 256.

(** [limits.h], [stdlib.h], [stdio.h], [errno.h] and [sys/stat.h] on Linux. *)
Definition PATH_MAX : nat := 4096.
Definition EXIT_SUCCESS : Z := 0.
Definition EOF : Z := -1.
Definition EBADF : Z := 9.
Definition ERANGE : Z := 34.

Definition S_IFMT : Z := 61440.    (* 0170000 *)
Definition S_IFSOCK : Z := 49152.  (* 0140000 *)
Definition S_IFLNK : Z := 40960.   (* 0120000 *)
Definition S_IFREG : Z := 32768.   (* 0100000 *)
Definition S_IFBLK : Z := 24576.   (* 0060000 *)
Definition S_IFDIR : Z := 16384.   (* 0040000 *)
Definition S_IFCHR : Z := 8192.    (* 0020000 *)
Definition S_IFIFO : Z := 4096.    (* 0010000 *)
Definition S_IRWXU : Z := 448.     (* 0700 *)
Definition S_IRWXG : Z := 56.      (* 0070 *)
Definition S_IROTH : Z := 4.       (* 0004 *)
Definition S_IXOTH : Z := 1.       (* 0001 *)

(** ** The C library *)

Module Libc.

Definition NUL : ascii := Ascii.zero.
Definition TAB : string := String (ascii_of_nat 9) "".
Definition NL : string := String (ascii_of_nat 10) "".
Definition ESC : string := String (ascii_of_nat 27) "".

Definition is_nul (c : ascii) : bool := Ascii.eqb c NUL.

(** [isspace] in the C locale: space, and the controls 9 to 13. *)
Definition isspace (c : ascii) : bool :=
  let n := N_of_ascii c in
  (((9 <=? n) && (n <=? 13)) || (n =? 32))%N.

(** The string a [char*] denotes: the bytes up to the first NUL. *)
Fixpoint cstring (bytes : list ascii) : string :=
  match bytes with
  | [] => ""
  | c :: rest => if is_nul c then "" else String c (cstring rest)
  end.

Definition strnlen (s : string) (maxlen : nat) : nat :=
  Nat.min (String.length s) maxlen.

Definition uchar (c : ascii) : Z := Z.of_N (N_of_ascii c).

(** [strncmp]: difference of the first two bytes that differ among the
    first [n], a missing byte counting as the terminating NUL. *)
Fixpoint strncmp (s1 s2 : string) (n : nat) : Z :=
  match n with
  | O => 0
  | S n' =>
      match s1, s2 with
      | EmptyString, EmptyString => 0
      | EmptyString, String d _ => 0 - uchar d
      | String c _, EmptyString => uchar c
      | String c r1, String d r2 =>
          if Ascii.eqb c d then strncmp r1 r2 n' else uchar c - uchar d
      end
  end.

Fixpoint skip_space (s : string) : string :=
  match s with
  | EmptyString => ""
  | String c rest => if isspace c then skip_space rest else s
  end.

(** The longest prefix without white space, and what follows it. *)
Fixpoint take_word (s : string) : string :=
  match s with
  | EmptyString => ""
  | String c rest => if isspace c then "" else String c (take_word rest)
  end.

Fixpoint drop_word (s : string) : string :=
  match s with
  | EmptyString => ""
  | String c rest => if isspace c then s else drop_word rest
  end.

Definition is_percent (c : ascii) : bool := Ascii.eqb c "%"%char.
Definition is_s (c : ascii) : bool := Ascii.eqb c "s"%char.

(** What [sscanf] returns when the input ends, or fails to match, after
    [assigned] conversions. *)
Definition input_failure (assigned : Z) : Z :=
  if assigned =? 0 then EOF else assigned.

(** [sscanf input fmt dest] for formats made of ordinary characters,
    white space and [%s] conversions that all store into [dest].
    - an ordinary character must be the next input character: the call
      stops with a matching failure when it is another one, with an input
      failure when the input is exhausted;
    - white space in the format skips any white space of the input,
      possibly none, and never fails;
    - [%s] skips white space, then stores the following characters up to
      the next white space; when the input is exhausted first it is an
      input failure and nothing is stored.
    The result is the return value and the content of [dest]. *)
Fixpoint sscanf_from (fmt : string) (input dest : string) (assigned : Z)
  : Z * string :=
  match fmt with
  | EmptyString => (assigned, dest)
  | String c fmt1 =>
      let ordinary :=
        if isspace c then sscanf_from fmt1 (skip_space input) dest assigned
        else
          match input with
          | EmptyString => (input_failure assigned, dest)
          | String d input1 =>
              if Ascii.eqb c d then sscanf_from fmt1 input1 dest assigned
              else (assigned, dest)
          end in
      match fmt1 with
      | String c1 fmt2 =>
          if is_percent c && is_s c1 then
            match skip_space input with
            | EmptyString => (input_failure assigned, dest)
            | word =>
                sscanf_from fmt2 (drop_word word) (take_word word)
                  (assigned + 1)
            end
          else ordinary
      | EmptyString => ordinary
      end
  end.

Definition sscanf (input fmt dest : string) : Z * string :=
  sscanf_from fmt input dest 0.

(** [fgets(s, size, stream)]: at most [size - 1] characters, stopping
    after a newline. *)
Fixpoint fgets_take (n : nat) (input : list ascii)
  : list ascii * list ascii :=
  match n, input with
  | O, _ => ([], input)
  | _, [] => ([], [])
  | S n', c :: rest =>
      if Ascii.eqb c (ascii_of_nat 10) then ([c], rest)
      else let (line, rest') := fgets_take n' rest in (c :: line, rest')
  end.

(** [None] is the NULL result: no character could be read.  Otherwise the
    bytes stored, terminating NUL included, and the input left. *)
Definition fgets (size : nat) (input : list ascii)
  : option (list ascii * list ascii) :=
  match fgets_take (size - 1) input with
  | ([], _) => None
  | (line, rest) => Some ((line ++ [NUL])%list, rest)
  end.

(** [printf]'s [%ld] and [%jd]. *)
Definition decimal (z : Z) : string := NilZero.string_of_int (Z.to_int z).

(** The [(long)] cast on a 64-bit target: reduction modulo 2^64 into the
    signed range. *)
Definition to_long (z : Z) : Z :=
  (z + 9223372036854775808) mod 18446744073709551616 - 9223372036854775808.

End Libc.
Import Libc.

(** ** Static memory

    [buffer] is a static array of [BUFFER_SIZE] bytes.  Two routines of the
    program index it outside these bounds, so the array is modelled together
    with the mapped bytes around it: [below] holds the bytes at indices
    -1, -2, ... (nearest first), [cells] the array itself and [above] the
    bytes at indices [BUFFER_SIZE], [BUFFER_SIZE + 1], ...  An index beyond
    the mapped bytes cannot be read.

    Which objects of the program the linker places around [buffer] is not
    fixed by the C text and is not modelled: [below] and [above] stand for
    the bytes a read finds there, whatever they belong to. *)

Module Memory.

Record region : Type := mkRegion {
  below : list ascii;
  cells : list ascii;
  above : list ascii
}.

Fixpoint update (l : list ascii) (n : nat) (c : ascii) : list ascii :=
  match l, n with
  | [], _ => []
  | _ :: rest, O => c :: rest
  | x :: rest, S n' => x :: update rest n' c
  end.

(** The bytes from index 0 upwards. *)
Definition upwards (r : region) : list ascii := (cells r ++ above r)%list.

Definition rd (r : region) (i : Z) : option ascii :=
  if i <? 0 then nth_error (below r) (Z.to_nat (- i - 1))
  else nth_error (upwards r) (Z.to_nat i).

Definition wr (r : region) (i : Z) (c : ascii) : region :=
  if i <? 0 then
    mkRegion (update (below r) (Z.to_nat (- i - 1)) c) (cells r) (above r)
  else if i <? Z.of_nat (List.length (cells r)) then
    mkRegion (below r) (update (cells r) (Z.to_nat i) c) (above r)
  else
    mkRegion (below r) (cells r)
      (update (above r) (Z.to_nat i - List.length (cells r)) c).

(** Storing [src] at index 0, as [fgets] and [read] do. *)
Definition store (src : list ascii) (r : region) : region :=
  mkRegion (below r) (src ++ skipn (List.length src) (cells r))%list
    (above r).

(** The C string at index 0. *)
Definition string_at (r : region) : string := cstring (upwards r).

End Memory.
Import Memory.

(** ** The process state and the operating system *)

(** What a C function hands back: the value of the [return] statement it
    reached, or nothing when control fell off its closing brace. *)
Inductive retval : Type :=
| Returned (v : Z)
| Indeterminate.

(** Changes of the file system made by successful system calls. *)
Inductive fs_op : Type :=
| Mkdir (path : string) (mode : Z)
| Rmdir (path : string)
| Unlink (path : string).

Record world : Type := mkWorld {
  cwd : string;              (* working directory of the process *)
  errno : Z;
  stdout : string;           (* everything written to stdout so far *)
  stderr : string;           (* everything written to stderr so far *)
  fds : list Z;              (* open file descriptors *)
  dirs : list Z;             (* open directory streams *)
  fs_log : list fs_op;       (* changes made to the file system so far *)
  buffer : region;           (* static char buffer[BUFFER_SIZE] *)
  filename : string;         (* C string in static char filename[] *)
  past_filename : string     (* C string that follows the array filename *)
}.

Definition with_cwd (d : string) (w : world) : world :=
  mkWorld d (errno w) (stdout w) (stderr w) (fds w) (dirs w) (fs_log w)
    (buffer w) (filename w) (past_filename w).
Definition with_errno (e : Z) (w : world) : world :=
  mkWorld (cwd w) e (stdout w) (stderr w) (fds w) (dirs w) (fs_log w)
    (buffer w) (filename w) (past_filename w).
Definition put_out (s : string) (w : world) : world :=
  mkWorld (cwd w) (errno w) (stdout w ++ s) (stderr w) (fds w) (dirs w)
    (fs_log w) (buffer w) (filename w) (past_filename w).
Definition put_err (s : string) (w : world) : world :=
  mkWorld (cwd w) (errno w) (stdout w) (stderr w ++ s) (fds w) (dirs w)
    (fs_log w) (buffer w) (filename w) (past_filename w).
Definition with_fds (l : list Z) (w : world) : world :=
  mkWorld (cwd w) (errno w) (stdout w) (stderr w) l (dirs w) (fs_log w)
    (buffer w) (filename w) (past_filename w).
Definition with_dirs (l : list Z) (w : world) : world :=
  mkWorld (cwd w) (errno w) (stdout w) (stderr w) (fds w) l (fs_log w)
    (buffer w) (filename w) (past_filename w).
Definition log_fs (op : fs_op) (w : world) : world :=
  mkWorld (cwd w) (errno w) (stdout w) (stderr w) (fds w) (dirs w)
    (fs_log w ++ [op])%list (buffer w) (filename w) (past_filename w).
Definition with_buffer (r : region) (w : world) : world :=
  mkWorld (cwd w) (errno w) (stdout w) (stderr w) (fds w) (dirs w) (fs_log w)
    r (filename w) (past_filename w).
Definition with_filename (s : string) (w : world) : world :=
  mkWorld (cwd w) (errno w) (stdout w) (stderr w) (fds w) (dirs w) (fs_log w)
    (buffer w) s (past_filename w).

Record stat_t : Type := mkStat {
  st_mode : Z;
  st_size : Z;
  st_blksize : Z;
  st_blocks : Z;
  st_nlink : Z;
  st_ino : Z;
  st_mtime : Z
}.

(** One [read] on an open file: an error, or the bytes transferred. *)
Inductive read_result : Type :=
| ReadErr (e : positive)
| ReadOk (data : list ascii).

(** An opened file: its descriptor and the results of the [read]s to come;
    once they are used up, [read] returns 0. *)
Record file_t : Type := mkFile {
  f_fd : N;
  f_reads : list read_result
}.

(** An opened directory: the file descriptor [opendir] opened for the
    stream, which also names the stream, the names [readdir] yields, then
    how the stream ends: [None] when it is exhausted, [Some e] when
    [readdir] fails. *)
Record dirstream : Type := mkDir {
  ds_id : Z;
  ds_entries : list string;
  ds_end : option positive
}.

(** The answers of the system.  A failing call answers with its error
    number, which is positive. *)
Record OS : Type := mkOS {
  strerror : Z -> string;
  ctime : Z -> string;
  getpwuid_dir : option string;   (* getpwuid(getuid()): NULL, or pw_dir *)
  os_chdir : string -> string -> positive + string;
                                  (* from cwd, to path: the new cwd *)
  os_getcwd : option positive;    (* a failure other than ERANGE *)
  os_opendir : string -> positive + dirstream;
  os_lstat : string -> positive + stat_t;
  os_closedir : Z -> option positive;
  os_open : string -> positive + file_t;
  os_close : Z -> option positive;
  os_mkdir : string -> Z -> option positive;
  os_rmdir : string -> option positive;
  os_unlink : string -> option positive;
  os_stat : string -> positive + stat_t
}.

Section SystemCalls.

Variable os : OS.

Definition fail {A} (r : A) (e : positive) (w : world) : A * world :=
  (r, with_errno (Zpos e) w).

Definition sys_chdir (path : string) (w : world) : Z * world :=
  match os_chdir os (cwd w) path with
  | inl e => fail (-1) e w
  | inr d => (0, with_cwd d w)
  end.

Definition sys_getcwd (size : nat) (w : world) : option string * world :=
  match os_getcwd os with
  | Some e => fail None e w
  | None =>
      if (size <=? String.length (cwd w))%nat
      then (None, with_errno ERANGE w)
      else (Some (cwd w), w)
  end.

Definition sys_open (path : string) (w : world)
  : Z * list read_result * world :=
  match os_open os path with
  | inl e => (-1, [], with_errno (Zpos e) w)
  | inr f =>
      (Z.of_N (f_fd f), f_reads f,
       with_fds (Z.of_N (f_fd f) :: fds w) w)
  end.

Definition is_open (fd : Z) (w : world) : bool :=
  existsb (Z.eqb fd) (fds w).

(** Closing releases the descriptor even when the call reports an error;
    closing what is not open is EBADF. *)
Definition sys_close (fd : Z) (w : world) : Z * world :=
  if is_open fd w then
    let w1 := with_fds (filter (fun x => negb (Z.eqb fd x)) (fds w)) w in
    match os_close os fd with
    | Some e => fail (-1) e w1
    | None => (0, w1)
    end
  else (-1, with_errno EBADF w).

(** [closedir] closes the descriptor of the stream and frees the stream,
    also when it reports an error. *)
Definition sys_closedir (id : Z) (w : world) : Z * world :=
  let w1 :=
    with_fds (filter (fun x => negb (Z.eqb id x)) (fds w))
      (with_dirs (filter (fun x => negb (Z.eqb id x)) (dirs w)) w) in
  match os_closedir os id with
  | Some e => fail (-1) e w1
  | None => (0, w1)
  end.

Definition sys_lstat (path : string) (w : world) : option stat_t * world :=
  match os_lstat os path with
  | inl e => fail None e w
  | inr st => (Some st, w)
  end.

Definition sys_stat (path : string) (w : world) : option stat_t * world :=
  match os_stat os path with
  | inl e => fail None e w
  | inr st => (Some st, w)
  end.

Definition sys_mkdir (path : string) (mode : Z) (w : world) : Z * world :=
  match os_mkdir os path mode with
  | Some e => fail (-1) e w
  | None => (0, log_fs (Mkdir path mode) w)
  end.

Definition sys_rmdir (path : string) (w : world) : Z * world :=
  match os_rmdir os path with
  | Some e => fail (-1) e w
  | None => (0, log_fs (Rmdir path) w)
  end.

Definition sys_unlink (path : string) (w : world) : Z * world :=
  match os_unlink os path with
  | Some e => fail (-1) e w
  | None => (0, log_fs (Unlink path) w)
  end.

End SystemCalls.

(** ** The shell *)

Definition file_or_dir (mode : Z) : string :=
  if Z.land mode S_IFMT =? S_IFDIR then "DIR" else "FILE".

Definition ftype_string (mode : Z) : string :=
  let t := Z.land mode S_IFMT in
  if t =? S_IFREG then "regular"
  else if t =? S_IFDIR then "directory"
  else if t =? S_IFLNK then "symlink"
  else if t =? S_IFCHR then "char-device"
  else if t =? S_IFBLK then "block-device"
  else if t =? S_IFIFO then "fifo"
  else if t =? S_IFSOCK then "socket"
  else "unknown".

(** [while (isspace(string[i])) string[i--] = 0;] from index [i] on.  The
    loop reads one byte per turn at a strictly smaller index, so [fuel] turns
    are enough once [fuel] exceeds the number of mapped bytes at indices up
    to [i].  The result is the memory when the loop ends ([None] when it
    reads an unmapped byte) and the indices read, in order. *)
Fixpoint strip_loop (fuel : nat) (r : region) (i : Z) (reads : list Z)
  : option region * list Z :=
  match fuel with
  | O => (None, (reads ++ [i])%list)
  | S fuel' =>
      match rd r i with
      | None => (None, (reads ++ [i])%list)
      | Some c =>
          if isspace c
          then strip_loop fuel' (wr r i NUL) (i - 1) (reads ++ [i])%list
          else (Some r, (reads ++ [i])%list)
      end
  end.

Definition strip_trailing_whitespace (r : region) : option region * list Z :=
  let i := Z.of_nat (strnlen (string_at r) BUFFER_SIZE) - 1 in
  strip_loop (Z.to_nat (i + 1) + List.length (below r) + 1) r i [].

(** [strncpy(dst, src, n)] seen from the C string at [dst] afterwards, for
    an array [dst] of exactly [n] bytes: a shorter [src] is copied with its
    terminator; otherwise the array is filled without one and the string
    runs on into [past], the bytes behind the array. *)
Definition strncpy_string (src : string) (n : nat) (past : string) : string :=
  if (String.length src <? n)%nat then src else substring 0 n src ++ past.

Section Shell.

Variable os : OS.

Definition prompt (dir : string) : string :=
  "myshell:" ++ ESC ++ "[32;1m" ++ dir ++ ESC ++ "[0m> ".

Definition display_prompt (w : world) : world :=
  match sys_getcwd os MAX_PATH_LENGTH w with
  | (Some current_dir, w1) => put_out (prompt current_dir) w1
  | (None, w1) => w1
  end.

(** [dirname] is the static array [filename] in every call, so what
    [strncpy] writes becomes the content of [filename].  [None]: the
    NULL pointer of a failed [getpwuid] is dereferenced. *)
Definition do_cd (dirname : string) (w : world) : option (retval * world) :=
  let p := getpwuid_dir os in
  let copied :=
    if (strnlen dirname MAX_PATH_LENGTH =? 0)%nat then
      match p with
      | None => None
      | Some pw_dir =>
          Some (strncpy_string pw_dir MAX_PATH_LENGTH (past_filename w))
      end
    else Some dirname in
  match copied with
  | None => None
  | Some dirname1 =>
      let w1 := with_filename dirname1 w in
      let (r, w2) := sys_chdir os dirname1 w1 in
      if r <? 0 then
        Some (Returned (-1),
              put_err ("cd: " ++ strerror os (errno w2) ++ NL) w2)
      else Some (Returned 0, w2)
  end.

Definition ls_entry (dir d_name : string) (w : world) : world :=
  let n := (String.length dir + 1 + String.length d_name)%nat in
  if (PATH_MAX <=? n)%nat then
    put_err ("path too long: " ++ dir ++ "/" ++ d_name ++ NL) w
  else
    let path := dir ++ "/" ++ d_name in
    match sys_lstat os path w with
    | (None, w1) =>
        put_err ("lstat failed for '" ++ path ++ "': "
                 ++ strerror os (errno w1) ++ NL) w1
    | (Some st, w1) =>
        let fod := file_or_dir (st_mode st) in
        let ftype := ftype_string (st_mode st) in
        let size := st_size st in
        put_out (d_name ++ TAB ++ "[" ++ fod ++ "]" ++ TAB ++ "(type="
                 ++ ftype ++ ")" ++ TAB ++ "size=" ++ decimal size
                 ++ " bytes " ++ NL) w1
    end.

(** The [while ((entry = readdir(d)) != NULL)] loop over the names the
    stream yields. *)
Definition ls_loop (dir : string) (entries : list string) (w : world)
  : world :=
  fold_left (fun w1 d_name => ls_entry dir d_name w1) entries w.

(** [dirname] is never NULL here: both callers pass an array. *)
Definition do_ls (dirname : string) (w : world) : retval * world :=
  let dir := if (String.length dirname =? 0)%nat then "." else dirname in
  match os_opendir os dir with
  | inl e =>
      let w1 := with_errno (Zpos e) w in
      (Returned (-1),
       put_err ("Could not open directory " ++ dirname ++ " "
                ++ strerror os (errno w1) ++ NL) w1)
  | inr d =>
      (* opendir holds a file descriptor for the stream *)
      let w1 :=
        with_fds (ds_id d :: fds w) (with_dirs (ds_id d :: dirs w) w) in
      let w2 := with_errno 0 w1 in
      let w3 := ls_loop dir (ds_entries d) w2 in
      (* the call of readdir that returns NULL *)
      let w4 := match ds_end d with
                | None => w3
                | Some e => with_errno (Zpos e) w3
                end in
      if negb (errno w4 =? 0) then
        let w5 := put_err ("Error reading directory " ++ dir ++ " :  "
                           ++ strerror os (errno w4) ++ NL) w4 in
        let (_, w6) := sys_closedir os (ds_id d) w5 in
        (Returned (-1), w6)
      else
        let (c, w5) := sys_closedir os (ds_id d) w4 in
        if negb (c =? 0) then
          (Returned (-1),
           put_err ("error closing directory " ++ dir ++ " :  "
                    ++ strerror os (errno w5) ++ NL) w5)
        else (Returned 0, w5)
  end.

(** [fwrite(buffer, size, nmemb, stdout)]: [size * nmemb] bytes starting
    at [buffer]; [None] when they are not all mapped: the call then reads
    memory that cannot be read, and what becomes of the process and of the
    bytes before the unmapped one is not followed further. *)
Definition fwrite_buffer (size nmemb : nat) (w : world) : option world :=
  let mem := upwards (buffer w) in
  let total := (size * nmemb)%nat in
  if (List.length mem <? total)%nat then None
  else Some (put_out (string_of_list_ascii (firstn total mem)) w).

(** The [while (exitLoop == 1)] loop of [do_cat] over the results of the
    successive [read]s.  [Some (Some v, w)]: the function returned [v]
    from inside the loop; [Some (None, w)]: the loop was left;
    [None]: a memory fault. *)
Fixpoint cat_loop (filename : string) (reads : list read_result)
  (w : world) : option (option Z * world) :=
  match reads with
  | [] => Some (None, put_out NL w)
  | ReadErr e :: _ =>
      let w1 := with_errno (Zpos e) w in
      Some (Some (-1),
            put_err ("Error reading data from " ++ filename ++ ": "
                     ++ strerror os (errno w1) ++ NL) w1)
  | ReadOk data :: rest =>
      match firstn BUFFER_SIZE data with
      | [] => Some (None, put_out NL w)
      | chunk =>
          let w1 := with_buffer (store chunk (buffer w)) w in
          match fwrite_buffer BUFFER_SIZE (BUFFER_SIZE - 1) w1 with
          | None => None
          | Some w2 => cat_loop filename rest w2
          end
      end
  end.

Definition do_cat (filename : string) (w : world)
  : option (retval * world) :=
  let '(sourcefd, reads, w1) := sys_open os filename w in
  if sourcefd <? 0 then
    let w2 := put_err ("Unable to open " ++ filename ++ ": "
                       ++ strerror os (errno w1) ++ NL) w1 in
    let (_, w3) := sys_close os sourcefd w2 in
    Some (Returned (-1), w3)
  else
    match cat_loop filename reads w1 with
    | None => None
    | Some (Some v, w2) => Some (Returned v, w2)
    | Some (None, w2) =>
        let (sourceCloseSucc, w3) := sys_close os sourcefd w2 in
        let w4 :=
          if sourceCloseSucc <? 0 then
            (* [exit-1;] is an expression statement: nothing is called *)
            put_err ("Error closing source file " ++ filename ++ ": "
                     ++ strerror os (errno w3) ++ NL) w3
          else w3 in
        let (_, w5) := sys_close os sourcefd w4 in
        Some (Indeterminate, w5)
    end.

Definition do_mkdir (dirname : string) (w : world) : retval * world :=
  let mode := Z.lor (Z.lor (Z.lor S_IRWXU S_IRWXG) S_IROTH) S_IXOTH in
  let (status, w1) := sys_mkdir os dirname mode w in
  if status =? -1 then
    (Returned (-1),
     put_err ("Error creating directory " ++ dirname ++ " "
              ++ strerror os (errno w1) ++ NL) w1)
  else (Returned 0, w1).

Definition do_rmdir (dirname : string) (w : world) : retval * world :=
  let (status, w1) := sys_rmdir os dirname w in
  if status =? -1 then
    (Returned (-1),
     put_err ("Error removing directory " ++ dirname ++ " "
              ++ strerror os (errno w1) ++ NL) w1)
  else (Returned 0, w1).

Definition do_pwd (w : world) : retval * world :=
  match sys_getcwd os MAX_PATH_LENGTH w with
  | (Some current_dir, w1) =>
      (Returned 0, put_out NL (put_out (prompt current_dir) w1))
  | (None, w1) =>
      (Returned (-1),
       put_err ("Error outputting current directory: "
                ++ strerror os (errno w1) ++ NL) w1)
  end.

Definition do_rm (filename : string) (w : world) : retval * world :=
  let (status, w1) := sys_unlink os filename w in
  if status =? -1 then
    (Returned (-1),
     put_err ("Error removing file " ++ filename ++ " "
              ++ strerror os (errno w1) ++ NL) w1)
  else (Returned 0, w1).

(** [stat] is called twice; only the second answer is looked at. *)
Definition do_stat (filename : string) (w : world) : retval * world :=
  let (_, w1) := sys_stat os filename w in
  match sys_stat os filename w1 with
  | (None, w2) =>
      (Returned (-1),
       put_out ("Error outputting stat: " ++ filename ++ ", "
                ++ strerror os (errno w2) ++ NL) w2)
  | (Some sb, w2) =>
      let w3 := put_out ("File: " ++ filename ++ NL) w2 in
      let w4 := put_out ("Size: " ++ decimal (to_long (st_blksize sb))
                         ++ " bytes" ++ TAB) w3 in
      let w5 := put_out ("Blocks: " ++ decimal (to_long (st_blocks sb))
                         ++ TAB) w4 in
      let w6 := put_out ("Links: " ++ decimal (to_long (st_nlink sb))
                         ++ NL) w5 in
      let w7 := put_out ("Inode: " ++ decimal (to_long (st_ino sb))
                         ++ NL) w6 in
      let w8 := put_out ("Time Modified: " ++ ctime os (st_mtime sb)
                         ++ NL) w7 in
      (Indeterminate, w8)
  end.

(** [sscanf(buffer, fmt, filename)]: the conversion stores into the static
    array [filename]. *)
Definition scan (buf fmt : string) (w : world) : Z * world :=
  let (n, stored) := sscanf buf fmt (filename w) in
  (n, with_filename stored w).

(** [buf] is the C string in the array the argument points to, which is
    always the static [buffer]; the array is not written between the
    entry and the last time this function reads it. *)
Definition execute_command (buf : string) (w : world)
  : option (retval * world) :=
  let (n1, w1) := scan buf "cat %s" w in
  if n1 =? 1 then do_cat (filename w1) w1 else
  let (n2, w2) := scan buf "stat %s" w1 in
  if n2 =? 1 then Some (do_stat (filename w2) w2) else
  let (n3, w3) := scan buf "mkdir %s" w2 in
  if n3 =? 1 then Some (do_mkdir (filename w3) w3) else
  let (n4, w4) := scan buf "rmdir %s" w3 in
  if n4 =? 1 then Some (do_rmdir (filename w4) w4) else
  let (n5, w5) := scan buf "rm %s" w4 in
  if n5 =? 1 then Some (do_rm (filename w5) w5) else
  let (n6, w6) := scan buf "ls %s" w5 in
  if (n6 =? 1) || (strncmp buf "ls" BUFFER_SIZE =? 0) then
    let w7 :=
      if (strnlen (filename w6) BUFFER_SIZE =? 0)%nat
      then with_filename "." w6 else w6 in
    Some (do_ls (filename w7) w7)
  else if strncmp buf "pwd" BUFFER_SIZE =? 0 then Some (do_pwd w6)
  else
    let w7 :=
      if negb (strnlen buf BUFFER_SIZE =? 0)%nat then
        put_err ("myshell: " ++ buf ++ ": No such file or directory" ++ NL)
          w6
      else w6 in
    Some (Returned (-1), w7).

(** How one turn of the loop of [main] ends.  [Fault]: the turn made an
    invalid memory access (through the NULL pointer of [getpwuid], or
    outside the mapped bytes around [buffer]); the run is not followed
    beyond it. *)
Inductive outcome : Type :=
| Running (w : world) (stdin : list ascii)  (* on to the next turn *)
| Exited (status : Z) (w : world)           (* exit(status) was called *)
| Fault.                                    (* invalid memory access *)

(** The handlers' return values are discarded by [main]. *)
Definition after_command (r : option (retval * world)) (stdin : list ascii)
  : outcome :=
  match r with
  | None => Fault
  | Some (_, w) => Running w stdin
  end.

(** The body of [while (true)] in [main]. *)
Definition main_step (w : world) (stdin : list ascii) : outcome :=
  let w1 := display_prompt w in
  match fgets BUFFER_SIZE stdin with
  | None => Running w1 stdin
  | Some (line, stdin1) =>
      let w2 := with_buffer (store line (buffer w1)) w1 in
      match fst (strip_trailing_whitespace (buffer w2)) with
      | None => Fault
      | Some stripped =>
          let w3 := with_buffer stripped w2 in
          let w4 := with_filename "" w3 in
          let buf := string_at (buffer w4) in
          let (n, w5) := scan buf "cd %s" w4 in
          if (n =? 1) || (strncmp buf "cd" BUFFER_SIZE =? 0) then
            after_command (do_cd (filename w5) w5) stdin1
          else if strncmp buf "exit" BUFFER_SIZE =? 0 then
            Exited EXIT_SUCCESS w5
          else after_command (execute_command buf w5) stdin1
      end
  end.

End Shell.

(** [main]: one turn per element of [envs], the answers of the system
    during that turn. *)
Fixpoint main (envs : list OS) (w : world) (stdin : list ascii) : outcome :=
  match envs with
  | [] => Running w stdin
  | os :: later =>
      match main_step os w stdin with
      | Running w1 stdin1 => main later w1 stdin1
      | stopped => stopped
      end
  end.

(** ** Notions used to state the properties *)

(** The command line one turn of [main] acts on: the line [fgets] stored in
    [buffer], once stripped.  [None] when [fgets] returns NULL or the
    stripping leaves the mapped memory. *)
Definition command_line (w : world) (stdin : list ascii) : option string :=
  match fgets BUFFER_SIZE stdin with
  | None => None
  | Some (line, _) =>
      match fst (strip_trailing_whitespace (store line (buffer w))) with
      | None => None
      | Some stripped => Some (string_at stripped)
      end
  end.

(** The test under which [main] calls [do_cd]. *)
Definition is_cd_line (buf : string) : bool :=
  (fst (sscanf buf "cd %s" "") =? 1) || (strncmp buf "cd" BUFFER_SIZE =? 0).

(** The directory [do_ls] opens for an argument. *)
Definition ls_target (dirname : string) : string :=
  if (String.length dirname =? 0)%nat then "." else dirname.


(** *** The parser and the registry as the specification words them

    Section 4.1: an empty line is no command; otherwise the verb is the
    first white-space-delimited token and the argument, if present, the
    second one; further tokens are ignored. *)

Definition first_token (line : string) : string :=
  take_word (skip_space line).

Definition second_token (line : string) : option string :=
  match skip_space (drop_word (skip_space line)) with
  | EmptyString => None
  | more => Some (take_word more)
  end.

Definition spec_parse (line : string) : option (string * option string) :=
  match line with
  | EmptyString => None
  | _ => Some (first_token line, second_token line)
  end.

(** The handler a line is dispatched to, with its argument; [NoCall]
    when no handler is invoked. *)
Inductive call : Type :=
| CallCat (arg : string)
| CallStat (arg : string)
| CallMkdir (arg : string)
| CallRmdir (arg : string)
| CallRm (arg : string)
| CallLs (arg : string)
| CallPwd
| NoCall.

Definition required (handler : string -> call) (argument : option string)
  : call :=
  match argument with
  | Some arg => handler arg
  | None => NoCall
  end.

(** Sections 4.2 and 6: the registry maps the verb to its handler; [cat],
    [stat], [mkdir], [rmdir] and [rm] require the argument and are not
    invoked without it, [ls] defaults to ".", [pwd] takes none, and any
    other verb is no command.  ([cd] and [exit] are taken out by the
    dispatch loop before the registry is consulted.) *)
Definition spec_select (line : string) : call :=
  match spec_parse line with
  | None => NoCall
  | Some (verb, argument) =>
      if (verb =? "cat")%string then required CallCat argument
      else if (verb =? "stat")%string then required CallStat argument
      else if (verb =? "mkdir")%string then required CallMkdir argument
      else if (verb =? "rmdir")%string then required CallRmdir argument
      else if (verb =? "rm")%string then required CallRm argument
      else if (verb =? "ls")%string then
        match argument with
        | Some arg => CallLs arg
        | None => CallLs "."
        end
      else if (verb =? "pwd")%string then CallPwd
      else NoCall
  end.

(** What it is for [execute_command], entered on [line] with [filename]
    cleared, to make the call [c]: the handler runs on the argument, which
    is then the content of [filename]; for [NoCall] the line is reported
    unless it is empty, and -1 is returned. *)
Definition perform (os : OS) (line : string) (c : call) (w : world)
  : option (retval * world) :=
  match c with
  | CallCat arg => do_cat os arg (with_filename arg w)
  | CallStat arg => Some (do_stat os arg (with_filename arg w))
  | CallMkdir arg => Some (do_mkdir os arg (with_filename arg w))
  | CallRmdir arg => Some (do_rmdir os arg (with_filename arg w))
  | CallRm arg => Some (do_rm os arg (with_filename arg w))
  | CallLs arg => Some (do_ls os arg (with_filename arg w))
  | CallPwd => Some (do_pwd os (with_filename "" w))
  | NoCall =>
      Some (Returned (-1),
            if negb (strnlen line BUFFER_SIZE =? 0)%nat then
              put_err ("myshell: " ++ line ++ ": No such file or directory"
                       ++ NL) (with_filename "" w)
            else with_filename "" w)
  end.

(** [v] is made of ordinary characters of a format: no white space, no
    conversion. *)
Fixpoint ordinary (v : string) : bool :=
  match v with
  | EmptyString => true
  | String c rest =>
      negb (isspace c) && negb (is_percent c) && ordinary rest
  end.

Fixpoint starts_with (v s : string) : bool :=
  match v with
  | EmptyString => true
  | String c v' =>
      match s with
      | EmptyString => false
      | String d s' => Ascii.eqb c d && starts_with v' s'
      end
  end.

Definition leading_space (line : string) : bool :=
  match line with
  | EmptyString => false
  | String c _ => isspace c
  end.

(** The first token begins with the letters of a verb that takes an
    argument. *)
Definition verb_letters (token : string) : bool :=
  starts_with "cat" token || starts_with "stat" token
  || starts_with "mkdir" token || starts_with "rm" token
  || starts_with "ls" token.

(** The selection of the specification, except that [pwd] is a command
    only when it is the whole line. *)
Definition registry_select (line : string) : call :=
  if (first_token line =? "pwd")%string && negb (line =? "pwd")%string
  then NoCall
  else spec_select line.

(** The lines on which the verb ends where the first token ends: no
    leading white space, and a first token that is one of [cat], [stat],
    [mkdir], [rm], [pwd], or [rmdir] with an argument, or [ls] with an
    argument or as the whole line, or that does not begin with the letters
    of [cat], [stat], [mkdir], [rm] or [ls]. *)
Definition delimited (line : string) : bool :=
  let token := take_word line in
  negb (leading_space line)
  && (if (token =? "cat")%string || (token =? "stat")%string
         || (token =? "mkdir")%string || (token =? "rm")%string
         || (token =? "pwd")%string
      then true
      else if (token =? "rmdir")%string then
        match second_token line with Some _ => true | None => false end
      else if (token =? "ls")%string then
        match second_token line with
        | Some _ => true
        | None => (line =? "ls")%string
        end
      else negb (verb_letters token)).

(** What may follow a token: nothing, or white space. *)
Definition word_end (rest : string) : Prop :=
  match rest with
  | EmptyString => True
  | String c _ => isspace c = true
  end.

(** [w'] comes from [w] by writing [out] to stdout and [err] to stderr. *)
Definition extends (w w' : world) (out err : string) : Prop :=
  stdout w' = stdout w ++ out /\ stderr w' = stderr w ++ err.

(** Something was written between [w] and [w']. *)
Definition reported (w w' : world) : Prop :=
  exists out err, extends w w' out err /\ out ++ err <> "".

(** *** Notions for typed lines and listings *)

(** The line without its trailing white space. *)
Fixpoint rstrip (s : string) : string :=
  match s with
  | EmptyString => ""
  | String c rest =>
      match rstrip rest with
      | EmptyString => if isspace c then "" else String c ""
      | kept => String c kept
      end
  end.

(** White space that can be typed inside a line: any but the newline. *)
Fixpoint blanks (s : string) : bool :=
  match s with
  | EmptyString => true
  | String c rest =>
      isspace c && negb (Ascii.eqb c (ascii_of_nat 10)) && blanks rest
  end.

(** Text that can be typed on one line: no NUL and no newline. *)
Fixpoint one_line (s : string) : bool :=
  match s with
  | EmptyString => true
  | String c rest =>
      negb (is_nul c) && negb (Ascii.eqb c (ascii_of_nat 10))
      && one_line rest
  end.

(** The file types of [sys/stat.h] with the names [ftype_string] gives
    them. *)
Definition file_types : list (Z * string) :=
  [(S_IFREG, "regular"); (S_IFDIR, "directory"); (S_IFLNK, "symlink");
   (S_IFCHR, "char-device"); (S_IFBLK, "block-device"); (S_IFIFO, "fifo");
   (S_IFSOCK, "socket")].

(** A word: neither white space nor NUL in it. *)
Fixpoint graphic (s : string) : bool :=
  match s with
  | EmptyString => true
  | String c rest => negb (isspace c) && negb (is_nul c) && graphic rest
  end.

(** The verbs that take an argument, with the calls they stand for. *)
Definition verbs : list (string * (string -> call)) :=
  [("cat", CallCat); ("stat", CallStat); ("mkdir", CallMkdir);
   ("rmdir", CallRmdir); ("rm", CallRm); ("ls", CallLs)].

(** The state in which the command of a turn starts: the prompt is
    written, [buffer] holds the stripped line and [filename] is cleared. *)
Definition ready (os : OS) (stripped : region) (w : world) : world :=
  with_filename "" (with_buffer stripped (display_prompt os w)).

(** The line [do_ls] prints for an entry [lstat] described. *)
Definition ls_line (d_name : string) (st : stat_t) : string :=
  d_name ++ TAB ++ "[" ++ file_or_dir (st_mode st) ++ "]" ++ TAB ++ "(type="
  ++ ftype_string (st_mode st) ++ ")" ++ TAB ++ "size="
  ++ decimal (st_size st) ++ " bytes " ++ NL.

(** The listing of the entries of [dir]: one line for each entry whose
    path fits in [PATH_MAX] bytes and that [lstat] describes, in the order
    of the entries. *)
Fixpoint listing (os : OS) (dir : string) (entries : list string) : string :=
  match entries with
  | [] => ""
  | d_name :: later =>
      (if (PATH_MAX <=? String.length dir + 1 + String.length d_name)%nat
       then ""
       else match os_lstat os (dir ++ "/" ++ d_name) with
            | inr st => ls_line d_name st
            | inl _ => ""
            end)
      ++ listing os dir later
  end.

(** A line that is no command: it does not begin with white space, its
    first token does not begin with the letters of [cat], [stat], [mkdir],
    [rm] or [ls], and it neither begins with [cd] nor is [pwd], [exit] or
    empty. *)
Definition unknown_command (line : string) : bool :=
  negb (leading_space line)
  && negb (verb_letters (take_word line))
  && negb (starts_with "cd" line)
  && negb (line =? "pwd")%string
  && negb (line =? "exit")%string
  && negb (line =? "")%string.

(** ** Sample environments *)

Definition ENOENT : positive := 2%positive.
Definition EIO : positive := 5%positive.
Definition EISDIR : positive := 21%positive.

Definition strerror_linux (e : Z) : string :=
  if e =? 2 then "No such file or directory"
  else if e =? 5 then "Input/output error"
  else if e =? 9 then "Bad file descriptor"
  else if e =? 21 then "Is a directory"
  else if e =? 34 then "Numerical result out of range"
  else "Unknown error " ++ decimal e.

(** A system where every lookup fails with ENOENT and every change
    succeeds; the user's home is /home/user. *)
Definition os_plain : OS :=
  mkOS strerror_linux (fun _ => "Thu Jan  1 00:00:00 1970" ++ NL)
    (Some "/home/user")
    (fun _ path => inr path) None
    (fun _ => inl ENOENT) (fun _ => inl ENOENT) (fun _ => None)
    (fun _ => inl ENOENT) (fun _ => None)
    (fun _ _ => None) (fun _ => None) (fun _ => None)
    (fun _ => inl ENOENT).

Definition with_home (home : option string) (os : OS) : OS :=
  mkOS (strerror os) (ctime os) home (os_chdir os) (os_getcwd os)
    (os_opendir os) (os_lstat os) (os_closedir os) (os_open os) (os_close os)
    (os_mkdir os) (os_rmdir os) (os_unlink os) (os_stat os).

Definition with_open (f : string -> positive + file_t) (os : OS) : OS :=
  mkOS (strerror os) (ctime os) (getpwuid_dir os) (os_chdir os)
    (os_getcwd os) (os_opendir os) (os_lstat os) (os_closedir os) f
    (os_close os) (os_mkdir os) (os_rmdir os) (os_unlink os) (os_stat os).

Definition with_directory (opendir : string -> positive + dirstream)
  (lstat : string -> positive + stat_t) (closedir : Z -> option positive)
  (os : OS) : OS :=
  mkOS (strerror os) (ctime os) (getpwuid_dir os) (os_chdir os)
    (os_getcwd os) opendir lstat closedir (os_open os) (os_close os)
    (os_mkdir os) (os_rmdir os) (os_unlink os) (os_stat os).

(** The process at start-up in /tmp, with [bl] and [ab] the bytes mapped
    before and after the zero-initialised [buffer]. *)
Definition boot (bl ab : list ascii) : world :=
  mkWorld "/tmp" 0 "" "" [] [] []
    (mkRegion bl (repeat NUL BUFFER_SIZE) ab) "" "".

Definition typed (s : string) : list ascii := list_ascii_of_string (s ++ NL).

(** A file "f" holding the single byte x. *)
Definition os_one_byte_file : OS :=
  with_open (fun path => if (path =? "f")%string
                         then inr (mkFile 3 [ReadOk ["x"%char]])
                         else inl ENOENT) os_plain.

(** A directory "d": it can be opened for reading, reading it fails. *)
Definition os_cat_directory : OS :=
  with_open (fun path => if (path =? "d")%string
                         then inr (mkFile 3 [ReadErr EISDIR])
                         else inl ENOENT) os_plain.

Definition regular (size : Z) : stat_t :=
  mkStat (Z.lor S_IFREG 420) size 4096 8 1 1000 0.

(** The working directory holds one file "a" of 10 bytes. *)
Definition one_entry_dir (end_ : option positive) : dirstream :=
  mkDir 7 ["a"] end_.

(** Listing it works, closing the stream fails. *)
Definition os_closedir_fails : OS :=
  with_directory (fun _ => inr (one_entry_dir None))
    (fun _ => inr (regular 10)) (fun _ => Some EIO) os_plain.

(** Listing it works, but "a" is removed before [lstat] looks at it. *)
Definition os_entry_vanishes : OS :=
  with_directory (fun _ => inr (one_entry_dir None))
    (fun _ => inl ENOENT) (fun _ => None) os_plain.

Definition os_listing_ok : OS :=
  with_directory (fun _ => inr (one_entry_dir None))
    (fun _ => inr (regular 10)) (fun _ => None) os_plain.



(** A session of four lines: two commands that fail, an unknown verb and
    [exit]. *)
Definition session_envs : list OS :=
  [os_cat_directory; os_plain; os_plain; os_plain].

Definition session_input : list ascii :=
  (typed "cat d" ++ typed "stat missing" ++ typed "nonsense"
   ++ typed "exit")%list.

(** The state in which that session ends. *)
Definition session_end : world :=
  Eval vm_compute in
    match main session_envs (boot [NUL] []) session_input with
    | Exited _ w => w
    | _ => boot [] []
    end.

(** A home directory whose path has 300 bytes. *)
Definition long_home : string :=
  "/" ++ string_of_list_ascii (repeat "a"%char 299).

Definition os_long_home : OS := with_home (Some long_home) os_plain.

Definition with_chdir (chdir : string -> string -> positive + string)
  (os : OS) : OS :=
  mkOS (strerror os) (ctime os) (getpwuid_dir os) chdir (os_getcwd os)
    (os_opendir os) (os_lstat os) (os_closedir os) (os_open os) (os_close os)
    (os_mkdir os) (os_rmdir os) (os_unlink os) (os_stat os).

(** A home directory three levels below /home, with a path of 308 bytes;
    it is the only directory [chdir] finds. *)
Definition nested_home : string :=
  "/home/" ++ string_of_list_ascii (repeat "a"%char 100)
  ++ "/" ++ string_of_list_ascii (repeat "b"%char 100)
  ++ "/" ++ string_of_list_ascii (repeat "c"%char 100).

Definition os_nested_home : OS :=
  with_chdir (fun _ path => if (path =? nested_home)%string then inr path
                            else inl ENOENT)
    (with_home (Some nested_home) os_plain).

(** A system where [chdir] reaches a relative path from the working
    directory. *)
Definition os_relative : OS :=
  with_chdir (fun cwd path => if starts_with "/" path then inr path
                              else inr (cwd ++ "/" ++ path)) os_plain.

(** The process in a directory whose path has 300 bytes. *)
Definition deep_world : world := with_cwd long_home (boot [] []).

(** A file "f" of three bytes that one [read] delivers. *)
Definition os_small_file : OS :=
  with_open (fun path => if (path =? "f")%string
                         then inr (mkFile 3 [ReadOk ["a"; "b"; "c"]%char])
                         else inl ENOENT) os_plain.

(** An empty file "e". *)
Definition os_empty_file : OS :=
  with_open (fun path => if (path =? "e")%string
                         then inr (mkFile 3 [])
                         else inl ENOENT) os_plain.

(** Memory mapped far enough behind [buffer] for [do_cat]. *)
Definition roomy_world : world :=
  boot [] (repeat NUL (BUFFER_SIZE * (BUFFER_SIZE - 2))).

(** The system [os] with other answers to [stat]. *)
Definition with_stat (stat : string -> positive + stat_t) (os : OS) : OS :=
  mkOS (strerror os) (ctime os) (getpwuid_dir os) (os_chdir os)
    (os_getcwd os) (os_opendir os) (os_lstat os) (os_closedir os)
    (os_open os) (os_close os) (os_mkdir os) (os_rmdir os) (os_unlink os)
    stat.

(** Two systems that differ in one file: a regular file of 10 bytes in
    the first, a directory entry of 4096 bytes in the second, with the
    same block counts, links, inode and time. *)
Definition os_stat_file : OS := with_stat (fun _ => inr (regular 10)) os_plain.

Definition os_stat_directory : OS :=
  with_stat (fun _ => inr (mkStat (Z.lor S_IFDIR 493) 4096 4096 8 1 1000 0))
    os_plain.

(** ** Proof automation *)

(** Name the result of the next [sys_close] in [H], with [frame] stating
    what the call preserves. *)
Ltac close_step frame H :=
  match type of H with
  | context [sys_close ?os ?fd ?w0] =>
      let Hc := fresh "Hclose" in
      let c := fresh "c" in
      let w1 := fresh "w" in
      pose proof (frame os fd w0) as Hc;
      destruct (sys_close os fd w0) as [c w1];
      cbn [snd] in Hc
  end.

Ltac world_norm :=
  cbn [cwd errno stdout stderr fds dirs fs_log buffer filename past_filename
       with_filename].

(** Evaluate the next [scan] of the goal: [miss] when the line does not
    begin with the verb [v] ([lem] is the lemma for that case), [hit] when
    the line is [v] followed by [rest]. *)
Ltac miss lem v :=
  match goal with
  | |- context [scan ?s ?fmt ?w] =>
      let n := fresh "n" in
      let E := fresh "E" in
      let Hn := fresh "Hn" in
      destruct (lem v s w eq_refl) as (n & E & Hn);
      [ | cbn [append] in E; cbn [append]; rewrite E; world_norm;
          rewrite Hn ]
  end.

Ltac hit lem v rest :=
  match goal with
  | |- context [scan ?s ?fmt ?w] =>
      let E := fresh "E" in
      pose proof (lem v rest w eq_refl) as E;
      cbn [append] in E; cbn [append]; rewrite E; clear E; world_norm
  end.

Ltac no_nul_literal :=
  let c := fresh "c" in
  let Hin := fresh "Hin" in
  intros c Hin; simpl in Hin;
  repeat (destruct Hin as [<-|Hin]; [discriminate|]); contradiction.

(** Rewrite the selection made for a line that is a verb followed by
    [rest]; [token] and [parse] are the lemmas on its first token and on
    its parse. *)
Ltac spec_side token parse :=
  match goal with
  | Hend : word_end ?rest
    |- context [registry_select (String ?c ?v ++ ?rest)] =>
      unfold registry_select, spec_select;
      rewrite (token c v rest eq_refl Hend);
      rewrite (parse c v rest eq_refl Hend);
      cbn [String.eqb Ascii.eqb Bool.eqb andb]; cbv iota
  end.

(** A message that begins with a literal is not empty. *)
Ltac message := simpl; discriminate.

(** Name the result of the next [scan] in a hypothesis, with [silent]
    stating that it writes nothing, and split on its success. *)
Ltac scan_step silent :=
  match goal with
  | H : context [scan ?buf ?fmt ?w] |- _ =>
      let S := fresh "Hsilent" in
      let n := fresh "n" in
      let w1 := fresh "w" in
      pose proof (silent buf fmt w) as S;
      destruct (scan buf fmt w) as [n w1];
      cbn [snd] in S;
      destruct (n =? 1)
  end.

(** Close a goal on stdout and stderr along a chain of silent steps. *)
Ltac chain_silent :=
  repeat match goal with
         | H : stdout ?a = stdout ?b /\ stderr ?a = stderr ?b |- _ =>
             destruct H
         end;
  try split; congruence.

(** Close a goal on the state after a handler, from the equation [Hc] for
    the handler's result and the lemma [lem] stating that the handler
    keeps an invariant of the state that the goal is an instance of. *)
Ltac kept lem Hc :=
  match type of Hc with
  | _ = (_, _) =>
      let K := fresh "K" in
      pose proof (f_equal snd Hc) as K; cbn [snd] in K; rewrite <- K;
      apply lem; intros; try assumption; try reflexivity
  end.

(** * Properties *)

(** ** The C library model on samples *)

Example sscanf_two_words :
  sscanf "cat a.txt b.txt" "cat %s" "" = (1, "a.txt").
Proof. reflexivity. Qed.

Example sscanf_verb_alone : sscanf "cat" "cat %s" "old" = (EOF, "old").
Proof. reflexivity. Qed.

Example sscanf_other_verb : sscanf "stat x" "cat %s" "old" = (0, "old").
Proof. reflexivity. Qed.

Example sscanf_leading_blank : sscanf " cat x" "cat %s" "old" = (0, "old").
Proof. reflexivity. Qed.

Example decimal_samples :
  decimal 0 = "0" /\ decimal 1024 = "1024" /\ decimal (-7) = "-7".
Proof. repeat split; reflexivity. Qed.

Example fgets_stops_after_newline :
  fgets 8 (list_ascii_of_string ("ls" ++ NL ++ "pwd"))
  = Some ((list_ascii_of_string ("ls" ++ NL) ++ [NUL])%list,
          list_ascii_of_string "pwd").
Proof. reflexivity. Qed.

Example fgets_splits_long_line :
  fgets 4 (list_ascii_of_string "abcdef")
  = Some ((list_ascii_of_string "abc" ++ [NUL])%list,
          list_ascii_of_string "def").
Proof. reflexivity. Qed.

(** ** Strings, tokens and formats *)

Lemma uchar_zero : forall c, uchar c = 0 -> c = NUL.
Proof.
  intros c H. unfold uchar in H.
  rewrite <- (ascii_N_embedding c).
  replace (N_of_ascii c) with 0%N by lia. reflexivity.
Qed.

Lemma uchar_inj : forall c d, uchar c = uchar d -> c = d.
Proof.
  intros c d H. unfold uchar in H.
  rewrite <- (ascii_N_embedding c), <- (ascii_N_embedding d).
  f_equal. lia.
Qed.

Lemma cstring_no_nul :
  forall bytes c, In c (list_ascii_of_string (cstring bytes)) -> c <> NUL.
Proof.
  induction bytes as [|b rest IH]; intros c Hin; simpl in Hin.
  - contradiction.
  - destruct (is_nul b) eqn:Hb; simpl in Hin; [contradiction|].
    destruct Hin as [<-|Hin]; [|apply IH; exact Hin].
    intros ->. unfold is_nul in Hb. rewrite Ascii.eqb_refl in Hb.
    discriminate.
Qed.

(** On C strings shorter than the bound, [strncmp] returns 0 only for
    equal strings. *)
Lemma strncmp_zero :
  forall n s1 s2,
    (String.length s2 < n)%nat ->
    (forall c, In c (list_ascii_of_string s1) -> c <> NUL) ->
    (forall c, In c (list_ascii_of_string s2) -> c <> NUL) ->
    strncmp s1 s2 n = 0 -> s1 = s2.
Proof.
  induction n as [|n IH]; intros s1 s2 Hlen H1 H2 Hcmp; [lia|].
  destruct s1 as [|c r1], s2 as [|d r2]; simpl in *.
  - reflexivity.
  - exfalso. apply (H2 d); [left; reflexivity|]. apply uchar_zero. lia.
  - exfalso. apply (H1 c); [left; reflexivity|]. apply uchar_zero. lia.
  - destruct (Ascii.eqb c d) eqn:Hcd.
    + apply Ascii.eqb_eq in Hcd. subst d. f_equal.
      apply IH; auto. lia.
    + exfalso. apply Ascii.eqb_neq in Hcd. apply Hcd.
      apply uchar_inj. lia.
Qed.

Lemma skip_space_head :
  forall s c r, skip_space s = String c r -> isspace c = false.
Proof.
  induction s as [|d s IH]; intros c r H; simpl in H; [discriminate|].
  destruct (isspace d) eqn:Hd; [eauto|]. inversion H; subst. exact Hd.
Qed.

Lemma skip_space_idem : forall s, skip_space (skip_space s) = skip_space s.
Proof.
  induction s as [|d s IH]; simpl; [reflexivity|].
  destruct (isspace d) eqn:Hd; [exact IH|]. simpl. rewrite Hd. reflexivity.
Qed.

Lemma take_drop : forall s, take_word s ++ drop_word s = s.
Proof.
  induction s as [|d s IH]; simpl; [reflexivity|].
  destruct (isspace d); simpl; [reflexivity|]. rewrite IH. reflexivity.
Qed.

Lemma drop_word_end : forall s, word_end (drop_word s).
Proof.
  induction s as [|d s IH]; simpl; [exact I|].
  destruct (isspace d) eqn:Hd; [exact Hd|exact IH].
Qed.

Lemma sscanf_tail :
  forall rest dest a,
    sscanf_from " %s" rest dest a
    = match skip_space rest with
      | EmptyString => (input_failure a, dest)
      | String c r => (a + 1, take_word (String c r))
      end.
Proof.
  intros rest dest a.
  change (sscanf_from " %s" rest dest a)
    with (match skip_space (skip_space rest) with
          | EmptyString => (input_failure a, dest)
          | String c r =>
              sscanf_from "" (drop_word (String c r)) (take_word (String c r))
                (a + 1)
          end).
  rewrite skip_space_idem. destruct (skip_space rest); reflexivity.
Qed.

Lemma sscanf_ordinary_step :
  forall c fmt input dest a,
    isspace c = false -> is_percent c = false ->
    sscanf_from (String c fmt) input dest a
    = match input with
      | EmptyString => (input_failure a, dest)
      | String d input1 =>
          if Ascii.eqb c d then sscanf_from fmt input1 dest a
          else (a, dest)
      end.
Proof.
  intros c fmt input dest a Hsp Hpc.
  destruct fmt as [|c1 fmt2]; cbn [sscanf_from]; rewrite Hsp, ?Hpc;
    reflexivity.
Qed.

Lemma ordinary_cons :
  forall c v, ordinary (String c v) = true ->
              isspace c = false /\ is_percent c = false /\ ordinary v = true.
Proof.
  intros c v H. simpl in H.
  destruct (isspace c), (is_percent c), (ordinary v); try discriminate.
  repeat split.
Qed.

Lemma sscanf_hit :
  forall v rest dest a,
    ordinary v = true ->
    sscanf_from (v ++ " %s") (v ++ rest) dest a
    = sscanf_from " %s" rest dest a.
Proof.
  induction v as [|c v IH]; intros rest dest a Hv; [reflexivity|].
  destruct (ordinary_cons _ _ Hv) as (Hsp & Hpc & Hv').
  cbn [append]. rewrite sscanf_ordinary_step by assumption.
  rewrite Ascii.eqb_refl. apply IH. exact Hv'.
Qed.

Lemma sscanf_miss :
  forall v s dest,
    ordinary v = true -> starts_with v s = false ->
    exists n, sscanf_from (v ++ " %s") s dest 0 = (n, dest) /\ (n =? 1) = false.
Proof.
  induction v as [|c v IH]; intros s dest Hv Hs; [discriminate|].
  destruct (ordinary_cons _ _ Hv) as (Hsp & Hpc & Hv').
  cbn [append]. rewrite sscanf_ordinary_step by assumption.
  destruct s as [|d s1].
  - exists EOF. split; reflexivity.
  - simpl in Hs. destruct (Ascii.eqb c d).
    + apply IH; assumption.
    + exists 0. split; reflexivity.
Qed.

Lemma scan_hit :
  forall v rest w,
    ordinary v = true ->
    scan (v ++ rest) (v ++ " %s") w
    = match skip_space rest with
      | EmptyString => (EOF, with_filename (filename w) w)
      | String c r => (1, with_filename (take_word (String c r)) w)
      end.
Proof.
  intros v rest w Hv. unfold scan, sscanf.
  rewrite sscanf_hit by exact Hv. rewrite sscanf_tail.
  destruct (skip_space rest); reflexivity.
Qed.

Lemma scan_miss :
  forall v s w,
    ordinary v = true -> starts_with v s = false ->
    exists n,
      scan s (v ++ " %s") w = (n, with_filename (filename w) w)
      /\ (n =? 1) = false.
Proof.
  intros v s w Hv Hs. unfold scan, sscanf.
  destruct (sscanf_miss v s (filename w) Hv Hs) as (n & E & Hn).
  exists n. rewrite E. split; [reflexivity|exact Hn].
Qed.

Lemma space_is_not (c d : ascii) :
  isspace c = true -> isspace d = false -> Ascii.eqb d c = false.
Proof.
  intros Hc Hd. destruct (Ascii.eqb_spec d c) as [->|]; congruence.
Qed.
Lemma take_word_app :
  forall v rest,
    ordinary v = true -> word_end rest -> take_word (v ++ rest) = v.
Proof.
  induction v as [|c v IH]; intros rest Hv Hend.
  - destruct rest as [|d r]; [reflexivity|]. simpl in *. rewrite Hend.
    reflexivity.
  - destruct (ordinary_cons _ _ Hv) as (Hsp & _ & Hv').
    simpl. rewrite Hsp, IH by assumption. reflexivity.
Qed.

Lemma drop_word_app :
  forall v rest,
    ordinary v = true -> word_end rest -> drop_word (v ++ rest) = rest.
Proof.
  induction v as [|c v IH]; intros rest Hv Hend.
  - destruct rest as [|d r]; [reflexivity|]. simpl in *. rewrite Hend.
    reflexivity.
  - destruct (ordinary_cons _ _ Hv) as (Hsp & _ & Hv').
    simpl. rewrite Hsp. apply IH; assumption.
Qed.

Lemma skip_space_word :
  forall s, leading_space s = false -> skip_space s = s.
Proof.
  intros [|c s] H; [reflexivity|]. simpl in *. rewrite H. reflexivity.
Qed.

(** The tokens of a line made of a verb and what follows it. *)
Lemma spec_parse_verb :
  forall c v rest,
    ordinary (String c v) = true -> word_end rest ->
    spec_parse (String c v ++ rest)
    = Some (String c v,
            match skip_space rest with
            | EmptyString => None
            | String d r => Some (take_word (String d r))
            end).
Proof.
  intros c v rest Hv Hend.
  destruct (ordinary_cons _ _ Hv) as (Hsp & _ & _).
  unfold spec_parse, first_token, second_token.
  rewrite (skip_space_word (String c v ++ rest)) by exact Hsp.
  rewrite take_word_app, drop_word_app by assumption.
  cbn [append]. destruct (skip_space rest); reflexivity.
Qed.

Lemma first_token_verb :
  forall c v rest,
    ordinary (String c v) = true -> word_end rest ->
    first_token (String c v ++ rest) = String c v.
Proof.
  intros c v rest Hv Hend.
  destruct (ordinary_cons _ _ Hv) as (Hsp & _ & _).
  unfold first_token.
  rewrite (skip_space_word (String c v ++ rest)) by exact Hsp.
  apply take_word_app; assumption.
Qed.

Lemma starts_with_take_word :
  forall v s,
    ordinary v = true -> starts_with v (take_word s) = starts_with v s.
Proof.
  induction v as [|c v IH]; intros s Hv; [reflexivity|].
  destruct (ordinary_cons _ _ Hv) as (Hsp & _ & Hv').
  destruct s as [|d s]; [reflexivity|]. simpl.
  destruct (isspace d) eqn:Hd.
  - rewrite (space_is_not d c Hd Hsp). reflexivity.
  - simpl. rewrite IH by exact Hv'. reflexivity.
Qed.

Lemma starts_with_longer :
  forall a b s, starts_with a s = false -> starts_with (a ++ b) s = false.
Proof.
  induction a as [|c a IH]; intros b s H; [discriminate|].
  destruct s as [|d s]; [reflexivity|]. simpl in *.
  destruct (Ascii.eqb c d); [apply IH; exact H|reflexivity].
Qed.

Lemma starts_with_refl : forall v, starts_with v v = true.
Proof.
  induction v as [|c v IH]; [reflexivity|]. simpl.
  rewrite Ascii.eqb_refl. exact IH.
Qed.

Lemma strncmp_literal :
  forall bytes v,
    (String.length v < BUFFER_SIZE)%nat ->
    (forall c, In c (list_ascii_of_string v) -> c <> NUL) ->
    (strncmp (cstring bytes) v BUFFER_SIZE =? 0) = true ->
    cstring bytes = v.
Proof.
  intros bytes v Hlen Hv H. apply Z.eqb_eq in H.
  apply (strncmp_zero BUFFER_SIZE); auto. apply cstring_no_nul.
Qed.

(** ** Stripping trailing white space *)

Lemma strip_loop_reads :
  forall fuel r i reads,
    exists later, snd (strip_loop fuel r i reads) = (reads ++ i :: later)%list.
Proof.
  induction fuel as [|fuel IH]; intros r i reads; simpl.
  - exists []. reflexivity.
  - destruct (rd r i) as [c|]; [|exists []; reflexivity].
    destruct (isspace c); [|exists []; reflexivity].
    destruct (IH (wr r i NUL) (i - 1) (reads ++ [i])%list) as [later E].
    exists ((i - 1) :: later). rewrite E, <- app_assoc. reflexivity.
Qed.

Lemma strip_loop_space :
  forall fuel r i reads c,
    rd r i = Some c -> isspace c = true ->
    strip_loop (S fuel) r i reads
    = strip_loop fuel (wr r i NUL) (i - 1) (reads ++ [i])%list.
Proof.
  intros fuel r i reads c Hrd Hsp. simpl. rewrite Hrd, Hsp. reflexivity.
Qed.

Example strip_keeps_command :
  let r := mkRegion [] (list_ascii_of_string ("ls  " ++ NL) ++ [NUL])%list []
  in option_map string_at (fst (strip_trailing_whitespace r)) = Some "ls"
     /\ snd (strip_trailing_whitespace r) = [4; 3; 2; 1].
Proof. split; reflexivity. Qed.

(** The fuel given to [strip_loop] never cuts the loop short: with more
    fuel the result is the same. *)
Lemma update_length :
  forall l n c, List.length (update l n c) = List.length l.
Proof.
  induction l as [|x l IH]; intros [|n] c; simpl; auto.
Qed.

Lemma wr_below_length :
  forall r i c, List.length (below (wr r i c)) = List.length (below r).
Proof.
  intros r i c. unfold wr.
  destruct (i <? 0); [apply update_length|].
  destruct (i <? Z.of_nat (List.length (cells r))); reflexivity.
Qed.

Lemma strip_loop_fuel :
  forall fuel r i reads,
    i + 1 + Z.of_nat (List.length (below r)) < Z.of_nat fuel ->
    strip_loop (S fuel) r i reads = strip_loop fuel r i reads.
Proof.
  induction fuel as [|fuel IH]; intros r i reads H.
  - cbn [strip_loop]. unfold rd.
    destruct (Z.ltb_spec i 0) as [Hneg|Hpos]; [|lia].
    replace (nth_error (below r) (Z.to_nat (- i - 1))) with (@None ascii);
      [reflexivity|].
    symmetry. apply nth_error_None. lia.
  - change (strip_loop (S (S fuel)) r i reads)
      with (match rd r i with
            | None => (None, (reads ++ [i])%list)
            | Some c =>
                if isspace c
                then strip_loop (S fuel) (wr r i NUL) (i - 1)
                       (reads ++ [i])%list
                else (Some r, (reads ++ [i])%list)
            end).
    cbn [strip_loop].
    destruct (rd r i) as [c|]; [|reflexivity].
    destruct (isspace c); [|reflexivity].
    apply IH. rewrite wr_below_length. lia.
Qed.

Lemma strip_fuel_suffices :
  forall r extra,
    let i := Z.of_nat (strnlen (string_at r) BUFFER_SIZE) - 1 in
    strip_loop (Z.to_nat (i + 1) + List.length (below r) + 1 + extra) r i []
    = strip_trailing_whitespace r.
Proof.
  intros r extra i. unfold strip_trailing_whitespace. fold i.
  induction extra as [|extra IH].
  - rewrite Nat.add_0_r. reflexivity.
  - rewrite Nat.add_succ_r, strip_loop_fuel; [exact IH|]. subst i. lia.
Qed.

(** On a line that holds a character other than white space the scan
    stops inside the array. *)
Lemma nth_error_update_other :
  forall l n m c, n <> m -> nth_error (update l n c) m = nth_error l m.
Proof.
  induction l as [|x l IH]; intros [|n] [|m] c H; simpl; auto;
    try contradiction.
Qed.

Lemma rd_wr_other :
  forall r i j c, 0 <= j < i -> rd (wr r i c) j = rd r j.
Proof.
  intros r i j c Hj. unfold rd, wr.
  destruct (Z.ltb_spec j 0) as [|_]; [lia|].
  destruct (Z.ltb_spec i 0) as [|_]; [lia|].
  unfold upwards.
  destruct (Z.ltb_spec i (Z.of_nat (List.length (cells r)))) as [Hin|Hout];
    cbn [below cells above].
  - destruct (Nat.ltb_spec (Z.to_nat j) (List.length (cells r))) as [Hl|Hl].
    + rewrite !nth_error_app1 by (rewrite ?update_length; exact Hl).
      apply nth_error_update_other. lia.
    + rewrite !nth_error_app2 by (rewrite ?update_length; exact Hl).
      rewrite update_length. reflexivity.
  - destruct (Nat.ltb_spec (Z.to_nat j) (List.length (cells r))) as [Hl|Hl].
    + rewrite !nth_error_app1 by exact Hl. reflexivity.
    + rewrite !nth_error_app2 by exact Hl.
      apply nth_error_update_other. lia.
Qed.

Lemma strip_loop_stops :
  forall fuel r i reads k c,
    0 <= k <= i -> (Z.to_nat (i - k) < fuel)%nat ->
    rd r k = Some c -> isspace c = false ->
    (forall j, k <= j <= i -> rd r j <> None) ->
    exists r' more,
      strip_loop fuel r i reads = (Some r', (reads ++ more)%list)
      /\ Forall (fun j => k <= j <= i) more.
Proof.
  induction fuel as [|fuel IH]; intros r i reads k c Hk Hfuel Hrd Hc Hmap;
    [lia|].
  cbn [strip_loop].
  destruct (rd r i) as [d|] eqn:Hi; [|exfalso; apply (Hmap i); [lia|exact Hi]].
  destruct (isspace d) eqn:Hd.
  - assert (Hlt : k < i).
    { destruct (Z.eq_dec k i) as [->|]; [|lia]. congruence. }
    destruct (IH (wr r i NUL) (i - 1) (reads ++ [i])%list k c)
      as (r' & more & E & Hall); try lia; auto.
    + rewrite rd_wr_other by lia. exact Hrd.
    + intros j Hj. rewrite rd_wr_other by lia. apply Hmap. lia.
    + exists r', (i :: more). rewrite E, <- app_assoc. split; [reflexivity|].
      constructor; [lia|].
      eapply Forall_impl; [|exact Hall]. cbv beta. intros j Hj. lia.
  - exists r, [i]. split; [reflexivity|]. constructor; [lia|constructor].
Qed.

Lemma cstring_length :
  forall bytes, (String.length (cstring bytes) <= List.length bytes)%nat.
Proof.
  induction bytes as [|b rest IH]; simpl; [lia|].
  destruct (is_nul b); simpl; lia.
Qed.

(** X1: on a line that holds a character other than white space,
    [strip_trailing_whitespace] reads inside the line only: the loop ends,
    and every index it reads lies between 0 and the length of the line. *)
Lemma strip_in_bounds :
  forall r k c,
    0 <= k < Z.of_nat (strnlen (string_at r) BUFFER_SIZE) ->
    rd r k = Some c -> isspace c = false ->
    exists r',
      fst (strip_trailing_whitespace r) = Some r'
      /\ Forall (fun j => 0 <= j < Z.of_nat (strnlen (string_at r) BUFFER_SIZE))
           (snd (strip_trailing_whitespace r)).
Proof.
  intros r k c Hk Hrd Hc. unfold strip_trailing_whitespace.
  set (n := strnlen (string_at r) BUFFER_SIZE) in *.
  cbv zeta.
  destruct (strip_loop_stops
              (Z.to_nat (Z.of_nat n - 1 + 1) + List.length (below r) + 1)
              r (Z.of_nat n - 1) [] k c) as (r' & more & E & Hall);
    try lia; auto.
  - intros j Hj. unfold rd.
    destruct (Z.ltb_spec j 0) as [|_]; [lia|].
    apply nth_error_Some.
    pose proof (cstring_length (upwards r)) as Hlen.
    assert (n <= String.length (string_at r))%nat
      by (subst n; unfold strnlen; lia).
    unfold string_at in *. lia.
  - exists r'. rewrite E. split; [reflexivity|].
    cbn [snd app]. eapply Forall_impl; [|exact Hall].
    cbv beta. intros j Hj. lia.
Qed.

Lemma strip_in_bounds_witness :
  exists r',
    fst (strip_trailing_whitespace
           (mkRegion [] (list_ascii_of_string ("ls  " ++ NL) ++ [NUL])%list []))
    = Some r'
    /\ Forall (fun j => 0 <= j < 5)
         (snd (strip_trailing_whitespace
                 (mkRegion []
                    (list_ascii_of_string ("ls  " ++ NL) ++ [NUL])%list []))).
Proof.
  apply (strip_in_bounds
           (mkRegion [] (list_ascii_of_string ("ls  " ++ NL) ++ [NUL])%list [])
           1 "s"%char).
  - vm_compute. split; [discriminate|reflexivity].
  - reflexivity.
  - reflexivity.
Defined.

(** On an empty line, a blank that happens to precede the array is
    overwritten as well. *)
Example strip_clears_byte_before_buffer :
  strip_trailing_whitespace
    (mkRegion [" "%char; "x"%char] [ascii_of_nat 10; NUL; NUL] [])
  = (Some (mkRegion [NUL; "x"%char] [NUL; NUL; NUL] []), [0; -1; -2]).
Proof. reflexivity. Qed.

(** C10: on the empty line, which [fgets] stores as a newline followed by
    NUL, the scan of [strip_trailing_whitespace] reads index 0 and then
    index -1, one byte before the array, whatever the memory around the
    array holds.  The loop has no lower bound on its index. *)
Theorem strip_reads_before_buffer :
  forall bl rest ab,
    exists later,
      snd (strip_trailing_whitespace
             (mkRegion bl (ascii_of_nat 10 :: NUL :: rest) ab))
      = 0 :: -1 :: later.
Proof.
  intros bl rest ab.
  unfold strip_trailing_whitespace.
  set (r := mkRegion bl (ascii_of_nat 10 :: NUL :: rest) ab).
  change (string_at r) with NL.
  change (Z.of_nat (strnlen NL BUFFER_SIZE) - 1) with 0.
  cbv zeta.
  replace (Z.to_nat (0 + 1) + List.length (below r) + 1)%nat
    with (S (S (List.length bl))) by (subst r; simpl; lia).
  rewrite (strip_loop_space _ r 0 [] (ascii_of_nat 10))
    by reflexivity.
  destruct (strip_loop_reads (S (List.length bl)) (wr r 0 NUL) (0 - 1) [0])
    as [later E].
  exists later. exact E.
Qed.

(** ** Dispatch on the command line *)

(** A line made of a verb, blanks and words calls the verb's handler with
    the first word after the verb; the words behind it are dropped. *)
Example dispatch_spaced_lines :
  forall os w,
    execute_command os "cat a.txt b.txt" w
    = do_cat os "a.txt" (with_filename "a.txt" w)
    /\ execute_command os "rmdir   old" w
       = Some (do_rmdir os "old" (with_filename "old" w))
    /\ execute_command os "mkdir new dropped" w
       = Some (do_mkdir os "new" (with_filename "new" w)).
Proof. intros os w. repeat split; reflexivity. Qed.

(** The line [catfoo] is one token and names no verb, yet [do_cat] is
    called on the file [foo]: the blank in the format "cat %s" also matches
    no blank at all, so the verb is not required to end where the first
    token ends. *)
Example glued_verb_is_dispatched :
  forall os w,
    spec_select "catfoo" = NoCall
    /\ execute_command os "catfoo" w = do_cat os "foo" (with_filename "foo" w).
Proof. intros os w. split; reflexivity. Qed.

(** A line that begins with white space runs no handler. *)
Example leading_blank_is_refused :
  forall os w,
    spec_select " cat x" = CallCat "x"
    /\ execute_command os " cat x" (with_filename "" w)
       = perform os " cat x" NoCall w.
Proof. intros os w. split; reflexivity. Qed.

Example delimited_samples :
  map delimited
    ["cat x"; "rmdir x y"; "ls"; "ls x"; "pwd"; "pwd x"; "foo bar"; ""]
  = [true; true; true; true; true; true; true; true]
  /\ map delimited ["catfoo"; "rmdir"; "lsx"; "rmx"; " cat x"]
     = [false; false; false; false; false].
Proof. split; reflexivity. Qed.

(** C2, counterexample: the lines [pwd] and [pwd x] have the same first
    token, a verb, and the parser of the specification dispatches both to
    the handler of [pwd]; [execute_command] compares the whole line with
    "pwd", so it runs [do_pwd] on the first line and rejects the second
    one as an unknown command. *)
Lemma pwd_with_argument_is_refused :
  first_token "pwd x" = first_token "pwd"
  /\ spec_select "pwd x" = CallPwd
  /\ (let w := with_filename "" (boot [] []) in
      option_map (fun '(r, w') => (r, stdout w', stderr w'))
        (execute_command os_plain "pwd" w)
      = Some (Returned 0, prompt "/tmp" ++ NL, "")
      /\ option_map (fun '(r, w') => (r, stdout w', stderr w'))
           (execute_command os_plain "pwd x" w)
         = Some (Returned (-1), "",
                 "myshell: pwd x: No such file or directory" ++ NL)
      /\ execute_command os_plain "pwd x" w
         <> perform os_plain "pwd x" (spec_select "pwd x") (boot [] [])).
Proof.
  repeat split. intros H. vm_compute in H. discriminate H.
Qed.

Lemma dispatch_cat :
  forall os w rest,
    word_end rest ->
    execute_command os ("cat" ++ rest) (with_filename "" w)
    = perform os ("cat" ++ rest) (registry_select ("cat" ++ rest)) w.
Proof.
  intros os w rest Hend. spec_side first_token_verb spec_parse_verb.
  unfold execute_command.
  hit scan_hit "cat" rest.
  destruct (skip_space rest) as [|d r'] eqn:Hr.
  - world_norm. change (EOF =? 1) with false. cbv iota.
    miss scan_miss "stat"; [reflexivity|].
    miss scan_miss "mkdir"; [reflexivity|].
    miss scan_miss "rmdir"; [reflexivity|].
    miss scan_miss "rm"; [reflexivity|].
    miss scan_miss "ls"; [reflexivity|].
    reflexivity.
  - reflexivity.
Qed.

Lemma dispatch_stat :
  forall os w rest,
    word_end rest ->
    execute_command os ("stat" ++ rest) (with_filename "" w)
    = perform os ("stat" ++ rest) (registry_select ("stat" ++ rest)) w.
Proof.
  intros os w rest Hend. spec_side first_token_verb spec_parse_verb.
  unfold execute_command.
  miss scan_miss "cat"; [reflexivity|].
  hit scan_hit "stat" rest.
  destruct (skip_space rest) as [|d r'] eqn:Hr.
  - world_norm. change (EOF =? 1) with false. cbv iota.
    miss scan_miss "mkdir"; [reflexivity|].
    miss scan_miss "rmdir"; [reflexivity|].
    miss scan_miss "rm"; [reflexivity|].
    miss scan_miss "ls"; [reflexivity|].
    reflexivity.
  - reflexivity.
Qed.

Lemma dispatch_mkdir :
  forall os w rest,
    word_end rest ->
    execute_command os ("mkdir" ++ rest) (with_filename "" w)
    = perform os ("mkdir" ++ rest) (registry_select ("mkdir" ++ rest)) w.
Proof.
  intros os w rest Hend. spec_side first_token_verb spec_parse_verb.
  unfold execute_command.
  miss scan_miss "cat"; [reflexivity|].
  miss scan_miss "stat"; [reflexivity|].
  hit scan_hit "mkdir" rest.
  destruct (skip_space rest) as [|d r'] eqn:Hr.
  - world_norm. change (EOF =? 1) with false. cbv iota.
    miss scan_miss "rmdir"; [reflexivity|].
    miss scan_miss "rm"; [reflexivity|].
    miss scan_miss "ls"; [reflexivity|].
    reflexivity.
  - reflexivity.
Qed.

Lemma rm_is_not_rmdir :
  forall rest, word_end rest -> starts_with "rmdir" ("rm" ++ rest) = false.
Proof.
  intros [|c r] Hend; [reflexivity|]. simpl in Hend. cbn [append starts_with].
  rewrite (space_is_not c "d" Hend eq_refl). reflexivity.
Qed.

Lemma dispatch_rm :
  forall os w rest,
    word_end rest ->
    execute_command os ("rm" ++ rest) (with_filename "" w)
    = perform os ("rm" ++ rest) (registry_select ("rm" ++ rest)) w.
Proof.
  intros os w rest Hend. spec_side first_token_verb spec_parse_verb.
  unfold execute_command.
  miss scan_miss "cat"; [reflexivity|].
  miss scan_miss "stat"; [reflexivity|].
  miss scan_miss "mkdir"; [reflexivity|].
  miss scan_miss "rmdir"; [apply rm_is_not_rmdir; exact Hend|].
  hit scan_hit "rm" rest.
  destruct (skip_space rest) as [|d r'] eqn:Hr.
  - world_norm. change (EOF =? 1) with false. cbv iota.
    miss scan_miss "ls"; [reflexivity|].
    reflexivity.
  - reflexivity.
Qed.

Lemma dispatch_rmdir :
  forall os w rest,
    word_end rest -> skip_space rest <> "" ->
    execute_command os ("rmdir" ++ rest) (with_filename "" w)
    = perform os ("rmdir" ++ rest) (registry_select ("rmdir" ++ rest)) w.
Proof.
  intros os w rest Hend Harg. spec_side first_token_verb spec_parse_verb.
  unfold execute_command.
  miss scan_miss "cat"; [reflexivity|].
  miss scan_miss "stat"; [reflexivity|].
  miss scan_miss "mkdir"; [reflexivity|].
  hit scan_hit "rmdir" rest.
  destruct (skip_space rest) as [|d r'] eqn:Hr; [contradiction|].
  reflexivity.
Qed.

Lemma dispatch_ls :
  forall os w rest,
    word_end rest -> (skip_space rest = "" -> rest = "") ->
    execute_command os ("ls" ++ rest) (with_filename "" w)
    = perform os ("ls" ++ rest) (registry_select ("ls" ++ rest)) w.
Proof.
  intros os w rest Hend Harg. spec_side first_token_verb spec_parse_verb.
  unfold execute_command.
  miss scan_miss "cat"; [reflexivity|].
  miss scan_miss "stat"; [reflexivity|].
  miss scan_miss "mkdir"; [reflexivity|].
  miss scan_miss "rmdir"; [reflexivity|].
  miss scan_miss "rm"; [reflexivity|].
  hit scan_hit "ls" rest.
  destruct (skip_space rest) as [|d r'] eqn:Hr.
  - rewrite (Harg eq_refl). reflexivity.
  - world_norm. change (1 =? 1) with true. cbn [orb].
    cbn [take_word]. rewrite (skip_space_head _ _ _ Hr).
    reflexivity.
Qed.

(** A line whose first token does not begin with the letters of a verb
    that takes an argument, and that is not [pwd], runs no handler. *)
Lemma no_call_exec :
  forall os w bytes,
    leading_space (cstring bytes) = false ->
    verb_letters (take_word (cstring bytes)) = false ->
    cstring bytes <> "pwd" ->
    execute_command os (cstring bytes) (with_filename "" w)
    = perform os (cstring bytes) NoCall w.
Proof.
  intros os w bytes Hlead Hverb Hpwd.
  set (line := cstring bytes) in *.
  unfold verb_letters in Hverb.
  repeat rewrite starts_with_take_word in Hverb by reflexivity.
  apply orb_false_elim in Hverb. destruct Hverb as [Hverb Hls].
  apply orb_false_elim in Hverb. destruct Hverb as [Hverb Hrm].
  apply orb_false_elim in Hverb. destruct Hverb as [Hverb Hmkdir].
  apply orb_false_elim in Hverb. destruct Hverb as [Hcat Hstat].
  unfold execute_command.
  miss scan_miss "cat"; [exact Hcat|].
  miss scan_miss "stat"; [exact Hstat|].
  miss scan_miss "mkdir"; [exact Hmkdir|].
  miss scan_miss "rmdir";
    [apply (starts_with_longer "rm" "dir"); exact Hrm|].
  miss scan_miss "rm"; [exact Hrm|].
  miss scan_miss "ls"; [exact Hls|].
  destruct (strncmp line "ls" BUFFER_SIZE =? 0) eqn:Els.
  { apply strncmp_literal in Els;
      [|simpl; unfold BUFFER_SIZE; lia|no_nul_literal].
    fold line in Els. rewrite Els in Hls. discriminate. }
  destruct (strncmp line "pwd" BUFFER_SIZE =? 0) eqn:Epwd.
  { apply strncmp_literal in Epwd;
      [|simpl; unfold BUFFER_SIZE; lia|no_nul_literal].
    fold line in Epwd. contradiction. }
  reflexivity.
Qed.

Lemma no_call_spec :
  forall line,
    leading_space line = false ->
    verb_letters (take_word line) = false ->
    take_word line <> "pwd" ->
    spec_select line = NoCall.
Proof.
  intros line Hlead Hverb Hpwd.
  assert (Htok : forall v, starts_with v (take_word line) = false ->
                           (take_word line =? v)%string = false).
  { intros v Hs. apply String.eqb_neq. intros E.
    rewrite E, starts_with_refl in Hs. discriminate. }
  unfold verb_letters in Hverb.
  apply orb_false_elim in Hverb. destruct Hverb as [Hverb Hls].
  apply orb_false_elim in Hverb. destruct Hverb as [Hverb Hrm].
  apply orb_false_elim in Hverb. destruct Hverb as [Hverb Hmkdir].
  apply orb_false_elim in Hverb. destruct Hverb as [Hcat Hstat].
  unfold spec_select, spec_parse, first_token.
  rewrite (skip_space_word line Hlead).
  destruct line as [|c l] eqn:Hline; [reflexivity|]. rewrite <- Hline in *.
  rewrite (Htok "cat"), (Htok "stat"), (Htok "mkdir") by assumption.
  rewrite (Htok "rmdir")
    by (apply (starts_with_longer "rm" "dir"); exact Hrm).
  rewrite (Htok "rm"), (Htok "ls") by assumption.
  apply String.eqb_neq in Hpwd. rewrite Hpwd. reflexivity.
Qed.

Lemma line_split :
  forall line v,
    take_word line = v -> line = v ++ drop_word line.
Proof. intros line v <-. symmetry. apply take_drop. Qed.

(** C2, amended: on a delimited line, [execute_command] makes the call
    that the parser and the registry of the specification select, [pwd]
    being a command only as the whole line: the verb is the first token,
    the argument the second one, further tokens are ignored, and a first
    token that is no verb (or a missing required argument) runs no
    handler. *)
Theorem delimited_line_dispatch :
  forall os w bytes,
    delimited (cstring bytes) = true ->
    execute_command os (cstring bytes) (with_filename "" w)
    = perform os (cstring bytes) (registry_select (cstring bytes)) w.
Proof.
  intros os w bytes H.
  set (line := cstring bytes) in *.
  unfold delimited in H. apply andb_prop in H. destruct H as [Hlead H].
  apply negb_true_iff in Hlead.
  pose proof (drop_word_end line) as Hend.
  assert (Harg : forall t, second_token line = Some t ->
                           skip_space (drop_word line) <> "").
  { intros t Ht E. unfold second_token in Ht.
    rewrite (skip_space_word line Hlead), E in Ht. discriminate. }
  destruct (take_word line =? "cat")%string eqn:Ecat.
  { apply String.eqb_eq, line_split in Ecat. rewrite Ecat.
    apply dispatch_cat. exact Hend. }
  destruct (take_word line =? "stat")%string eqn:Estat.
  { apply String.eqb_eq, line_split in Estat. rewrite Estat.
    apply dispatch_stat. exact Hend. }
  destruct (take_word line =? "mkdir")%string eqn:Emkdir.
  { apply String.eqb_eq, line_split in Emkdir. rewrite Emkdir.
    apply dispatch_mkdir. exact Hend. }
  destruct (take_word line =? "rm")%string eqn:Erm.
  { apply String.eqb_eq, line_split in Erm. rewrite Erm.
    apply dispatch_rm. exact Hend. }
  destruct (take_word line =? "pwd")%string eqn:Epwd.
  { apply String.eqb_eq in Epwd.
    destruct (String.eqb_spec line "pwd") as [Ewhole|Emore].
    - rewrite Ewhole. reflexivity.
    - unfold registry_select, first_token.
      rewrite (skip_space_word line Hlead), Epwd.
      apply String.eqb_neq in Emore. rewrite Emore.
      apply String.eqb_neq in Emore.
      apply no_call_exec; [exact Hlead| |exact Emore].
      fold line. rewrite Epwd. reflexivity. }
  cbn [orb] in H.
  assert (Hreg : registry_select line = spec_select line).
  { unfold registry_select, first_token.
    rewrite (skip_space_word line Hlead), Epwd. reflexivity. }
  destruct (take_word line =? "rmdir")%string eqn:Ermdir.
  { destruct (second_token line) as [t|] eqn:Ht; [|discriminate].
    apply String.eqb_eq, line_split in Ermdir. rewrite Ermdir.
    apply dispatch_rmdir; [exact Hend|]. exact (Harg t eq_refl). }
  destruct (take_word line =? "ls")%string eqn:Els.
  { apply String.eqb_eq in Els. pose proof (line_split _ _ Els) as Esplit.
    rewrite Esplit. apply dispatch_ls; [exact Hend|].
    intros Hnone. destruct (second_token line) as [t|] eqn:Ht.
    - exfalso. exact (Harg t eq_refl Hnone).
    - apply String.eqb_eq in H. rewrite H. reflexivity. }
  apply negb_true_iff in H. apply String.eqb_neq in Epwd.
  rewrite Hreg, (no_call_spec line Hlead H Epwd).
  apply no_call_exec; [exact Hlead|exact H|].
  intros E. apply Epwd. fold line in E. rewrite E. reflexivity.
Qed.

Lemma delimited_line_dispatch_witness :
  execute_command os_plain (cstring (list_ascii_of_string "cat a.txt b.txt"))
    (with_filename "" (boot [] []))
  = perform os_plain "cat a.txt b.txt" (CallCat "a.txt") (boot [] []).
Proof.
  apply (delimited_line_dispatch os_plain (boot [] [])
           (list_ascii_of_string "cat a.txt b.txt")).
  reflexivity.
Defined.

(** A verb that needs an argument and comes alone fails without calling a
    handler: one line on stderr, nothing else changes.  This holds for
    [cat], [stat], [mkdir] and [rm]. *)
Lemma lone_verb_fails :
  forall os w verb,
    In verb ["cat"; "stat"; "mkdir"; "rm"] ->
    execute_command os verb w
    = Some (Returned (-1),
            put_err ("myshell: " ++ verb ++ ": No such file or directory"
                     ++ NL) w).
Proof.
  intros os w verb Hin. destruct w.
  simpl in Hin.
  destruct Hin as [<-|[<-|[<-|[<-|[]]]]]; reflexivity.
Qed.

(** C5: the line [rmdir] without argument does not fail: after
    "rmdir %s" finds no argument, "rm %s" matches the same line with
    [dir] as argument, and [do_rm] unlinks the file [dir].  When that
    [unlink] succeeds the command reports success and the file system has
    changed. *)
Theorem lone_rmdir_unlinks_dir :
  (forall os w,
     execute_command os "rmdir" w
     = Some (do_rm os "dir" (with_filename "dir" w)))
  /\ (let w := boot [] [] in
      option_map (fun '(r, w') => (r, fs_log w', stderr w'))
        (execute_command os_plain "rmdir" w)
      = Some (Returned 0, [Unlink "dir"], "")).
Proof. split; [intros os w|]; reflexivity. Qed.

(** ** Diagnostics *)

(** The handlers other than [do_stat] report a failed system call on
    stderr, with the text of [strerror], and leave stdout alone. *)
Lemma failures_go_to_stderr :
  forall os w path e,
    (os_mkdir os path 509 = Some e ->
     do_mkdir os path w
     = (Returned (-1),
        put_err ("Error creating directory " ++ path ++ " "
                 ++ strerror os (Zpos e) ++ NL) (with_errno (Zpos e) w)))
    /\ (os_rmdir os path = Some e ->
        do_rmdir os path w
        = (Returned (-1),
           put_err ("Error removing directory " ++ path ++ " "
                    ++ strerror os (Zpos e) ++ NL) (with_errno (Zpos e) w)))
    /\ (os_unlink os path = Some e ->
        do_rm os path w
        = (Returned (-1),
           put_err ("Error removing file " ++ path ++ " "
                    ++ strerror os (Zpos e) ++ NL) (with_errno (Zpos e) w))).
Proof.
  intros os w path e. repeat split; intros H.
  - unfold do_mkdir, sys_mkdir.
    change (Z.lor (Z.lor (Z.lor S_IRWXU S_IRWXG) S_IROTH) S_IXOTH) with 509.
    rewrite H. reflexivity.
  - unfold do_rmdir, sys_rmdir. rewrite H. reflexivity.
  - unfold do_rm, sys_unlink. rewrite H. reflexivity.
Qed.

Lemma do_stat_failure :
  forall os w path e,
    os_stat os path = inl e ->
    do_stat os path w
    = (Returned (-1),
       put_out ("Error outputting stat: " ++ path ++ ", "
                ++ strerror os (Zpos e) ++ NL)
         (with_errno (Zpos e) (with_errno (Zpos e) w))).
Proof.
  intros os w path e H. unfold do_stat, sys_stat. rewrite H. reflexivity.
Qed.

(** C4: [stat] on a path that does not exist.  The report of the failure
    is written to stdout; stderr receives nothing. *)
Theorem stat_failure_goes_to_stdout :
  let w := boot [] [] in
  option_map (fun '(r, w') => (r, stdout w', stderr w'))
    (execute_command os_plain "stat missing" w)
  = Some (Returned (-1),
          "Error outputting stat: missing, No such file or directory" ++ NL,
          "").
Proof. reflexivity. Qed.

(** ** Showing a file *)

Lemma sys_close_silent :
  forall os fd w,
    stdout (snd (sys_close os fd w)) = stdout w
    /\ stderr (snd (sys_close os fd w)) = stderr w.
Proof.
  intros os fd w. unfold sys_close.
  destruct (is_open fd w); [destruct (os_close os fd)|]; split; reflexivity.
Qed.

(** When the first [read] fails, [do_cat] returns from inside the loop and
    the descriptor stays open. *)
Lemma do_cat_read_error_leaks :
  forall os w path fd e later,
    os_open os path = inr (mkFile fd (ReadErr e :: later)) ->
    exists w',
      do_cat os path w = Some (Returned (-1), w')
      /\ fds w' = Z.of_N fd :: fds w.
Proof.
  intros os w path fd e later H.
  unfold do_cat, sys_open. rewrite H. cbn [f_fd f_reads].
  destruct (Z.ltb_spec (Z.of_N fd) 0) as [Hneg|_]; [lia|].
  cbn [cat_loop]. eexists. split; reflexivity.
Qed.

(** C6: [cat] on a directory.  [open] succeeds with descriptor 3, [read]
    fails with EISDIR, and [do_cat] returns -1 with descriptor 3 still
    open: the return inside the loop skips both calls of [close]. *)
Theorem cat_read_error_keeps_descriptor_open :
  let w := boot [] [] in
  option_map (fun '(r, w') => (r, fds w', stderr w'))
    (do_cat os_cat_directory "d" w)
  = Some (Returned (-1), [3],
          "Error reading data from d: Is a directory" ++ NL).
Proof. reflexivity. Qed.

(** On the other two paths nothing stays open. *)
Example cat_other_paths_release :
  let w := boot [] (repeat NUL (BUFFER_SIZE * (BUFFER_SIZE - 2))) in
  option_map (fun '(r, w') => (r, fds w')) (do_cat os_plain "nofile" w)
  = Some (Returned (-1), [])
  /\ option_map (fun '(r, w') => (r, fds w')) (do_cat os_one_byte_file "f" w)
     = Some (Indeterminate, []).
Proof. split; vm_compute; reflexivity. Qed.

Lemma length_append :
  forall a b : string,
    String.length (a ++ b) = (String.length a + String.length b)%nat.
Proof.
  induction a as [|c a IH]; intros b; simpl; [|rewrite IH]; reflexivity.
Qed.

Lemma length_string_of_list :
  forall l, String.length (string_of_list_ascii l) = List.length l.
Proof.
  induction l as [|c l IH]; simpl; [|rewrite IH]; reflexivity.
Qed.

(** [do_cat] on a file that one [read] delivers whole: either the bytes
    behind the array are not all mapped, or stdout grows by
    [BUFFER_SIZE * (BUFFER_SIZE - 1)] bytes and the newline, whatever the
    size of the file, and no value is returned. *)
Lemma do_cat_writes_fixed_size :
  forall os path w fd c data,
    os_open os path = inr (mkFile fd [ReadOk (c :: data)]) ->
    match do_cat os path w with
    | None => True
    | Some (r, w') =>
        r = Indeterminate
        /\ String.length (stdout w')
           = (String.length (stdout w) + BUFFER_SIZE * (BUFFER_SIZE - 1)
              + 1)%nat
    end.
Proof.
  intros os path w fd c data Hopen.
  unfold do_cat, sys_open. rewrite Hopen. cbn [f_fd f_reads].
  destruct (Z.ltb_spec (Z.of_N fd) 0) as [Hneg|_]; [lia|].
  cbn [cat_loop].
  assert (Hchunk : firstn BUFFER_SIZE (c :: data)
                   = c :: firstn (BUFFER_SIZE - 1) data) by reflexivity.
  rewrite Hchunk. unfold fwrite_buffer.
  match goal with
  | |- context [(List.length ?m <? ?t)%nat] =>
      destruct (Nat.ltb_spec (List.length m) t) as [Hshort|Hlong];
      [exact I|]
  end.
  set (out := string_of_list_ascii _).
  assert (Hout : String.length out = (BUFFER_SIZE * (BUFFER_SIZE - 1))%nat).
  { subst out. rewrite length_string_of_list, length_firstn. lia. }
  match goal with
  | |- context [sys_close os ?fd0 ?w0] =>
      pose proof (sys_close_silent os fd0 w0) as [Ho _];
      destruct (sys_close os fd0 w0) as [c1 w1]
  end.
  cbn [snd] in Ho.
  match goal with
  | |- context [sys_close os ?fd0 ?w0] =>
      pose proof (sys_close_silent os fd0 w0) as [Ho2 _];
      destruct (sys_close os fd0 w0) as [c2 w2]
  end.
  cbn [snd] in Ho2. split; [reflexivity|].
  rewrite Ho2.
  replace (stdout (if c1 <? 0 then put_err _ w1 else w1)) with (stdout w1)
    by (destruct (c1 <? 0); reflexivity).
  rewrite Ho. cbn [stdout put_out with_buffer with_fds].
  rewrite !length_append, Hout. reflexivity.
Qed.

(** C1: [cat] on a file that holds the single byte x, called while
    [buffer] holds the command line.  Each turn of the loop writes
    [BUFFER_SIZE * (BUFFER_SIZE - 1)] = 65280 bytes starting at [buffer],
    not the bytes read: stdout receives x, the stale rest of the array
    (here the end "at f" of the command line), the 65024 bytes that follow
    the array in memory, and the final newline, 65281 bytes in all.  The
    function then falls off its end without a [return] statement, so no
    value is returned. *)
Theorem cat_one_byte_writes_whole_memory :
  let w0 := boot [] (repeat NUL (BUFFER_SIZE * (BUFFER_SIZE - 2))) in
  let w := with_buffer (store (list_ascii_of_string "cat f") (buffer w0)) w0
  in
  option_map
    (fun '(r, w') =>
       (r, N.of_nat (String.length (stdout w')), substring 0 5 (stdout w')))
    (do_cat os_one_byte_file "f" w)
  = Some (Indeterminate, 65281%N, "xat f").
Proof. vm_compute. reflexivity. Qed.

(** With fewer than 65024 bytes mapped behind the array the same call
    reads unmapped memory. *)
Example cat_one_byte_faults :
  do_cat os_one_byte_file "f" (boot [] []) = None.
Proof. vm_compute. reflexivity. Qed.

(** ** Listing a directory *)



(** The stream over a directory with one regular file is exhausted without
    any error of [readdir], and [do_ls] returns -1 when closing the stream
    fails. *)
Lemma ls_fails_after_clean_exhaustion :
  os_opendir os_closedir_fails (ls_target "") = inr (one_entry_dir None)
  /\ ds_end (one_entry_dir None) = None
  /\ (let (r, w') := do_ls os_closedir_fails "" (boot [] []) in
      (r, stderr w'))
     = (Returned (-1),
        "error closing directory . :  Input/output error" ++ NL).
Proof. repeat split. Qed.

(** C3: [ls] on a directory whose one entry, "a", is gone when [lstat]
    looks at it.  [lstat] fails with ENOENT and the entry is skipped with a
    warning; [readdir] then reports the end of the stream without any
    error, and closing the stream succeeds.  [do_ls] still returns -1 and
    reports an error of reading the directory: the error number [lstat]
    left in [errno] is still there at the test that follows the loop, and
    is taken for an error of [readdir]. *)
Theorem ls_skipped_entry_fails_listing :
  os_opendir os_entry_vanishes (ls_target "") = inr (one_entry_dir None)
  /\ ds_entries (one_entry_dir None) = ["a"]
  /\ os_lstat os_entry_vanishes "./a" = inl ENOENT
  /\ ds_end (one_entry_dir None) = None
  /\ os_closedir os_entry_vanishes (ds_id (one_entry_dir None)) = None
  /\ (let (r, w') := do_ls os_entry_vanishes "" (boot [] []) in
      (r, stdout w', stderr w'))
     = (Returned (-1), "",
        "lstat failed for './a': No such file or directory" ++ NL
        ++ "Error reading directory . :  No such file or directory" ++ NL).
Proof. repeat split. Qed.



(** ** Changing directory *)

(** [main] calls [do_cd] with an empty argument exactly on the line [cd]:
    [filename] was cleared and "cd %s" stored nothing. *)
Example cd_alone_passes_empty_argument :
  forall w,
    is_cd_line "cd" = true
    /\ scan "cd" "cd %s" (with_filename "" w) = (EOF, with_filename "" w).
Proof. intros w. split; reflexivity. Qed.

Example cd_alone_reaches_home :
  match main_step os_plain (boot [NUL] []) (typed "cd") with
  | Running w' rest => Some (cwd w', rest)
  | _ => None
  end = Some ("/home/user", []).
Proof. reflexivity. Qed.

(** The tests of [main]: a line made of [cd] and what follows goes to
    [do_cd] with the second token as argument (nothing when [cd] is the
    whole line); a line that does not begin with "cd" does not; and [exit]
    is recognised exactly as the whole line. *)
Lemma cd_line_test :
  forall rest,
    word_end rest -> (skip_space rest = "" -> rest = "") ->
    is_cd_line ("cd" ++ rest) = true
    /\ snd (sscanf ("cd" ++ rest) "cd %s" "")
       = match second_token ("cd" ++ rest) with
         | Some arg => arg
         | None => ""
         end.
Proof.
  intros rest Hend Hwhole.
  pose proof (spec_parse_verb "c" "d" rest eq_refl Hend) as Hparse.
  cbn [append spec_parse] in Hparse. injection Hparse as _ Hsecond.
  unfold is_cd_line, sscanf. cbn [append]. rewrite Hsecond.
  pose proof (sscanf_hit "cd" rest "" 0 eq_refl) as E.
  cbn [append] in E. rewrite E, sscanf_tail. clear E.
  destruct (skip_space rest); [|split; reflexivity].
  rewrite (Hwhole eq_refl). split; reflexivity.
Qed.

Lemma other_line_is_not_cd :
  forall bytes,
    starts_with "cd" (cstring bytes) = false ->
    is_cd_line (cstring bytes) = false.
Proof.
  intros bytes Hcd. unfold is_cd_line, sscanf.
  destruct (sscanf_miss "cd" (cstring bytes) "" eq_refl Hcd) as (n & E & Hn).
  cbn [append] in E. rewrite E. cbn [fst]. rewrite Hn.
  destruct (strncmp (cstring bytes) "cd" BUFFER_SIZE =? 0) eqn:Ecd;
    [|reflexivity].
  apply strncmp_literal in Ecd;
    [|simpl; unfold BUFFER_SIZE; lia|no_nul_literal].
  rewrite Ecd in Hcd. discriminate.
Qed.

Lemma exit_line_test :
  forall bytes,
    (strncmp (cstring bytes) "exit" BUFFER_SIZE =? 0) = true
    <-> cstring bytes = "exit".
Proof.
  intros bytes. split; intros H.
  - apply strncmp_literal in H;
      [exact H|simpl; unfold BUFFER_SIZE; lia|no_nul_literal].
  - rewrite H. reflexivity.
Qed.

(** C7: [cd] without argument when the path of the home directory has 308
    bytes.  [chdir] on the home directory would succeed, but
    [strncpy(dirname, p->pw_dir, MAX_PATH_LENGTH)] fills the array with the
    first 256 bytes of the path and no terminator, so [chdir] is called on
    these 256 bytes followed by whatever string lies behind the array: the
    home directory is reached only if these bytes happen to continue its
    path.  At start-up a NUL follows, [chdir] fails, [do_cd] returns -1 and
    the working directory is still /tmp. *)
Theorem cd_long_home_misses_home :
  getpwuid_dir os_nested_home = Some nested_home
  /\ String.length nested_home = 308%nat
  /\ os_chdir os_nested_home "/tmp" nested_home = inr nested_home
  /\ (forall w,
        do_cd os_nested_home "" w
        = Some
            (let target :=
               substring 0 MAX_PATH_LENGTH nested_home ++ past_filename w in
             if (target =? nested_home)%string
             then (Returned 0, with_cwd target (with_filename target w))
             else (Returned (-1),
                   put_err ("cd: No such file or directory" ++ NL)
                     (with_errno 2 (with_filename target w)))))
  /\ option_map (fun '(r, w') => (r, cwd w', stderr w'))
       (do_cd os_nested_home "" (boot [] []))
     = Some (Returned (-1), "/tmp", "cd: No such file or directory" ++ NL).
Proof.
  split; [reflexivity|]. split; [reflexivity|]. split; [reflexivity|].
  split; [|reflexivity].
  intros w. unfold do_cd.
  change (getpwuid_dir os_nested_home) with (Some nested_home).
  change (strnlen "" MAX_PATH_LENGTH =? 0)%nat with true. cbv iota.
  unfold strncpy_string.
  change (String.length nested_home <? MAX_PATH_LENGTH)%nat with false.
  cbv iota zeta. unfold sys_chdir.
  change (os_chdir os_nested_home) with
    (fun (_ : string) path => if (path =? nested_home)%string
                              then @inr positive string path else inl ENOENT).
  cbv beta.
  destruct (_ =? nested_home)%string; reflexivity.
Qed.

(** Where [chdir] succeeds on every path, the same call on a long home
    path changes to the directory named by its first 256 bytes. *)
Example cd_long_home_goes_elsewhere :
  getpwuid_dir os_long_home = Some long_home
  /\ os_chdir os_long_home "/tmp" long_home = inr long_home
  /\ option_map
       (fun '(r, w') =>
          (r, (cwd w' =? long_home)%string, String.length (cwd w')))
       (do_cd os_long_home "" (boot [] []))
     = Some (Returned 0, false, 256%nat).
Proof. repeat split. Qed.

(** Without an entry for the user, [getpwuid] returns NULL and [do_cd]
    reads through it. *)
Example cd_without_passwd_entry_faults :
  do_cd (with_home None os_plain) "" (boot [] []) = None.
Proof. reflexivity. Qed.

(** X30: when the user database has an entry for the user whose home
    directory path is shorter than [MAX_PATH_LENGTH] bytes, [do_cd]
    with an empty argument calls [chdir] on that home directory: on success
    it returns 0 and the working directory is the one [chdir] reached from
    the home path; on failure it returns -1, reports the error on stderr
    and leaves the working directory as it was. *)
Theorem cd_empty_argument_goes_home :
  forall os w home,
    getpwuid_dir os = Some home ->
    (String.length home < MAX_PATH_LENGTH)%nat ->
    do_cd os "" w
    = Some
        match os_chdir os (cwd w) home with
        | inr reached =>
            (Returned 0, with_cwd reached (with_filename home w))
        | inl e =>
            (Returned (-1),
             put_err ("cd: " ++ strerror os (Zpos e) ++ NL)
               (with_errno (Zpos e) (with_filename home w)))
        end.
Proof.
  intros os w home Hpw Hlen. unfold do_cd.
  cbn [strnlen String.length Nat.min Nat.eqb]. rewrite Hpw.
  unfold strncpy_string.
  apply Nat.ltb_lt in Hlen. rewrite Hlen.
  unfold sys_chdir. cbn [cwd with_filename].
  destruct (os_chdir os (cwd w) home) as [e|reached]; reflexivity.
Qed.

Lemma cd_empty_argument_goes_home_witness :
  do_cd os_plain "" (boot [] [])
  = Some (Returned 0,
          with_cwd "/home/user" (with_filename "/home/user" (boot [] []))).
Proof.
  apply (cd_empty_argument_goes_home os_plain (boot [] []) "/home/user").
  - reflexivity.
  - simpl. unfold MAX_PATH_LENGTH. lia.
Defined.

(** ** Reports of failures *)

Lemma append_nil_r : forall s : string, s ++ "" = s.
Proof. induction s as [|c s IH]; simpl; [|rewrite IH]; reflexivity. Qed.

Lemma append_assoc_string :
  forall a b c : string, (a ++ b) ++ c = a ++ (b ++ c).
Proof.
  induction a as [|x a IH]; intros b c; simpl; [|rewrite IH]; reflexivity.
Qed.

Lemma append_nonempty_r :
  forall a b : string, b <> "" -> a ++ b <> "".
Proof.
  intros [|x a] b Hb; simpl; [exact Hb|discriminate].
Qed.

Lemma extends_refl : forall w, extends w w "" "".
Proof. intros w. split; symmetry; apply append_nil_r. Qed.

Lemma extends_trans :
  forall w1 w2 w3 o1 e1 o2 e2,
    extends w1 w2 o1 e1 -> extends w2 w3 o2 e2 ->
    extends w1 w3 (o1 ++ o2) (e1 ++ e2).
Proof.
  intros w1 w2 w3 o1 e1 o2 e2 [Ho1 He1] [Ho2 He2]. split.
  - rewrite Ho2, Ho1. apply append_assoc_string.
  - rewrite He2, He1. apply append_assoc_string.
Qed.

Lemma extends_put_err :
  forall w w' out err msg,
    extends w w' out err -> extends w (put_err msg w') out (err ++ msg).
Proof.
  intros w w' out err msg [Ho He]. split; cbn [stdout stderr put_err].
  - exact Ho.
  - rewrite He. apply append_assoc_string.
Qed.

Lemma extends_put_out :
  forall w w' out err msg,
    extends w w' out err -> extends w (put_out msg w') (out ++ msg) err.
Proof.
  intros w w' out err msg [Ho He]. split; cbn [stdout stderr put_out].
  - rewrite Ho. apply append_assoc_string.
  - exact He.
Qed.

Lemma reported_err :
  forall w w' out err msg,
    extends w w' out err -> msg <> "" -> reported w (put_err msg w').
Proof.
  intros w w' out err msg H Hmsg. exists out, (err ++ msg). split.
  - apply extends_put_err. exact H.
  - apply append_nonempty_r, append_nonempty_r. exact Hmsg.
Qed.

Lemma reported_out :
  forall w w' out err msg,
    extends w w' out err -> msg <> "" -> reported w (put_out msg w').
Proof.
  intros w w' out err msg H Hmsg. exists (out ++ msg), err. split.
  - apply extends_put_out. exact H.
  - rewrite append_assoc_string. apply append_nonempty_r.
    destruct msg; [contradiction|discriminate].
Qed.

(** A change of the state that writes nothing. *)
Lemma extends_silent :
  forall w w' w'' out err,
    extends w w' out err ->
    stdout w'' = stdout w' -> stderr w'' = stderr w' ->
    extends w w'' out err.
Proof.
  intros w w' w'' out err [Ho He] Eo Ee. split; congruence.
Qed.

Lemma reported_silent :
  forall w w' w'',
    reported w w' ->
    stdout w'' = stdout w' -> stderr w'' = stderr w' ->
    reported w w''.
Proof.
  intros w w' w'' (out & err & H & Hne) Eo Ee.
  exists out, err. split; [|exact Hne].
  exact (extends_silent _ _ _ _ _ H Eo Ee).
Qed.

Lemma ls_entry_extends :
  forall os dir d_name w, exists out err,
    extends w (ls_entry os dir d_name w) out err.
Proof.
  intros os dir d_name w. unfold ls_entry, sys_lstat.
  destruct (PATH_MAX <=? _)%nat.
  - eexists _, _. apply extends_put_err, extends_refl.
  - destruct (os_lstat os _).
    + eexists _, _. apply extends_put_err.
      apply (extends_silent w w); [apply extends_refl| |]; reflexivity.
    + eexists _, _. apply extends_put_out, extends_refl.
Qed.

Lemma ls_loop_extends :
  forall os dir entries w, exists out err,
    extends w (ls_loop os dir entries w) out err.
Proof.
  intros os dir entries. unfold ls_loop.
  induction entries as [|d_name later IH]; intros w; simpl.
  - eexists _, _. apply extends_refl.
  - destruct (ls_entry_extends os dir d_name w) as (o1 & e1 & H1).
    destruct (IH (ls_entry os dir d_name w)) as (o2 & e2 & H2).
    eexists _, _. exact (extends_trans _ _ _ _ _ _ _ H1 H2).
Qed.

Lemma do_ls_reports :
  forall os dirname w w',
    do_ls os dirname w = (Returned (-1), w') -> reported w w'.
Proof.
  intros os dirname w w' H. unfold do_ls in H.
  destruct (os_opendir os _) as [e|d].
  - inversion H. eapply reported_err; [|message].
    apply (extends_silent w w); [apply extends_refl| |]; reflexivity.
  - set (w3 := ls_loop os _ (ds_entries d) _) in H.
    assert (H3 : exists out err, extends w w3 out err).
    { destruct (ls_loop_extends os (ls_target dirname) (ds_entries d)
                  (with_errno 0
                     (with_fds (ds_id d :: fds w)
                        (with_dirs (ds_id d :: dirs w) w))))
        as (out & err & Hx).
      exists out, err. exact Hx. }
    destruct H3 as (out & err & H3).
    unfold sys_closedir in H.
    destruct (ds_end d); destruct (negb _);
      destruct (os_closedir os (ds_id d)); cbn [fail negb Z.eqb] in H;
      inversion H;
      try (eapply reported_silent;
           [eapply reported_err; [exact H3|message]| |]; reflexivity);
      try (eapply reported_err; [|message];
           eapply extends_silent; [exact H3| |]; reflexivity).
Qed.

Lemma fresh_report_err :
  forall w w0 msg,
    stdout w0 = stdout w -> stderr w0 = stderr w -> msg <> "" ->
    reported w (put_err msg w0).
Proof.
  intros w w0 msg Ho He Hmsg.
  eapply reported_err; [|exact Hmsg].
  apply (extends_silent w w); [apply extends_refl| |]; assumption.
Qed.

Lemma do_mkdir_reports :
  forall os path w w',
    do_mkdir os path w = (Returned (-1), w') -> reported w w'.
Proof.
  intros os path w w' H. unfold do_mkdir, sys_mkdir in H.
  destruct (os_mkdir os path _); inversion H.
  apply fresh_report_err; [reflexivity|reflexivity|message].
Qed.

Lemma do_rmdir_reports :
  forall os path w w',
    do_rmdir os path w = (Returned (-1), w') -> reported w w'.
Proof.
  intros os path w w' H. unfold do_rmdir, sys_rmdir in H.
  destruct (os_rmdir os path); inversion H.
  apply fresh_report_err; [reflexivity|reflexivity|message].
Qed.

Lemma do_rm_reports :
  forall os path w w',
    do_rm os path w = (Returned (-1), w') -> reported w w'.
Proof.
  intros os path w w' H. unfold do_rm, sys_unlink in H.
  destruct (os_unlink os path); inversion H.
  apply fresh_report_err; [reflexivity|reflexivity|message].
Qed.

Lemma do_pwd_reports :
  forall os w w',
    do_pwd os w = (Returned (-1), w') -> reported w w'.
Proof.
  intros os w w' H. unfold do_pwd, sys_getcwd in H.
  destruct (os_getcwd os).
  - inversion H. apply fresh_report_err; [reflexivity|reflexivity|message].
  - destruct (MAX_PATH_LENGTH <=? String.length (cwd w))%nat; inversion H.
    apply fresh_report_err; [reflexivity|reflexivity|message].
Qed.

Lemma do_stat_reports :
  forall os path w w',
    do_stat os path w = (Returned (-1), w') -> reported w w'.
Proof.
  intros os path w w' H. unfold do_stat, sys_stat in H.
  destruct (os_stat os path); inversion H.
  eapply reported_out; [|message].
  apply (extends_silent w w); [apply extends_refl| |]; reflexivity.
Qed.

Lemma do_cd_reports :
  forall os dirname w w',
    do_cd os dirname w = Some (Returned (-1), w') -> reported w w'.
Proof.
  intros os dirname w w' H. unfold do_cd, sys_chdir in H.
  destruct (if (strnlen dirname MAX_PATH_LENGTH =? 0)%nat then _ else _)
    as [target|]; [|discriminate].
  cbn [cwd with_filename] in H.
  destruct (os_chdir os (cwd w) target); inversion H.
  apply fresh_report_err; [reflexivity|reflexivity|message].
Qed.

Lemma cat_loop_extends :
  forall os path reads w r w',
    cat_loop os path reads w = Some (r, w') ->
    exists out err,
      extends w w' out err /\ (forall v, r = Some v -> err <> "").
Proof.
  intros os path reads.
  induction reads as [|[e|data] later IH]; intros w r w' H;
    cbn [cat_loop] in H.
  - inversion H. eexists _, _. split.
    + apply extends_put_out, extends_refl.
    + discriminate.
  - inversion H. eexists _, _. split.
    + apply extends_put_err.
      apply (extends_silent w w); [apply extends_refl| |]; reflexivity.
    + intros _ _. message.
  - destruct (firstn BUFFER_SIZE data) as [|c chunk].
    + inversion H. eexists _, _. split.
      * apply extends_put_out, extends_refl.
      * discriminate.
    + unfold fwrite_buffer in H.
      destruct (List.length _ <? _)%nat; [discriminate|].
      destruct (IH _ _ _ H) as (out & err & Hx & Hv).
      match type of Hx with
      | extends (put_out ?s ?w1) _ _ _ =>
          assert (H1 : extends w (put_out s w1) s "")
            by (apply (extends_put_out w w1 "" "" s);
                apply (extends_silent w w);
                [apply extends_refl|reflexivity|reflexivity]);
          exists (s ++ out), err
      end.
      split; [|exact Hv].
      exact (extends_trans _ _ _ _ _ _ _ H1 Hx).
Qed.

Lemma do_cat_reports :
  forall os path w w',
    do_cat os path w = Some (Returned (-1), w') -> reported w w'.
Proof.
  intros os path w w' H. unfold do_cat, sys_open in H.
  destruct (os_open os path) as [e|f].
  - change (-1 <? 0) with true in H. cbv iota in H.
    close_step sys_close_silent H. destruct Hclose as [Ho He].
    inversion H; subst.
    eapply reported_silent; [|exact Ho|exact He].
    apply fresh_report_err; [reflexivity|reflexivity|message].
  - destruct (Z.of_N (f_fd f) <? 0).
    + close_step sys_close_silent H. destruct Hclose as [Ho He].
      inversion H; subst.
      eapply reported_silent; [|exact Ho|exact He].
      apply fresh_report_err; [reflexivity|reflexivity|message].
    + destruct (cat_loop os path (f_reads f) _) as [[[v|] w2]|] eqn:Hloop;
        [| |discriminate].
      * inversion H; subst.
        destruct (cat_loop_extends _ _ _ _ _ _ Hloop) as (out & err & Hx & Hv).
        exists out, err. split.
        -- apply (extends_silent _ _ _ _ _ Hx); reflexivity.
        -- apply append_nonempty_r. apply (Hv (-1)). reflexivity.
      * close_step sys_close_silent H. destruct (c <? 0);
          close_step sys_close_silent H; discriminate.
Qed.

Lemma scan_silent :
  forall buf fmt w,
    stdout (snd (scan buf fmt w)) = stdout w
    /\ stderr (snd (scan buf fmt w)) = stderr w.
Proof.
  intros buf fmt w. unfold scan.
  destruct (sscanf buf fmt (filename w)); split; reflexivity.
Qed.

Lemma reported_from :
  forall w w0 w',
    stdout w0 = stdout w /\ stderr w0 = stderr w ->
    reported w0 w' -> reported w w'.
Proof.
  intros w w0 w' [Ho He] (out & err & [Hx1 Hx2] & Hne).
  exists out, err. split; [|exact Hne]. split; congruence.
Qed.

(** X2: every command that returns -1 has written a diagnostic to stdout
    or stderr, except the empty line.  This holds for every line and every
    answer of the system: whichever handler [execute_command] runs, and when
    it runs none, a result of -1 comes with a message. *)
Lemma failures_are_reported :
  forall os buf w w',
    buf <> "" ->
    execute_command os buf w = Some (Returned (-1), w') ->
    reported w w'.
Proof.
  intros os buf w w' Hbuf H. unfold execute_command in H.
  scan_step scan_silent.
  { apply do_cat_reports in H. eapply reported_from; [|exact H].
    chain_silent. }
  scan_step scan_silent.
  { injection H as H. apply do_stat_reports in H.
    eapply reported_from; [|exact H]. chain_silent. }
  scan_step scan_silent.
  { injection H as H. apply do_mkdir_reports in H.
    eapply reported_from; [|exact H]. chain_silent. }
  scan_step scan_silent.
  { injection H as H. apply do_rmdir_reports in H.
    eapply reported_from; [|exact H]. chain_silent. }
  scan_step scan_silent.
  { injection H as H. apply do_rm_reports in H.
    eapply reported_from; [|exact H]. chain_silent. }
  match goal with
  | H : context [scan ?buf ?fmt ?w] |- _ =>
      pose proof (scan_silent buf fmt w) as Hls;
      destruct (scan buf fmt w) as [nls wls]; cbn [snd] in Hls
  end.
  destruct ((nls =? 1) || (strncmp buf "ls" BUFFER_SIZE =? 0)).
  { injection H as H. apply do_ls_reports in H.
    eapply reported_from; [|exact H].
    destruct (strnlen (filename wls) BUFFER_SIZE =? 0)%nat;
      cbn [stdout stderr with_filename]; chain_silent. }
  destruct (strncmp buf "pwd" BUFFER_SIZE =? 0).
  { injection H as H. apply do_pwd_reports in H.
    eapply reported_from; [|exact H]. chain_silent. }
  assert (Hlen : (strnlen buf BUFFER_SIZE =? 0)%nat = false).
  { destruct buf; [contradiction|reflexivity]. }
  rewrite Hlen in H. cbn [negb] in H. injection H as H. subst w'.
  apply fresh_report_err; [| |message]; chain_silent.
Qed.

Lemma failures_are_reported_witness :
  reported (boot [] [])
    (put_err ("myshell: nonsense: No such file or directory" ++ NL)
       (boot [] [])).
Proof.
  apply (failures_are_reported os_plain "nonsense" (boot [] [])).
  - discriminate.
  - reflexivity.
Defined.

(** ** The loop of [main] *)

Lemma display_prompt_buffer :
  forall os w, buffer (display_prompt os w) = buffer w.
Proof.
  intros os w. unfold display_prompt, sys_getcwd.
  destruct (os_getcwd os); [reflexivity|].
  destruct (MAX_PATH_LENGTH <=? String.length (cwd w))%nat; reflexivity.
Qed.

Lemma after_command_not_exited :
  forall r rest status w, after_command r rest <> Exited status w.
Proof. intros [[v w1]|] rest status w; discriminate. Qed.

(** One turn ends the program only through [exit(EXIT_SUCCESS)], and only
    when the command line is [exit]. *)
Lemma main_step_exited :
  forall os w stdin status w',
    main_step os w stdin = Exited status w' ->
    status = EXIT_SUCCESS /\ command_line w stdin = Some "exit".
Proof.
  intros os w stdin status w' H.
  unfold main_step in H. unfold command_line.
  rewrite display_prompt_buffer in H.
  destruct (fgets BUFFER_SIZE stdin) as [[line rest]|]; [|discriminate].
  cbn [buffer with_buffer] in H.
  destruct (fst (strip_trailing_whitespace (store line (buffer w))))
    as [stripped|]; [|discriminate].
  cbn [buffer with_buffer with_filename] in H.
  destruct (scan (string_at stripped) "cd %s" _) as [n w5].
  destruct ((n =? 1) || (strncmp (string_at stripped) "cd" BUFFER_SIZE =? 0)).
  - exfalso. exact (after_command_not_exited _ _ _ _ H).
  - destruct (strncmp (string_at stripped) "exit" BUFFER_SIZE =? 0) eqn:He.
    + inversion H. split; [reflexivity|]. f_equal.
      apply Z.eqb_eq in He.
      apply (strncmp_zero BUFFER_SIZE); auto.
      * simpl. unfold BUFFER_SIZE. lia.
      * apply cstring_no_nul.
      * intros c Hin. simpl in Hin.
        repeat (destruct Hin as [<-|Hin]; [discriminate|]). contradiction.
    + exfalso. exact (after_command_not_exited _ _ _ _ H).
Qed.

(** Conversely the command line [exit] ends the program with
    EXIT_SUCCESS. *)
Lemma main_step_exit :
  forall os w stdin,
    command_line w stdin = Some "exit" ->
    exists w', main_step os w stdin = Exited EXIT_SUCCESS w'.
Proof.
  intros os w stdin H.
  unfold command_line in H. unfold main_step.
  rewrite display_prompt_buffer.
  destruct (fgets BUFFER_SIZE stdin) as [[line rest]|]; [|discriminate].
  cbn [buffer with_buffer].
  destruct (fst (strip_trailing_whitespace (store line (buffer w))))
    as [stripped|]; [|discriminate].
  cbn [buffer with_buffer with_filename].
  injection H as H. rewrite H.
  eexists. reflexivity.
Qed.

(** When [main] ends by [exit], the status is EXIT_SUCCESS and the turn
    that ended it had read the command line [exit]; all turns before it,
    whatever their handlers returned, went on to the next turn.  No return
    value of a handler reaches [exit]: [main] discards them, and the
    statement [exit-1;] of [do_cat] calls nothing.  (Runs that end in an
    invalid memory access are not runs that end by [exit].) *)
Theorem main_exits_only_on_exit :
  forall envs w stdin status w',
    main envs w stdin = Exited status w' ->
    status = EXIT_SUCCESS
    /\ exists before os later w1 stdin1,
        envs = (before ++ os :: later)%list
        /\ main before w stdin = Running w1 stdin1
        /\ command_line w1 stdin1 = Some "exit"
        /\ main_step os w1 stdin1 = Exited EXIT_SUCCESS w'.
Proof.
  induction envs as [|os later IH]; intros w stdin status w' H;
    simpl in H; [discriminate|].
  destruct (main_step os w stdin) as [w1 stdin1|status1 w1|] eqn:Hstep;
    [| |discriminate].
  - destruct (IH _ _ _ _ H) as [Hs (before & os' & later' & w2 & stdin2
                                    & Henvs & Hrun & Hline & Hexit)].
    split; [exact Hs|].
    exists (os :: before), os', later', w2, stdin2.
    repeat split; auto.
    + simpl. rewrite Henvs. reflexivity.
    + simpl. rewrite Hstep. exact Hrun.
  - inversion H; subst status1 w1.
    destruct (main_step_exited _ _ _ _ _ Hstep) as [Hs Hline]. subst status.
    split; [reflexivity|].
    exists [], os, later, w, stdin. repeat split; auto.
Qed.

Lemma main_exits_only_on_exit_witness :
  EXIT_SUCCESS = EXIT_SUCCESS
  /\ exists before os later w1 stdin1,
      session_envs = (before ++ os :: later)%list
      /\ main before (boot [NUL] []) session_input = Running w1 stdin1
      /\ command_line w1 stdin1 = Some "exit"
      /\ main_step os w1 stdin1 = Exited EXIT_SUCCESS session_end.
Proof.
  apply (main_exits_only_on_exit session_envs (boot [NUL] []) session_input
           EXIT_SUCCESS session_end).
  vm_compute. reflexivity.
Defined.

Example session_diagnostics :
  stderr session_end
  = "Error reading data from d: Is a directory" ++ NL
    ++ "myshell: nonsense: No such file or directory" ++ NL.
Proof. reflexivity. Qed.

(** ** The working directory *)

Lemma scan_cwd :
  forall buf fmt w, cwd (snd (scan buf fmt w)) = cwd w.
Proof.
  intros buf fmt w. unfold scan.
  destruct (sscanf buf fmt (filename w)); reflexivity.
Qed.

Lemma do_stat_cwd :
  forall os path w, cwd (snd (do_stat os path w)) = cwd w.
Proof.
  intros os path w. unfold do_stat, sys_stat.
  destruct (os_stat os path); reflexivity.
Qed.

Lemma do_mkdir_cwd :
  forall os path w, cwd (snd (do_mkdir os path w)) = cwd w.
Proof.
  intros os path w. unfold do_mkdir, sys_mkdir.
  destruct (os_mkdir os path _); reflexivity.
Qed.

Lemma do_rmdir_cwd :
  forall os path w, cwd (snd (do_rmdir os path w)) = cwd w.
Proof.
  intros os path w. unfold do_rmdir, sys_rmdir.
  destruct (os_rmdir os path); reflexivity.
Qed.

Lemma do_rm_cwd :
  forall os path w, cwd (snd (do_rm os path w)) = cwd w.
Proof.
  intros os path w. unfold do_rm, sys_unlink.
  destruct (os_unlink os path); reflexivity.
Qed.

Lemma do_pwd_cwd :
  forall os w, cwd (snd (do_pwd os w)) = cwd w.
Proof.
  intros os w. unfold do_pwd, sys_getcwd.
  destruct (os_getcwd os); [reflexivity|].
  destruct (MAX_PATH_LENGTH <=? String.length (cwd w))%nat; reflexivity.
Qed.

Lemma ls_entry_cwd :
  forall os dir d_name w, cwd (ls_entry os dir d_name w) = cwd w.
Proof.
  intros os dir d_name w. unfold ls_entry, sys_lstat.
  destruct (PATH_MAX <=? _)%nat; [reflexivity|].
  destruct (os_lstat os _); reflexivity.
Qed.

Lemma ls_loop_cwd :
  forall os dir entries w, cwd (ls_loop os dir entries w) = cwd w.
Proof.
  intros os dir entries. unfold ls_loop.
  induction entries as [|d_name later IH]; intros w; simpl.
  - reflexivity.
  - rewrite IH. apply ls_entry_cwd.
Qed.

Lemma do_ls_cwd :
  forall os dirname w, cwd (snd (do_ls os dirname w)) = cwd w.
Proof.
  intros os dirname w. unfold do_ls.
  destruct (os_opendir os _) as [e|d]; [reflexivity|].
  set (w3 := ls_loop os _ (ds_entries d) _).
  assert (H3 : cwd w3 = cwd w) by (subst w3; rewrite ls_loop_cwd; reflexivity).
  unfold sys_closedir.
  destruct (ds_end d); destruct (negb _);
    destruct (os_closedir os (ds_id d)); exact H3.
Qed.

Lemma cat_loop_cwd :
  forall os path reads w r w',
    cat_loop os path reads w = Some (r, w') -> cwd w' = cwd w.
Proof.
  intros os path reads.
  induction reads as [|[e|data] later IH]; intros w r w' H;
    cbn [cat_loop] in H.
  - inversion H. reflexivity.
  - inversion H. reflexivity.
  - destruct (firstn BUFFER_SIZE data) as [|c chunk].
    + inversion H. reflexivity.
    + unfold fwrite_buffer in H.
      destruct (List.length _ <? _)%nat; [discriminate|].
      apply IH in H. exact H.
Qed.

Lemma sys_close_cwd :
  forall os fd w, cwd (snd (sys_close os fd w)) = cwd w.
Proof.
  intros os fd w. unfold sys_close.
  destruct (is_open fd w); [destruct (os_close os fd)|]; reflexivity.
Qed.

Lemma do_cat_cwd :
  forall os path w r w',
    do_cat os path w = Some (r, w') -> cwd w' = cwd w.
Proof.
  intros os path w r w' H. unfold do_cat, sys_open in H.
  destruct (os_open os path) as [e|f].
  - change (-1 <? 0) with true in H. cbv iota in H.
    close_step sys_close_cwd H. inversion H; subst. rewrite Hclose. reflexivity.
  - destruct (Z.of_N (f_fd f) <? 0).
    + close_step sys_close_cwd H. inversion H; subst. rewrite Hclose.
      reflexivity.
    + destruct (cat_loop os path (f_reads f) _) as [[[v|] w2]|] eqn:Hloop;
        [| |discriminate].
      * inversion H; subst. apply cat_loop_cwd in Hloop. exact Hloop.
      * apply cat_loop_cwd in Hloop. cbn [cwd with_fds] in Hloop.
        close_step sys_close_cwd H.
        assert (Hput : forall s, cwd (put_err s w0) = cwd w0)
          by reflexivity.
        destruct (c <? 0); close_step sys_close_cwd H; inversion H; subst;
          rewrite Hclose0; rewrite ?Hput; congruence.
Qed.

(** Nothing that [execute_command] calls changes the working directory. *)
Lemma execute_command_frame :
  forall os buf w,
    match execute_command os buf w with
    | Some (_, w') => cwd w' = cwd w
    | None => True
    end.
Proof.
  intros os buf w. unfold execute_command.
  pose proof (scan_cwd buf "cat %s" w) as H1.
  destruct (scan buf "cat %s" w) as [n1 w1]. cbn [snd] in H1.
  destruct (n1 =? 1).
  { destruct (do_cat os (filename w1) w1) as [[r w']|] eqn:Hcat; [|exact I].
    apply do_cat_cwd in Hcat. congruence. }
  pose proof (scan_cwd buf "stat %s" w1) as H2.
  destruct (scan buf "stat %s" w1) as [n2 w2]. cbn [snd] in H2.
  destruct (n2 =? 1).
  { pose proof (do_stat_cwd os (filename w2) w2).
    destruct (do_stat os (filename w2) w2). cbn [snd] in *. congruence. }
  pose proof (scan_cwd buf "mkdir %s" w2) as H3.
  destruct (scan buf "mkdir %s" w2) as [n3 w3]. cbn [snd] in H3.
  destruct (n3 =? 1).
  { pose proof (do_mkdir_cwd os (filename w3) w3).
    destruct (do_mkdir os (filename w3) w3). cbn [snd] in *. congruence. }
  pose proof (scan_cwd buf "rmdir %s" w3) as H4.
  destruct (scan buf "rmdir %s" w3) as [n4 w4]. cbn [snd] in H4.
  destruct (n4 =? 1).
  { pose proof (do_rmdir_cwd os (filename w4) w4).
    destruct (do_rmdir os (filename w4) w4). cbn [snd] in *. congruence. }
  pose proof (scan_cwd buf "rm %s" w4) as H5.
  destruct (scan buf "rm %s" w4) as [n5 w5]. cbn [snd] in H5.
  destruct (n5 =? 1).
  { pose proof (do_rm_cwd os (filename w5) w5).
    destruct (do_rm os (filename w5) w5). cbn [snd] in *. congruence. }
  pose proof (scan_cwd buf "ls %s" w5) as H6.
  destruct (scan buf "ls %s" w5) as [n6 w6]. cbn [snd] in H6.
  destruct ((n6 =? 1) || (strncmp buf "ls" BUFFER_SIZE =? 0)).
  { set (w7 := if (strnlen (filename w6) BUFFER_SIZE =? 0)%nat
               then with_filename "." w6 else w6).
    assert (H7 : cwd w7 = cwd w6)
      by (subst w7; destruct (_ =? _)%nat; reflexivity).
    pose proof (do_ls_cwd os (filename w7) w7).
    destruct (do_ls os (filename w7) w7). cbn [snd] in *. congruence. }
  destruct (strncmp buf "pwd" BUFFER_SIZE =? 0).
  { pose proof (do_pwd_cwd os w6).
    destruct (do_pwd os w6). cbn [snd] in *. congruence. }
  destruct (negb _); cbn [cwd put_err]; congruence.
Qed.

Lemma display_prompt_cwd :
  forall os w, cwd (display_prompt os w) = cwd w.
Proof.
  intros os w. unfold display_prompt, sys_getcwd.
  destruct (os_getcwd os); [reflexivity|].
  destruct (MAX_PATH_LENGTH <=? String.length (cwd w))%nat; reflexivity.
Qed.

(** A turn of [main] that goes on, on a command line that fails the test
    for [cd], leaves the working directory as it was. *)
Lemma turn_without_cd_keeps_cwd :
  forall os w stdin w' stdin',
    main_step os w stdin = Running w' stdin' ->
    (forall buf, command_line w stdin = Some buf -> is_cd_line buf = false) ->
    cwd w' = cwd w.
Proof.
  intros os w stdin w' stdin' H Hcd.
  unfold main_step in H. unfold command_line in Hcd.
  rewrite display_prompt_buffer in H.
  destruct (fgets BUFFER_SIZE stdin) as [[line rest]|].
  - cbn [buffer with_buffer] in H.
    destruct (fst (strip_trailing_whitespace (store line (buffer w))))
      as [stripped|]; [|discriminate].
    cbn [buffer with_buffer with_filename] in H.
    specialize (Hcd _ eq_refl). unfold is_cd_line in Hcd.
    unfold scan in H. cbn [filename with_filename] in H.
    destruct (sscanf (string_at stripped) "cd %s" "") as [n stored].
    cbv beta iota in H. cbn [fst] in Hcd. rewrite Hcd in H.
    destruct (strncmp (string_at stripped) "exit" BUFFER_SIZE =? 0);
      [discriminate|].
    match type of H with
    | after_command (execute_command ?o ?b ?w0) _ = _ =>
        pose proof (execute_command_frame o b w0) as F;
        destruct (execute_command o b w0) as [[r w1]|]; [|discriminate]
    end.
    cbn [after_command] in H. inversion H; subst.
    rewrite F. cbn [cwd with_filename with_buffer].
    apply display_prompt_cwd.
  - inversion H. apply display_prompt_cwd.
Qed.

Lemma command_line_is_c_string :
  forall w stdin buf,
    command_line w stdin = Some buf -> exists bytes, buf = cstring bytes.
Proof.
  intros w stdin buf H. unfold command_line in H.
  destruct (fgets BUFFER_SIZE stdin) as [[line rest]|]; [|discriminate].
  destruct (fst (strip_trailing_whitespace (store line (buffer w))))
    as [stripped|]; [|discriminate].
  injection H as <-. exists (upwards stripped). reflexivity.
Qed.

(** X31: whatever command [execute_command] runs ([cat], [stat], [mkdir],
    [rmdir], [rm], [ls], [pwd], or the report of a line that is no
    command), the working directory after it is the one before it; and a
    turn of [main] changes the working directory only when its command
    line begins with the two letters of [cd].  [chdir] is called by [do_cd]
    alone, which [execute_command] never calls. *)
Theorem cwd_changes_only_on_cd_lines :
  forall os w,
    (forall buf r w',
       execute_command os buf w = Some (r, w') -> cwd w' = cwd w)
    /\ (forall stdin w' stdin',
          main_step os w stdin = Running w' stdin' ->
          cwd w' <> cwd w ->
          exists buf,
            command_line w stdin = Some buf
            /\ starts_with "cd" buf = true).
Proof.
  intros os w. split.
  - intros buf r w' H.
    pose proof (execute_command_frame os buf w) as F.
    rewrite H in F. exact F.
  - intros stdin w' stdin' H Hchanged.
    destruct (command_line w stdin) as [buf|] eqn:Hline.
    + exists buf. split; [reflexivity|].
      destruct (starts_with "cd" buf) eqn:Hcd; [reflexivity|].
      exfalso. apply Hchanged.
      apply (turn_without_cd_keeps_cwd os w stdin w' stdin' H).
      intros buf' Hbuf'. rewrite Hline in Hbuf'.
      injection Hbuf' as <-.
      destruct (command_line_is_c_string _ _ _ Hline) as [bytes ->].
      apply other_line_is_not_cd. exact Hcd.
    + exfalso. apply Hchanged.
      apply (turn_without_cd_keeps_cwd os w stdin w' stdin' H).
      intros buf' Hbuf'. rewrite Hline in Hbuf'. discriminate.
Qed.

(** ** File types *)

Lemma file_type_bits :
  forall t perms,
    Z.land t 4095 = 0 -> 0 <= perms < 4096 ->
    Z.land t S_IFMT = t ->
    Z.land (Z.lor t perms) S_IFMT = t.
Proof.
  intros t perms Ht Hp Hm.
  rewrite Z.land_lor_distr_l, Hm.
  replace (Z.land perms S_IFMT) with 0; [apply Z.lor_0_r|].
  symmetry. apply Z.bits_inj'. intros n Hn.
  rewrite Z.land_spec, Z.bits_0.
  destruct (Z.ltb_spec n 12) as [Hlow|Hhigh].
  - replace (Z.testbit S_IFMT n) with false; [apply andb_false_r|].
    symmetry. change S_IFMT with (Z.shiftl 15 12).
    apply Z.shiftl_spec_low. exact Hlow.
  - replace (Z.testbit perms n) with false; [reflexivity|].
    symmetry. destruct (Z.eq_dec perms 0) as [->|Hnz]; [apply Z.bits_0|].
    apply Z.bits_above_log2; [lia|].
    apply Z.log2_lt_pow2; [lia|].
    apply Z.lt_le_trans with (2 ^ 12); [change (2 ^ 12) with 4096; lia|].
    apply Z.pow_le_mono_r; lia.
Qed.

(** X3: the permission bits of a mode play no part in naming the type of a
    file: for each of the seven file types of [sys/stat.h], [ftype_string]
    gives its name whatever the twelve low bits are; [file_or_dir] answers
    DIR for a directory and FILE for the six others. *)
Theorem ftype_ignores_permission_bits :
  forall t name perms,
    In (t, name) file_types -> 0 <= perms < 4096 ->
    ftype_string (Z.lor t perms) = name
    /\ file_or_dir (Z.lor t perms)
       = if (t =? S_IFDIR) then "DIR" else "FILE".
Proof.
  intros t name perms Hin Hp.
  unfold ftype_string, file_or_dir.
  simpl in Hin.
  repeat (destruct Hin as [E|Hin];
          [injection E as <- <-;
           rewrite file_type_bits by (auto; reflexivity);
           split; reflexivity|]).
  contradiction.
Qed.

Lemma ftype_ignores_permission_bits_witness :
  ftype_string (Z.lor S_IFDIR 493) = "directory"
  /\ file_or_dir (Z.lor S_IFDIR 493) = "DIR".
Proof.
  apply (ftype_ignores_permission_bits S_IFDIR "directory" 493).
  - simpl. right. left. reflexivity.
  - lia.
Defined.

(** X4: the two classifications that [do_ls] prints side by side agree:
    an entry is tagged DIR exactly when its type is named directory. *)
Theorem file_or_dir_agrees_with_ftype :
  forall mode,
    file_or_dir mode = "DIR" <-> ftype_string mode = "directory".
Proof.
  intros mode. unfold file_or_dir, ftype_string.
  set (t := Z.land mode S_IFMT).
  destruct (Z.eqb_spec t S_IFDIR) as [E|N].
  - rewrite E. split; reflexivity.
  - split; [discriminate|].
    destruct (t =? S_IFREG); [discriminate|].
    destruct (t =? S_IFLNK); [discriminate|].
    destruct (t =? S_IFCHR); [discriminate|].
    destruct (t =? S_IFBLK); [discriminate|].
    destruct (t =? S_IFIFO); [discriminate|].
    destruct (t =? S_IFSOCK); discriminate.
Qed.

(** ** What stripping leaves *)

Lemma rstrip_snoc :
  forall t c,
    rstrip (t ++ String c "")
    = if isspace c then rstrip t else t ++ String c "".
Proof.
  induction t as [|a t IH]; intros c; cbn [append rstrip].
  - destruct (isspace c); reflexivity.
  - rewrite IH. destruct (isspace c); [reflexivity|].
    destruct t; reflexivity.
Qed.

Lemma rstrip_blanks :
  forall b, blanks b = true -> rstrip b = "".
Proof.
  induction b as [|c b IH]; intros H; cbn [rstrip]; [reflexivity|].
  cbn [blanks] in H. apply andb_prop in H. destruct H as [H Hb].
  apply andb_prop in H. destruct H as [Hc _].
  rewrite (IH Hb), Hc. reflexivity.
Qed.

Lemma rstrip_app_blanks :
  forall s b, blanks b = true -> rstrip (s ++ b) = rstrip s.
Proof.
  induction s as [|a s IH]; intros b Hb; cbn [append rstrip].
  - apply rstrip_blanks. exact Hb.
  - rewrite (IH b Hb). reflexivity.
Qed.

Lemma rstrip_word :
  forall v, ordinary v = true -> rstrip v = v.
Proof.
  induction v as [|c v IH]; intros Hv; [reflexivity|].
  destruct (ordinary_cons _ _ Hv) as (Hsp & _ & Hv').
  cbn [rstrip]. rewrite (IH Hv'), Hsp. destruct v; reflexivity.
Qed.

Lemma string_snoc :
  forall s i c,
    String.length s = S i -> get i s = Some c ->
    s = substring 0 i s ++ String c "".
Proof.
  induction s as [|a s IH]; intros i c Hlen Hget; [discriminate|].
  destruct i as [|i]; simpl in *.
  - destruct s; [|discriminate]. congruence.
  - f_equal. apply IH; [lia|exact Hget].
Qed.

Lemma length_prefix :
  forall s n,
    (n <= String.length s)%nat -> String.length (substring 0 n s) = n.
Proof.
  induction s as [|a s IH]; intros [|n] H; simpl in *; try lia.
  rewrite IH; lia.
Qed.

Lemma cstring_get :
  forall bytes i,
    (i < String.length (cstring bytes))%nat ->
    nth_error bytes i = get i (cstring bytes).
Proof.
  induction bytes as [|b rest IH]; intros i H; simpl in *; [lia|].
  destruct (is_nul b); simpl in *; [lia|].
  destruct i as [|i]; [reflexivity|]. apply IH. lia.
Qed.

Lemma cstring_update_nul :
  forall bytes i,
    (i < String.length (cstring bytes))%nat ->
    cstring (update bytes i NUL) = substring 0 i (cstring bytes).
Proof.
  induction bytes as [|b rest IH]; intros i H; simpl in *; [lia|].
  destruct (is_nul b) eqn:Hb; simpl in *; [lia|].
  destruct i as [|i]; simpl.
  - reflexivity.
  - rewrite Hb, IH by lia. reflexivity.
Qed.

Lemma update_app :
  forall a b n c,
    update (a ++ b) n c
    = if (n <? List.length a)%nat then (update a n c ++ b)%list
      else (a ++ update b (n - List.length a) c)%list.
Proof.
  induction a as [|x a IH]; intros b n c.
  - simpl. rewrite Nat.sub_0_r. reflexivity.
  - destruct n as [|n]; [reflexivity|].
    cbn [app update List.length]. rewrite IH.
    change (S n <? S (List.length a))%nat with (n <? List.length a)%nat.
    destruct (n <? List.length a)%nat; reflexivity.
Qed.

Lemma upwards_wr :
  forall r i c,
    0 <= i ->
    upwards (wr r i c) = update (upwards r) (Z.to_nat i) c
    /\ below (wr r i c) = below r.
Proof.
  intros r i c Hi. unfold wr, upwards.
  destruct (Z.ltb_spec i 0) as [|_]; [lia|].
  rewrite update_app.
  destruct (Z.ltb_spec i (Z.of_nat (List.length (cells r)))) as [Hin|Hout];
    cbn [below cells above].
  - destruct (Nat.ltb_spec (Z.to_nat i) (List.length (cells r)));
      [split; reflexivity|lia].
  - destruct (Nat.ltb_spec (Z.to_nat i) (List.length (cells r)));
      [lia|split; reflexivity].
Qed.

Lemma rstrip_nonempty :
  forall s, rstrip s <> "" -> s <> "".
Proof. intros s H E. subst s. apply H. reflexivity. Qed.

Lemma strip_loop_rstrip :
  forall fuel r i reads,
    Z.of_nat (String.length (string_at r)) = i + 1 ->
    rstrip (string_at r) <> "" ->
    (String.length (string_at r) <= fuel)%nat ->
    exists r',
      fst (strip_loop fuel r i reads) = Some r'
      /\ string_at r' = rstrip (string_at r)
      /\ below r' = below r.
Proof.
  induction fuel as [|fuel IH]; intros r i reads Hlen Hne Hfuel.
  - exfalso. apply (rstrip_nonempty _ Hne).
    destruct (string_at r); [reflexivity|simpl in Hfuel; lia].
  - assert (Hpos : 0 <= i).
    { pose proof (rstrip_nonempty _ Hne) as Hs.
      destruct (string_at r); [contradiction|simpl in Hlen; lia]. }
    cbn [strip_loop].
    assert (Hrd : rd r i = get (Z.to_nat i) (string_at r)).
    { unfold rd. destruct (Z.ltb_spec i 0) as [|_]; [lia|].
      apply cstring_get. fold (string_at r). lia. }
    destruct (get (Z.to_nat i) (string_at r)) as [c|] eqn:Hget.
    2:{ exfalso.
        assert (Hsome : nth_error (upwards r) (Z.to_nat i) <> None).
        { apply nth_error_Some.
          pose proof (cstring_length (upwards r)). fold (string_at r) in H.
          lia. }
        unfold rd in Hrd. destruct (Z.ltb_spec i 0) as [|_]; [lia|].
        congruence. }
    rewrite Hrd.
    assert (Hsplit : string_at r
                     = substring 0 (Z.to_nat i) (string_at r)
                       ++ String c "").
    { apply string_snoc; [lia|exact Hget]. }
    destruct (isspace c) eqn:Hc.
    + destruct (upwards_wr r i NUL Hpos) as [Hup Hbelow].
      assert (Hstr : string_at (wr r i NUL)
                     = substring 0 (Z.to_nat i) (string_at r)).
      { unfold string_at. rewrite Hup. apply cstring_update_nul.
        fold (string_at r). lia. }
      assert (Hrs : rstrip (string_at r)
                    = rstrip (substring 0 (Z.to_nat i) (string_at r))).
      { rewrite Hsplit at 1. rewrite rstrip_snoc, Hc. reflexivity. }
      destruct (IH (wr r i NUL) (i - 1) (reads ++ [i])%list)
        as (r' & E & Hs & Hb).
      * rewrite Hstr, length_prefix by lia. lia.
      * rewrite Hstr, <- Hrs. exact Hne.
      * rewrite Hstr, length_prefix by lia. lia.
      * exists r'. split; [exact E|]. split; [|congruence].
        rewrite Hs, Hstr. symmetry. exact Hrs.
    + exists r. split; [reflexivity|]. split; [|reflexivity].
      rewrite Hsplit at 2. rewrite rstrip_snoc, Hc. exact Hsplit.
Qed.

(** X5: on a line of at most [BUFFER_SIZE] bytes that holds something
    other than white space, [strip_trailing_whitespace] ends inside the
    array and leaves in it the line without its trailing white space; the
    bytes before the array are untouched. *)
Theorem strip_removes_trailing_space :
  forall r,
    (String.length (string_at r) <= BUFFER_SIZE)%nat ->
    rstrip (string_at r) <> "" ->
    exists r',
      fst (strip_trailing_whitespace r) = Some r'
      /\ string_at r' = rstrip (string_at r)
      /\ below r' = below r.
Proof.
  intros r Hlen Hne. unfold strip_trailing_whitespace.
  assert (Hn : strnlen (string_at r) BUFFER_SIZE = String.length (string_at r))
    by (unfold strnlen; lia).
  rewrite Hn. cbv zeta.
  apply strip_loop_rstrip; [lia|exact Hne|lia].
Qed.

Lemma strip_removes_trailing_space_witness :
  exists r',
    fst (strip_trailing_whitespace
           (mkRegion [] (list_ascii_of_string ("ls  -l  " ++ NL) ++ [NUL])%list
              []))
    = Some r'
    /\ string_at r' = "ls  -l"
    /\ below r' = [].
Proof.
  apply (strip_removes_trailing_space
           (mkRegion [] (list_ascii_of_string ("ls  -l  " ++ NL) ++ [NUL])%list
              [])).
  - vm_compute. lia.
  - vm_compute. discriminate.
Defined.

(** ** From the typed line to the command line *)

Lemma one_line_cons :
  forall c s,
    one_line (String c s) = true ->
    is_nul c = false /\ Ascii.eqb c (ascii_of_nat 10) = false
    /\ one_line s = true.
Proof.
  intros c s H. cbn [one_line] in H.
  destruct (is_nul c), (Ascii.eqb c (ascii_of_nat 10)), (one_line s);
    try discriminate.
  repeat split.
Qed.

Lemma fgets_take_line :
  forall s n rest,
    one_line s = true -> (String.length s < n)%nat ->
    fgets_take n (list_ascii_of_string (s ++ NL) ++ rest)%list
    = (list_ascii_of_string (s ++ NL), rest).
Proof.
  induction s as [|c s IH]; intros n rest Hs Hn.
  - destruct n as [|n]; [simpl in Hn; lia|]. reflexivity.
  - destruct (one_line_cons _ _ Hs) as (_ & Hnl & Hs').
    destruct n as [|n]; [simpl in Hn; lia|].
    cbn [append list_ascii_of_string app fgets_take]. rewrite Hnl.
    rewrite (IH n rest Hs') by (simpl in Hn; lia). reflexivity.
Qed.

Lemma cstring_line :
  forall s rest,
    one_line s = true ->
    cstring (list_ascii_of_string (s ++ NL) ++ NUL :: rest)%list = s ++ NL.
Proof.
  induction s as [|c s IH]; intros rest Hs.
  - reflexivity.
  - destruct (one_line_cons _ _ Hs) as (Hnul & _ & Hs').
    cbn [append list_ascii_of_string app cstring]. rewrite Hnul.
    rewrite (IH rest Hs'). reflexivity.
Qed.

Lemma rstrip_newline : forall s, rstrip (s ++ NL) = rstrip s.
Proof. intros s. unfold NL. rewrite rstrip_snoc. reflexivity. Qed.

(** Reading a typed line: [fgets] takes the line with its newline and
    leaves what follows, and stripping ends inside the array. *)
Lemma typed_line_read :
  forall (r0 : region) s rest,
    one_line s = true ->
    (String.length s < BUFFER_SIZE - 1)%nat ->
    rstrip s <> "" ->
    exists line stripped,
      fgets BUFFER_SIZE (typed s ++ rest)%list = Some (line, rest)
      /\ fst (strip_trailing_whitespace (store line r0)) = Some stripped
      /\ string_at stripped = rstrip s
      /\ below stripped = below r0.
Proof.
  intros r0 s rest Hs Hlen Hne. unfold fgets, typed.
  rewrite (fgets_take_line s (BUFFER_SIZE - 1) rest Hs Hlen).
  destruct (list_ascii_of_string (s ++ NL)) as [|c line] eqn:Hline.
  { destruct s; discriminate. }
  rewrite <- Hline. clear c line Hline.
  exists (list_ascii_of_string (s ++ NL) ++ [NUL])%list.
  set (r := store _ r0).
  assert (Hstr : string_at r = s ++ NL).
  { subst r. unfold string_at, upwards, store. cbn [cells above].
    rewrite <- !app_assoc. cbn [app]. apply cstring_line. exact Hs. }
  destruct (strip_loop_rstrip
              (Z.to_nat (Z.of_nat (strnlen (string_at r) BUFFER_SIZE) - 1 + 1)
               + List.length (below r) + 1)
              r (Z.of_nat (strnlen (string_at r) BUFFER_SIZE) - 1) [])
    as (r' & E & Hr' & Hb).
  - rewrite Hstr. unfold strnlen. rewrite length_append.
    cbn [String.length NL]. unfold BUFFER_SIZE in *. lia.
  - rewrite Hstr, rstrip_newline. exact Hne.
  - rewrite Hstr. unfold strnlen. rewrite length_append.
    cbn [String.length NL]. unfold BUFFER_SIZE in *. lia.
  - exists r'. split; [reflexivity|].
    unfold strip_trailing_whitespace. cbv zeta. rewrite E.
    split; [reflexivity|]. split; [|exact Hb].
    rewrite Hr', Hstr. apply rstrip_newline.
Qed.

(** X6: what a turn of [main] acts on is the line as typed, without its
    trailing white space: for a line of fewer than [BUFFER_SIZE - 1] bytes
    that holds something other than white space, whatever [buffer] held
    before and whatever input follows the line. *)
Theorem command_line_typed :
  forall w s rest,
    one_line s = true ->
    (String.length s < BUFFER_SIZE - 1)%nat ->
    rstrip s <> "" ->
    command_line w (typed s ++ rest)%list = Some (rstrip s).
Proof.
  intros w s rest Hs Hlen Hne. unfold command_line.
  destruct (typed_line_read (buffer w) s rest Hs Hlen Hne)
    as (line & stripped & Hf & Hstrip & Hstr & _).
  rewrite Hf, Hstrip, Hstr. reflexivity.
Qed.

Lemma command_line_typed_witness :
  command_line (boot [] []) (typed "mkdir  new   " ++ typed "pwd")%list
  = Some "mkdir  new".
Proof.
  apply (command_line_typed (boot [] []) "mkdir  new   " (typed "pwd")).
  - reflexivity.
  - simpl. unfold BUFFER_SIZE. lia.
  - simpl. discriminate.
Defined.

(** ** One turn of [main] on a typed line *)

Lemma main_step_line :
  forall os w stdin line stdin1 stripped,
    fgets BUFFER_SIZE stdin = Some (line, stdin1) ->
    fst (strip_trailing_whitespace (store line (buffer w))) = Some stripped ->
    main_step os w stdin
    = let buf := string_at stripped in
      let (n, w5) := scan buf "cd %s" (ready os stripped w) in
      if (n =? 1) || (strncmp buf "cd" BUFFER_SIZE =? 0) then
        after_command (do_cd os (filename w5) w5) stdin1
      else if strncmp buf "exit" BUFFER_SIZE =? 0 then Exited EXIT_SUCCESS w5
      else after_command (execute_command os buf w5) stdin1.
Proof.
  intros os w stdin line stdin1 stripped Hf Hs.
  unfold main_step. rewrite Hf. cbn [buffer with_buffer].
  rewrite display_prompt_buffer, Hs. reflexivity.
Qed.

(** The prompt changes nothing but stdout and [errno]. *)
Lemma display_prompt_frame :
  forall os w,
    cwd (display_prompt os w) = cwd w
    /\ stderr (display_prompt os w) = stderr w
    /\ fs_log (display_prompt os w) = fs_log w
    /\ fds (display_prompt os w) = fds w
    /\ buffer (display_prompt os w) = buffer w.
Proof.
  intros os w. unfold display_prompt, sys_getcwd.
  destruct (os_getcwd os); [repeat split|].
  destruct (MAX_PATH_LENGTH <=? String.length (cwd w))%nat; repeat split.
Qed.

Lemma blanks_cons :
  forall c b,
    blanks (String c b) = true ->
    isspace c = true /\ Ascii.eqb c (ascii_of_nat 10) = false
    /\ blanks b = true.
Proof.
  intros c b H. cbn [blanks] in H.
  destruct (isspace c), (Ascii.eqb c (ascii_of_nat 10)), (blanks b);
    try discriminate.
  repeat split.
Qed.

Lemma space_is_not_nul : forall c, isspace c = true -> is_nul c = false.
Proof.
  intros c H. unfold is_nul. destruct (Ascii.eqb_spec c NUL) as [->|];
    [discriminate H|reflexivity].
Qed.

Lemma blanks_one_line : forall b, blanks b = true -> one_line b = true.
Proof.
  induction b as [|c b IH]; intros H; [reflexivity|].
  destruct (blanks_cons _ _ H) as (Hc & Hnl & Hb).
  cbn [one_line]. rewrite (space_is_not_nul c Hc), Hnl, (IH Hb). reflexivity.
Qed.

Lemma graphic_cons :
  forall c v,
    graphic (String c v) = true ->
    isspace c = false /\ is_nul c = false /\ graphic v = true.
Proof.
  intros c v H. cbn [graphic] in H.
  destruct (isspace c), (is_nul c), (graphic v); try discriminate.
  repeat split.
Qed.

Lemma graphic_one_line : forall v, graphic v = true -> one_line v = true.
Proof.
  induction v as [|c v IH]; intros H; [reflexivity|].
  destruct (graphic_cons _ _ H) as (Hsp & Hnul & Hv).
  cbn [one_line]. rewrite Hnul, (IH Hv).
  destruct (Ascii.eqb_spec c (ascii_of_nat 10)) as [->|]; [discriminate Hsp|].
  reflexivity.
Qed.

Lemma one_line_app :
  forall a b, one_line a = true -> one_line b = true ->
              one_line (a ++ b) = true.
Proof.
  induction a as [|c a IH]; intros b Ha Hb; [exact Hb|].
  destruct (one_line_cons _ _ Ha) as (Hnul & Hnl & Ha').
  cbn [append one_line]. rewrite Hnul, Hnl, (IH b Ha' Hb). reflexivity.
Qed.

Lemma take_word_graphic :
  forall v rest,
    graphic v = true -> word_end rest -> take_word (v ++ rest) = v.
Proof.
  induction v as [|c v IH]; intros rest Hv Hend.
  - destruct rest as [|d r]; [reflexivity|]. simpl in *. rewrite Hend.
    reflexivity.
  - destruct (graphic_cons _ _ Hv) as (Hsp & _ & Hv').
    simpl. rewrite Hsp, IH by assumption. reflexivity.
Qed.

Lemma rstrip_graphic :
  forall s v, graphic v = true -> v <> "" -> rstrip (s ++ v) = s ++ v.
Proof.
  intros s v Hv Hne.
  assert (Hbase : rstrip v = v).
  { clear Hne. induction v as [|c v IH]; [reflexivity|].
    destruct (graphic_cons _ _ Hv) as (Hsp & _ & Hv').
    cbn [rstrip]. rewrite (IH Hv'), Hsp. destruct v; reflexivity. }
  induction s as [|a s IH]; [exact Hbase|].
  cbn [append rstrip]. rewrite IH.
  destruct (s ++ v) eqn:E; [|reflexivity].
  destruct s; [|discriminate]. simpl in E. contradiction.
Qed.

Lemma skip_space_gap :
  forall gap v,
    blanks gap = true -> graphic v = true ->
    skip_space (gap ++ v) = v.
Proof.
  induction gap as [|c gap IH]; intros v Hg Hv.
  - destruct v as [|d v]; [reflexivity|].
    destruct (graphic_cons _ _ Hv) as (Hsp & _ & _).
    simpl. rewrite Hsp. reflexivity.
  - destruct (blanks_cons _ _ Hg) as (Hc & _ & Hg').
    cbn [append skip_space]. rewrite Hc. apply IH; assumption.
Qed.

Lemma gap_word_end :
  forall gap v, blanks gap = true -> gap <> "" -> word_end (gap ++ v).
Proof.
  intros [|c gap] v Hg Hne; [contradiction|].
  destruct (blanks_cons _ _ Hg) as (Hc & _ & _). exact Hc.
Qed.

(** The lines made of a verb, a gap of blanks, one word and trailing
    blanks. *)
Lemma typed_command_line :
  forall (r0 : region) verb gap arg trail rest,
    one_line verb = true ->
    blanks gap = true -> graphic arg = true -> arg <> "" ->
    blanks trail = true ->
    (String.length (verb ++ gap ++ arg ++ trail) < BUFFER_SIZE - 1)%nat ->
    exists line stripped,
      fgets BUFFER_SIZE (typed (verb ++ gap ++ arg ++ trail) ++ rest)%list
      = Some (line, rest)
      /\ fst (strip_trailing_whitespace (store line r0)) = Some stripped
      /\ string_at stripped = verb ++ gap ++ arg
      /\ below stripped = below r0.
Proof.
  intros r0 verb gap arg trail rest Hverb Hgap Harg Hne Htrail Hlen.
  assert (Hrs : rstrip (verb ++ gap ++ arg ++ trail) = verb ++ gap ++ arg).
  { replace (verb ++ gap ++ arg ++ trail)
      with ((verb ++ gap ++ arg) ++ trail)
      by (rewrite !append_assoc_string; reflexivity).
    rewrite rstrip_app_blanks by exact Htrail.
    rewrite <- append_assoc_string. apply rstrip_graphic; assumption. }
  destruct (typed_line_read r0 (verb ++ gap ++ arg ++ trail) rest)
    as (line & stripped & Hf & Hs & Hstr & Hb).
  - repeat apply one_line_app;
      auto using blanks_one_line, graphic_one_line.
  - exact Hlen.
  - rewrite Hrs. destruct verb; simpl; [|discriminate].
    destruct gap; simpl; [|discriminate].
    destruct arg; [contradiction|discriminate].
  - exists line, stripped. rewrite <- Hrs. auto.
Qed.

Lemma not_exit_line :
  forall r, string_at r <> "exit" ->
            (strncmp (string_at r) "exit" BUFFER_SIZE =? 0) = false.
Proof.
  intros r H. destruct (strncmp _ _ _ =? 0) eqn:E; [|reflexivity].
  exfalso. apply H. apply exit_line_test. exact E.
Qed.

(** A line that does not begin with "cd" and is not [exit] goes to
    [execute_command]. *)
Lemma main_step_command :
  forall os w stdin line stdin1 stripped,
    fgets BUFFER_SIZE stdin = Some (line, stdin1) ->
    fst (strip_trailing_whitespace (store line (buffer w))) = Some stripped ->
    starts_with "cd" (string_at stripped) = false ->
    string_at stripped <> "exit" ->
    main_step os w stdin
    = after_command
        (execute_command os (string_at stripped) (ready os stripped w))
        stdin1.
Proof.
  intros os w stdin line stdin1 stripped Hf Hs Hcd Hexit.
  rewrite (main_step_line os w stdin line stdin1 stripped Hf Hs).
  cbv zeta.
  destruct (scan_miss "cd" (string_at stripped) (ready os stripped w)
              eq_refl Hcd) as (n & E & Hn).
  cbn [append] in E. rewrite E, Hn.
  pose proof (other_line_is_not_cd (upwards stripped) Hcd) as Hline.
  unfold is_cd_line in Hline. apply orb_false_elim in Hline.
  destruct Hline as [_ Hcmp]. fold (string_at stripped) in Hcmp.
  rewrite Hcmp, (not_exit_line stripped Hexit). reflexivity.
Qed.

Lemma selected_call :
  forall c v rest arg,
    ordinary (String c v) = true -> word_end rest ->
    skip_space rest = arg -> arg <> "" -> take_word arg = arg ->
    spec_parse (String c v ++ rest) = Some (String c v, Some arg).
Proof.
  intros c v rest arg Hv Hend Hskip Hne Htake.
  rewrite (spec_parse_verb c v rest Hv Hend), Hskip.
  destruct arg; [contradiction|]. rewrite Htake. reflexivity.
Qed.

(** X7: typing a verb that takes an argument, blanks, one word and
    possibly more blanks runs the handler of that verb on that word, once
    the prompt is written and with the word in [filename]; the input that
    follows the line is left for the next turn. *)
Theorem typed_command_runs_handler :
  forall os w verb handler gap arg trail rest,
    In (verb, handler) verbs ->
    blanks gap = true -> gap <> "" ->
    graphic arg = true -> arg <> "" ->
    blanks trail = true ->
    (String.length (verb ++ gap ++ arg ++ trail) < BUFFER_SIZE - 1)%nat ->
    exists stripped,
      string_at stripped = verb ++ gap ++ arg
      /\ below stripped = below (buffer w)
      /\ main_step os w (typed (verb ++ gap ++ arg ++ trail) ++ rest)%list
         = after_command
             (perform os (verb ++ gap ++ arg) (handler arg)
                (with_buffer stripped (display_prompt os w)))
             rest.
Proof.
  intros os w verb handler gap arg trail rest Hin Hgap Hgne Harg Hane Htrail
    Hlen.
  assert (Hverb : one_line verb = true).
  { simpl in Hin.
    repeat (destruct Hin as [E|Hin]; [injection E as <- _; reflexivity|]).
    contradiction. }
  destruct (typed_command_line (buffer w) verb gap arg trail rest)
    as (line & stripped & Hf & Hs & Hstr & Hb); auto.
  exists stripped. split; [exact Hstr|]. split; [exact Hb|].
  pose proof (gap_word_end gap arg Hgap Hgne) as Hend.
  pose proof (skip_space_gap gap arg Hgap Harg) as Hskip.
  assert (Htake : take_word arg = arg).
  { rewrite <- (take_word_graphic arg "" Harg I) at 2.
    rewrite append_nil_r. reflexivity. }
  rewrite (main_step_command os w _ line rest stripped Hf Hs).
  - rewrite Hstr. f_equal. unfold ready.
    simpl in Hin.
    destruct Hin as [E|Hin];
      [injection E as <- <-; rewrite dispatch_cat by exact Hend|].
    2: destruct Hin as [E|Hin];
      [injection E as <- <-; rewrite dispatch_stat by exact Hend|].
    3: destruct Hin as [E|Hin];
      [injection E as <- <-; rewrite dispatch_mkdir by exact Hend|].
    4: destruct Hin as [E|Hin];
      [injection E as <- <-;
       rewrite dispatch_rmdir
         by (try exact Hend; rewrite Hskip; exact Hane)|].
    5: destruct Hin as [E|Hin];
      [injection E as <- <-; rewrite dispatch_rm by exact Hend|].
    6: destruct Hin as [E|Hin];
      [injection E as <- <-;
       rewrite dispatch_ls
         by (try exact Hend; rewrite Hskip; intros ->; contradiction)
      |contradiction].
    all: f_equal; unfold registry_select, spec_select;
      match goal with
      | |- context [spec_parse (String ?c ?v ++ _)] =>
          rewrite (first_token_verb c v _ eq_refl Hend);
          rewrite (selected_call c v _ arg eq_refl Hend Hskip Hane Htake)
      end; reflexivity.
  - rewrite Hstr. simpl in Hin.
    repeat (destruct Hin as [E|Hin]; [injection E as <- _; reflexivity|]).
    contradiction.
  - rewrite Hstr. simpl in Hin.
    repeat (destruct Hin as [E|Hin]; [injection E as <- _; discriminate|]).
    contradiction.
Qed.

Lemma typed_command_runs_handler_witness :
  exists stripped,
    string_at stripped = "mkdir" ++ "  " ++ "new"
    /\ below stripped = below (buffer (boot [] []))
    /\ main_step os_plain (boot [] [])
         (typed ("mkdir" ++ "  " ++ "new" ++ " ") ++ typed "pwd")%list
       = after_command
           (perform os_plain ("mkdir" ++ "  " ++ "new") (CallMkdir "new")
              (with_buffer stripped (display_prompt os_plain (boot [] []))))
           (typed "pwd").
Proof.
  apply (typed_command_runs_handler os_plain (boot [] []) "mkdir" CallMkdir
           "  " "new" " " (typed "pwd")).
  - simpl. right. right. left. reflexivity.
  - reflexivity.
  - discriminate.
  - reflexivity.
  - discriminate.
  - reflexivity.
  - simpl. unfold BUFFER_SIZE. lia.
Defined.

(** X8: typing [cd], blanks and one word calls [chdir] on that word from
    the working directory: when [chdir] succeeds the working directory is
    the one it reached and nothing is written to stderr; when it fails the
    working directory is unchanged and stderr receives one line, "cd: "
    with the text of the error.  Either way the turn goes on to the next
    line. *)
Theorem typed_cd_changes_directory :
  forall os w gap dir trail rest,
    blanks gap = true -> gap <> "" ->
    graphic dir = true -> dir <> "" ->
    blanks trail = true ->
    (String.length ("cd" ++ gap ++ dir ++ trail) < BUFFER_SIZE - 1)%nat ->
    exists w',
      main_step os w (typed ("cd" ++ gap ++ dir ++ trail) ++ rest)%list
      = Running w' rest
      /\ match os_chdir os (cwd w) dir with
         | inr reached => cwd w' = reached /\ stderr w' = stderr w
         | inl e =>
             cwd w' = cwd w
             /\ stderr w' = stderr w ++ "cd: " ++ strerror os (Zpos e) ++ NL
         end.
Proof.
  intros os w gap dir trail rest Hgap Hgne Hdir Hdne Htrail Hlen.
  destruct (typed_command_line (buffer w) "cd" gap dir trail rest)
    as (line & stripped & Hf & Hs & Hstr & Hb); auto.
  rewrite (main_step_line os w _ line rest stripped Hf Hs).
  cbv zeta. rewrite Hstr.
  pose proof (scan_hit "cd" (gap ++ dir) (ready os stripped w) eq_refl) as E.
  cbn [append] in E. cbn [append]. rewrite E. clear E.
  rewrite (skip_space_gap gap dir Hgap Hdir).
  assert (Htake : take_word dir = dir).
  { rewrite <- (take_word_graphic dir "" Hdir I) at 2.
    rewrite append_nil_r. reflexivity. }
  destruct dir as [|d dir']; [contradiction|].
  rewrite Htake. change (1 =? 1) with true. cbn [orb].
  cbn [filename with_filename]. unfold do_cd.
  change (strnlen (String d dir') MAX_PATH_LENGTH =? 0)%nat with false.
  cbv iota. unfold sys_chdir.
  cbn [cwd with_filename ready with_buffer].
  destruct (display_prompt_frame os w) as (Hcwd & Herr & _).
  rewrite Hcwd.
  destruct (os_chdir os (cwd w) (String d dir')) as [e|reached].
  - eexists. split; [reflexivity|].
    cbn [cwd stderr errno put_err fail with_errno with_filename with_buffer
         ready].
    rewrite Hcwd, Herr. split; reflexivity.
  - eexists. split; [reflexivity|].
    cbn [cwd stderr with_cwd with_filename with_buffer ready].
    rewrite Herr. split; reflexivity.
Qed.

Lemma typed_cd_changes_directory_witness :
  exists w',
    main_step os_plain (boot [NUL] [])
      (typed ("cd" ++ " " ++ "/usr/lib" ++ "  ") ++ typed "ls")%list
    = Running w' (typed "ls")
    /\ match os_chdir os_plain (cwd (boot [NUL] [])) "/usr/lib" with
       | inr reached =>
           cwd w' = reached /\ stderr w' = stderr (boot [NUL] [])
       | inl e =>
           cwd w' = cwd (boot [NUL] [])
           /\ stderr w'
              = stderr (boot [NUL] []) ++ "cd: "
                ++ strerror os_plain (Zpos e) ++ NL
       end.
Proof.
  apply (typed_cd_changes_directory os_plain (boot [NUL] []) " " "/usr/lib"
           "  " (typed "ls")).
  - reflexivity.
  - discriminate.
  - reflexivity.
  - discriminate.
  - reflexivity.
  - simpl. unfold BUFFER_SIZE. lia.
Defined.

Lemma blanks_word_end : forall b, blanks b = true -> word_end b.
Proof.
  intros [|c b] H; [exact I|].
  destruct (blanks_cons _ _ H) as (Hc & _ & _). exact Hc.
Qed.

(** C9: a line made of [cd] with a word glued to it, such as [cdrom], is no
    [cd] command: its first token is the whole of [cdrom], a verb the
    registry does not know.  [main] still calls [do_cd] on it, because the
    blank of the format "cd %s" also matches no white space: [chdir] is
    called on the glued word ([rom]), and when it succeeds the working
    directory has changed. *)
Theorem glued_cd_changes_directory :
  forall os w word trail rest,
    graphic word = true -> word <> "" ->
    blanks trail = true ->
    (String.length ("cd" ++ word ++ trail) < BUFFER_SIZE - 1)%nat ->
    first_token ("cd" ++ word ++ trail) = "cd" ++ word
    /\ spec_select ("cd" ++ word ++ trail) = NoCall
    /\ exists w',
        main_step os w (typed ("cd" ++ word ++ trail) ++ rest)%list
        = Running w' rest
        /\ match os_chdir os (cwd w) word with
           | inr reached => cwd w' = reached /\ stderr w' = stderr w
           | inl e =>
               cwd w' = cwd w
               /\ stderr w' = stderr w ++ "cd: " ++ strerror os (Zpos e) ++ NL
           end.
Proof.
  intros os w word trail rest Hword Hne Htrail Hlen.
  assert (Htoken : first_token ("cd" ++ word ++ trail) = "cd" ++ word).
  { unfold first_token. cbn [append].
    change (skip_space (String "c" (String "d" (word ++ trail))))
      with (("cd" ++ word) ++ trail).
    apply take_word_graphic; [exact Hword|apply blanks_word_end, Htrail]. }
  split; [exact Htoken|]. split.
  { unfold spec_select, spec_parse. cbn [append] in *.
    rewrite Htoken. reflexivity. }
  destruct (typed_command_line (buffer w) "cd" "" word trail rest)
    as (line & stripped & Hf & Hs & Hstr & Hb); auto.
  cbn [append] in Hf, Hstr. cbn [append].
  rewrite (main_step_line os w _ line rest stripped Hf Hs).
  cbv zeta. rewrite Hstr.
  pose proof (scan_hit "cd" word (ready os stripped w) eq_refl) as E.
  cbn [append] in E. cbn [append]. rewrite E. clear E.
  pose proof (skip_space_gap "" word eq_refl Hword) as Hskip.
  cbn [append] in Hskip. rewrite Hskip. clear Hskip.
  assert (Htake : take_word word = word).
  { rewrite <- (take_word_graphic word "" Hword I) at 2.
    rewrite append_nil_r. reflexivity. }
  destruct word as [|d word']; [contradiction|].
  rewrite Htake. change (1 =? 1) with true. cbn [orb].
  cbn [filename with_filename]. unfold do_cd.
  change (strnlen (String d word') MAX_PATH_LENGTH =? 0)%nat with false.
  cbv iota. unfold sys_chdir.
  cbn [cwd with_filename ready with_buffer].
  destruct (display_prompt_frame os w) as (Hcwd & Herr & _).
  rewrite Hcwd.
  destruct (os_chdir os (cwd w) (String d word')) as [e|reached].
  - eexists. split; [reflexivity|].
    cbn [cwd stderr errno put_err fail with_errno with_filename with_buffer
         ready].
    rewrite Hcwd, Herr. split; reflexivity.
  - eexists. split; [reflexivity|].
    cbn [cwd stderr with_cwd with_filename with_buffer ready].
    rewrite Herr. split; reflexivity.
Qed.

Lemma glued_cd_changes_directory_witness :
  first_token "cdrom" = "cdrom"
  /\ spec_select "cdrom" = NoCall
  /\ exists w',
      main_step os_relative (boot [NUL] []) (typed "cdrom") = Running w' []
      /\ cwd w' = "/tmp/rom" /\ stderr w' = "".
Proof.
  apply (glued_cd_changes_directory os_relative (boot [NUL] []) "rom" "" []).
  - reflexivity.
  - discriminate.
  - reflexivity.
  - simpl. unfold BUFFER_SIZE. lia.
Defined.

(** X9: typing [exit], also followed by blanks, ends the program with
    EXIT_SUCCESS whatever the state of the shell and whatever input
    follows; nothing is written to stderr and the working directory is
    the one before. *)
Theorem typed_exit_ends_the_shell :
  forall os w trail rest,
    blanks trail = true ->
    (String.length ("exit" ++ trail) < BUFFER_SIZE - 1)%nat ->
    exists w',
      main_step os w (typed ("exit" ++ trail) ++ rest)%list
      = Exited EXIT_SUCCESS w'
      /\ cwd w' = cwd w /\ stderr w' = stderr w /\ fs_log w' = fs_log w.
Proof.
  intros os w trail rest Htrail Hlen.
  destruct (typed_line_read (buffer w) ("exit" ++ trail) rest)
    as (line & stripped & Hf & Hs & Hstr & _).
  - apply one_line_app; [reflexivity|apply blanks_one_line; exact Htrail].
  - exact Hlen.
  - rewrite rstrip_app_blanks by exact Htrail. discriminate.
  - rewrite rstrip_app_blanks in Hstr by exact Htrail.
    change (rstrip "exit") with "exit" in Hstr.
    rewrite (main_step_line os w _ line rest stripped Hf Hs).
    cbv zeta. rewrite Hstr.
    eexists. split; [reflexivity|].
    cbn [cwd stderr fs_log ready with_filename with_buffer].
    destruct (display_prompt_frame os w) as (-> & -> & -> & _).
    repeat split.
Qed.

Lemma typed_exit_ends_the_shell_witness :
  exists w',
    main_step os_plain (boot [] []) (typed ("exit" ++ "   ") ++ typed "ls")%list
    = Exited EXIT_SUCCESS w'
    /\ cwd w' = cwd (boot [] []) /\ stderr w' = stderr (boot [] [])
    /\ fs_log w' = fs_log (boot [] []).
Proof.
  apply (typed_exit_ends_the_shell os_plain (boot [] []) "   " (typed "ls")).
  - reflexivity.
  - simpl. unfold BUFFER_SIZE. lia.
Defined.

(** X10: at the end of the input [main] does not stop: every turn finds
    [fgets] returning NULL and goes on to the next one, so after any number
    of turns the program is still running, with no input consumed; the
    working directory, stderr, the file system, the open descriptors and
    [buffer] are as they were. *)
Theorem main_idles_at_end_of_input :
  forall envs w,
    exists w',
      main envs w [] = Running w' []
      /\ cwd w' = cwd w /\ stderr w' = stderr w /\ fs_log w' = fs_log w
      /\ fds w' = fds w /\ buffer w' = buffer w.
Proof.
  induction envs as [|os later IH]; intros w.
  - exists w. repeat split.
  - destruct (IH (display_prompt os w)) as (w' & E & H).
    exists w'. split; [exact E|].
    destruct H as (H1 & H2 & H3 & H4 & H5).
    destruct (display_prompt_frame os w) as (P1 & P2 & P3 & P4 & P5).
    repeat split; congruence.
Qed.

(** X11: no argument passes from one command to the next: a turn of [main]
    that reads a line ends the same way whatever [filename] held when the
    turn began. *)
Theorem turn_ignores_old_filename :
  forall os w old stdin,
    fgets BUFFER_SIZE stdin <> None ->
    main_step os (with_filename old w) stdin = main_step os w stdin.
Proof.
  intros os w old stdin Hline. unfold main_step.
  destruct (fgets BUFFER_SIZE stdin) as [[line stdin1]|]; [|contradiction].
  unfold display_prompt, sys_getcwd.
  destruct (os_getcwd os) as [e|].
  - reflexivity.
  - cbn [cwd with_filename].
    destruct (MAX_PATH_LENGTH <=? String.length (cwd w))%nat; reflexivity.
Qed.

Lemma turn_ignores_old_filename_witness :
  main_step os_plain (with_filename "old" (boot [NUL] [])) (typed "ls")
  = main_step os_plain (boot [NUL] []) (typed "ls").
Proof.
  apply (turn_ignores_old_filename os_plain (boot [NUL] []) "old"
           (typed "ls")).
  vm_compute. discriminate.
Defined.

(** ** What the commands leave alone *)

(** A property of the state that no write to [errno], stdout or stderr
    breaks, nor a [read] of at most [BUFFER_SIZE] bytes into [buffer], is
    kept by the handlers; for those that open or close something, or
    change the file system, when these changes keep it as well. *)
Section Invariant.

Variable P : world -> Prop.
Hypothesis P_errno : forall e w, P w -> P (with_errno e w).
Hypothesis P_out : forall s w, P w -> P (put_out s w).
Hypothesis P_err : forall s w, P w -> P (put_err s w).
Hypothesis P_read :
  forall chunk w,
    (List.length chunk <= BUFFER_SIZE)%nat -> P w ->
    P (with_buffer (store chunk (buffer w)) w).

Lemma do_stat_keeps :
  forall os path w, P w -> P (snd (do_stat os path w)).
Proof.
  intros os path w H. unfold do_stat, sys_stat.
  destruct (os_stat os path); cbn [snd fail]; auto 10.
Qed.

Lemma do_pwd_keeps :
  forall os w, P w -> P (snd (do_pwd os w)).
Proof.
  intros os w H. unfold do_pwd, sys_getcwd.
  destruct (os_getcwd os); cbn [snd fail]; [auto|].
  destruct (MAX_PATH_LENGTH <=? String.length (cwd w))%nat; cbn [snd]; auto.
Qed.

Lemma display_prompt_keeps :
  forall os w, P w -> P (display_prompt os w).
Proof.
  intros os w H. unfold display_prompt, sys_getcwd.
  destruct (os_getcwd os); cbn [fail]; [auto|].
  destruct (MAX_PATH_LENGTH <=? String.length (cwd w))%nat; auto.
Qed.

Lemma ls_entry_keeps :
  forall os dir d_name w, P w -> P (ls_entry os dir d_name w).
Proof.
  intros os dir d_name w H. unfold ls_entry, sys_lstat.
  destruct (PATH_MAX <=? _)%nat; [auto|].
  destruct (os_lstat os _); cbn [fail]; auto.
Qed.

Lemma ls_loop_keeps :
  forall os dir entries w, P w -> P (ls_loop os dir entries w).
Proof.
  intros os dir entries. unfold ls_loop.
  induction entries as [|d_name later IH]; intros w H; simpl.
  - exact H.
  - apply IH, ls_entry_keeps, H.
Qed.

Lemma do_ls_keeps :
  (forall l w, P w -> P (with_dirs l w)) ->
  (forall l w, P w -> P (with_fds l w)) ->
  forall os dirname w, P w -> P (snd (do_ls os dirname w)).
Proof.
  intros P_dirs P_fds os dirname w H. unfold do_ls.
  destruct (os_opendir os _) as [e|d]; cbn [snd]; [auto|].
  set (w3 := ls_loop os _ (ds_entries d) _).
  assert (H3 : P w3) by (subst w3; apply ls_loop_keeps; auto).
  unfold sys_closedir.
  destruct (ds_end d); destruct (negb _);
    destruct (os_closedir os (ds_id d)); cbn [snd fail negb Z.eqb];
    auto 10.
Qed.

Lemma cat_loop_keeps :
  forall os path reads w r w',
    P w -> cat_loop os path reads w = Some (r, w') -> P w'.
Proof.
  intros os path reads.
  induction reads as [|[e|data] later IH]; intros w r w' Hw H;
    cbn [cat_loop] in H.
  - inversion H. auto.
  - inversion H. auto.
  - pose proof (firstn_le_length BUFFER_SIZE data) as Hchunk.
    destruct (firstn BUFFER_SIZE data) as [|c chunk].
    + inversion H. auto.
    + unfold fwrite_buffer in H.
      destruct (List.length _ <? _)%nat; [discriminate|].
      apply IH in H; [exact H|]. auto.
Qed.

Lemma sys_close_keeps :
  (forall l w, P w -> P (with_fds l w)) ->
  forall os fd w, P w -> P (snd (sys_close os fd w)).
Proof.
  intros P_fds os fd w H. unfold sys_close.
  destruct (is_open fd w); [destruct (os_close os fd)|]; cbn [snd fail];
    auto.
Qed.

Lemma do_cat_keeps :
  (forall l w, P w -> P (with_fds l w)) ->
  forall os path w r w',
    P w -> do_cat os path w = Some (r, w') -> P w'.
Proof.
  intros P_fds os path w r w' Hw H. unfold do_cat, sys_open in H.
  destruct (os_open os path) as [e|file].
  - change (-1 <? 0) with true in H. cbv iota in H.
    match type of H with
    | context [sys_close os ?fd ?w0] =>
        assert (Hclose : P (snd (sys_close os fd w0)))
          by (apply sys_close_keeps; auto);
        destruct (sys_close os fd w0) as [c w1]
    end.
    inversion H; subst. exact Hclose.
  - destruct (Z.of_N (f_fd file) <? 0).
    + match type of H with
      | context [sys_close os ?fd ?w0] =>
          assert (Hclose : P (snd (sys_close os fd w0)))
            by (apply sys_close_keeps; auto);
          destruct (sys_close os fd w0) as [c w1]
      end.
      inversion H; subst. exact Hclose.
    + destruct (cat_loop os path (f_reads file) _) as [[[v|] w2]|] eqn:Hloop;
        [| |discriminate].
      * inversion H; subst. apply cat_loop_keeps in Hloop; auto.
      * apply cat_loop_keeps in Hloop; [|auto].
        pose proof (sys_close_keeps P_fds os (Z.of_N (f_fd file)) w2 Hloop)
          as H3.
        destruct (sys_close os (Z.of_N (f_fd file)) w2) as [c w3].
        cbn [snd] in H3. cbv zeta in H.
        destruct (c <? 0);
          match type of H with
          | context [sys_close os ?fd ?w4] =>
              assert (H5 : P (snd (sys_close os fd w4)))
                by (apply sys_close_keeps; auto);
              destruct (sys_close os fd w4) as [c' w5]
          end;
          inversion H; subst; exact H5.
Qed.

Lemma do_mkdir_keeps :
  (forall op w, P w -> P (log_fs op w)) ->
  forall os path w, P w -> P (snd (do_mkdir os path w)).
Proof.
  intros P_log os path w H. unfold do_mkdir, sys_mkdir.
  destruct (os_mkdir os path _); cbn [snd fail Z.eqb Pos.eqb]; auto.
Qed.

Lemma do_rmdir_keeps :
  (forall op w, P w -> P (log_fs op w)) ->
  forall os path w, P w -> P (snd (do_rmdir os path w)).
Proof.
  intros P_log os path w H. unfold do_rmdir, sys_rmdir.
  destruct (os_rmdir os path); cbn [snd fail Z.eqb Pos.eqb]; auto.
Qed.

Lemma do_rm_keeps :
  (forall op w, P w -> P (log_fs op w)) ->
  forall os path w, P w -> P (snd (do_rm os path w)).
Proof.
  intros P_log os path w H. unfold do_rm, sys_unlink.
  destruct (os_unlink os path); cbn [snd fail Z.eqb Pos.eqb]; auto.
Qed.

End Invariant.

(** The ways in which [execute_command] ends: it ran one handler on the
    content of [filename], or it ran none and returned -1. *)
Lemma execute_command_cases :
  forall os buf w r w',
    execute_command os buf w = Some (r, w') ->
    exists arg,
      (fst (sscanf buf "cat %s" (filename w)) = 1
       /\ do_cat os arg (with_filename arg w) = Some (r, w'))
      \/ (fst (sscanf buf "cat %s" (filename w)) <> 1
          /\ (do_stat os arg (with_filename arg w) = (r, w')
              \/ do_ls os arg (with_filename arg w) = (r, w')
              \/ do_pwd os (with_filename arg w) = (r, w')
              \/ (r = Returned (-1)
                  /\ (w' = with_filename arg w
                      \/ exists msg, w' = put_err msg (with_filename arg w)))
              \/ do_mkdir os arg (with_filename arg w) = (r, w')
              \/ do_rmdir os arg (with_filename arg w) = (r, w')
              \/ do_rm os arg (with_filename arg w) = (r, w'))).
Proof.
  intros os buf w r w' H. unfold execute_command, scan in H.
  destruct (sscanf buf "cat %s" (filename w)) as [n1 s1].
  cbn [fst]. cbn [filename with_filename] in H.
  destruct (Z.eqb_spec n1 1) as [E1|N1].
  { exists s1. left. split; [exact E1|exact H]. }
  destruct (sscanf buf "stat %s" s1) as [n2 s2].
  cbn [filename with_filename] in H.
  destruct (n2 =? 1).
  { exists s2. right. split; [exact N1|]. left. injection H as H; exact H. }
  destruct (sscanf buf "mkdir %s" s2) as [n3 s3].
  cbn [filename with_filename] in H.
  destruct (n3 =? 1).
  { exists s3. right. split; [exact N1|]. do 4 right. left. injection H as H; exact H. }
  destruct (sscanf buf "rmdir %s" s3) as [n4 s4].
  cbn [filename with_filename] in H.
  destruct (n4 =? 1).
  { exists s4. right. split; [exact N1|]. do 5 right. left. injection H as H; exact H. }
  destruct (sscanf buf "rm %s" s4) as [n5 s5].
  cbn [filename with_filename] in H.
  destruct (n5 =? 1).
  { exists s5. right. split; [exact N1|]. do 6 right. injection H as H; exact H. }
  destruct (sscanf buf "ls %s" s5) as [n6 s6].
  cbn [filename with_filename] in H.
  destruct ((n6 =? 1) || (strncmp buf "ls" BUFFER_SIZE =? 0)).
  { destruct (strnlen s6 BUFFER_SIZE =? 0)%nat;
      cbn [filename with_filename] in H;
      [exists "."|exists s6]; right; (split; [exact N1|]);
      right; left; injection H as H; exact H. }
  destruct (strncmp buf "pwd" BUFFER_SIZE =? 0).
  { exists s6. right. split; [exact N1|]. do 2 right. left. injection H as H; exact H. }
  exists s6. right. split; [exact N1|]. do 3 right. left.
  destruct (negb _); cbn [with_filename put_err] in H; inversion H;
    (split; [reflexivity|]); [right; eexists|left]; reflexivity.
Qed.

(** X12: a command changes the file system only when it succeeds, and then
    by one operation: after [execute_command] either the file system is
    as before, or the command returned 0 and one operation was done on
    it (a directory made, a directory or a file removed).  So a command
    that does not return 0 leaves the file system as it was. *)
Theorem failed_command_keeps_file_system :
  forall os buf w r w',
    execute_command os buf w = Some (r, w') ->
    fs_log w' = fs_log w
    \/ (r = Returned 0 /\ exists op, fs_log w' = (fs_log w ++ [op])%list).
Proof.
  intros os buf w r w' H.
  destruct (execute_command_cases os buf w r w' H) as [arg Hcases].
  assert (Hcat : forall path w0 r0 w1,
             do_cat os path w0 = Some (r0, w1) -> fs_log w1 = fs_log w0).
  { intros path w0 r0 w1.
    apply (do_cat_keeps (fun x => fs_log x = fs_log w0));
      intros; try assumption; reflexivity. }
  destruct Hcases as [[_ Hc]|[_ Hcases]].
  { left. apply Hcat in Hc. exact Hc. }
  destruct Hcases as [Hc|[Hc|[Hc|[Hc|[Hc|[Hc|Hc]]]]]].
  - left.
    kept (do_stat_keeps (fun x => fs_log x = fs_log w)) Hc.
  - left.
    kept (do_ls_keeps (fun x => fs_log x = fs_log w)) Hc.
  - left.
    kept (do_pwd_keeps (fun x => fs_log x = fs_log w)) Hc.
  - left. destruct Hc as [_ [->|[msg ->]]]; reflexivity.
  - unfold do_mkdir, sys_mkdir in Hc.
    destruct (os_mkdir os arg _); cbn [fail Z.eqb Pos.eqb] in Hc; inversion Hc.
    + left. reflexivity.
    + right. split; [reflexivity|]. eexists. reflexivity.
  - unfold do_rmdir, sys_rmdir in Hc.
    destruct (os_rmdir os arg); cbn [fail Z.eqb Pos.eqb] in Hc; inversion Hc.
    + left. reflexivity.
    + right. split; [reflexivity|]. eexists. reflexivity.
  - unfold do_rm, sys_unlink in Hc.
    destruct (os_unlink os arg); cbn [fail Z.eqb Pos.eqb] in Hc; inversion Hc.
    + left. reflexivity.
    + right. split; [reflexivity|]. eexists. reflexivity.
Qed.

Lemma failed_command_keeps_file_system_witness :
  fs_log (put_err ("Error reading data from d: Is a directory" ++ NL)
            (with_errno 21 (with_fds [3] (with_filename "d" (boot [] [])))))
  = fs_log (boot [] [])
  \/ (Returned (-1) = Returned 0
      /\ exists op,
          fs_log (put_err ("Error reading data from d: Is a directory" ++ NL)
                    (with_errno 21
                       (with_fds [3] (with_filename "d" (boot [] [])))))
          = (fs_log (boot [] []) ++ [op])%list).
Proof.
  apply (failed_command_keeps_file_system os_cat_directory "cat d"
           (boot [] []) (Returned (-1))).
  reflexivity.
Defined.

(** ** Descriptors and streams *)

Lemma filter_absent :
  forall (x : Z) l,
    ~ In x l -> filter (fun y => negb (x =? y)) l = l.
Proof.
  intros x l. induction l as [|y l IH]; intros H; simpl; [reflexivity|].
  destruct (Z.eqb_spec x y) as [->|N].
  - exfalso. apply H. left. reflexivity.
  - cbn [negb]. rewrite IH; [reflexivity|].
    intros Hin. apply H. right. exact Hin.
Qed.

Lemma filter_fresh :
  forall (x : Z) l,
    ~ In x l -> filter (fun y => negb (x =? y)) (x :: l) = l.
Proof.
  intros x l H. simpl. rewrite Z.eqb_refl. cbn [negb].
  apply filter_absent. exact H.
Qed.

Lemma existsb_absent :
  forall (x : Z) l, ~ In x l -> existsb (Z.eqb x) l = false.
Proof.
  intros x l H. destruct (existsb (Z.eqb x) l) eqn:E; [|reflexivity].
  exfalso. apply existsb_exists in E. destruct E as (y & Hin & Hy).
  apply Z.eqb_eq in Hy. subst y. exact (H Hin).
Qed.

Lemma do_ls_closes_descriptor :
  forall os dirname w,
    (forall d, os_opendir os (ls_target dirname) = inr d ->
               ~ In (ds_id d) (fds w)) ->
    fds (snd (do_ls os dirname w)) = fds w.
Proof.
  intros os dirname w Hfresh. unfold do_ls. fold (ls_target dirname).
  destruct (os_opendir os (ls_target dirname)) as [e|d]; [reflexivity|].
  specialize (Hfresh d eq_refl).
  set (w3 := ls_loop os _ (ds_entries d) _).
  assert (H3 : fds w3 = ds_id d :: fds w).
  { subst w3.
    apply (ls_loop_keeps (fun x => fds x = ds_id d :: fds w));
      intros; try assumption; reflexivity. }
  unfold sys_closedir.
  destruct (ds_end d); destruct (negb _);
    destruct (os_closedir os (ds_id d));
    cbn [snd fail negb Z.eqb fds with_fds with_dirs with_errno put_err];
    rewrite H3; apply filter_fresh; exact Hfresh.
Qed.

(** X13: only [cat] can change the table of open file descriptors: after
    a command on a line that does not begin with the letters of [cat], the
    descriptors open are those that were open before.  [stat], [mkdir],
    [rmdir], [rm], [pwd] and the report of a line that is no command open
    none; [ls] closes, on every path, the descriptor that [opendir] opened
    for the stream.  (The descriptor [opendir] hands out is a new one.) *)
Theorem only_cat_touches_descriptors :
  forall os buf w r w',
    starts_with "cat" buf = false ->
    (forall path d, os_opendir os path = inr d -> ~ In (ds_id d) (fds w)) ->
    execute_command os buf w = Some (r, w') ->
    fds w' = fds w.
Proof.
  intros os buf w r w' Hverb Hfresh H.
  destruct (execute_command_cases os buf w r w' H) as [arg Hcases].
  destruct Hcases as [[Hc _]|[_ Hcases]].
  { exfalso. unfold sscanf in Hc.
    destruct (sscanf_miss "cat" buf (filename w) eq_refl Hverb)
      as (n & E & Hn).
    cbn [append] in E. rewrite E in Hc. cbn [fst] in Hc. subst n.
    discriminate. }
  destruct Hcases as [Hc|[Hc|[Hc|[Hc|[Hc|[Hc|Hc]]]]]].
  - kept (do_stat_keeps (fun x => fds x = fds w)) Hc.
  - pose proof (do_ls_closes_descriptor os arg (with_filename arg w)
                  (Hfresh (ls_target arg))) as K.
    rewrite Hc in K. exact K.
  - kept (do_pwd_keeps (fun x => fds x = fds w)) Hc.
  - destruct Hc as [_ [->|[msg ->]]]; reflexivity.
  - kept (do_mkdir_keeps (fun x => fds x = fds w)) Hc.
  - kept (do_rmdir_keeps (fun x => fds x = fds w)) Hc.
  - kept (do_rm_keeps (fun x => fds x = fds w)) Hc.
Qed.

Lemma only_cat_touches_descriptors_witness :
  fds (snd (do_ls os_listing_ok "." (with_filename "." (boot [] []))))
  = fds (boot [] []).
Proof.
  apply (only_cat_touches_descriptors os_listing_ok "ls" (boot [] [])
           (fst (do_ls os_listing_ok "." (with_filename "." (boot [] []))))).
  - reflexivity.
  - intros path d Hd Hin. exact Hin.
  - vm_compute. reflexivity.
Defined.

(** X14: [do_ls] leaves no directory stream open: whether [opendir] fails,
    the listing succeeds, an entry cannot be examined, [readdir] fails or
    [closedir] reports an error, the streams open afterwards are those
    that were open before.  (The stream [opendir] hands out is a new
    one.) *)
Theorem ls_closes_its_stream :
  forall os dirname w,
    (forall d, os_opendir os (ls_target dirname) = inr d ->
               ~ In (ds_id d) (dirs w)) ->
    dirs (snd (do_ls os dirname w)) = dirs w.
Proof.
  intros os dirname w Hfresh. unfold do_ls. fold (ls_target dirname).
  destruct (os_opendir os (ls_target dirname)) as [e|d]; [reflexivity|].
  specialize (Hfresh d eq_refl).
  set (w3 := ls_loop os _ (ds_entries d) _).
  assert (H3 : dirs w3 = ds_id d :: dirs w).
  { subst w3.
    apply (ls_loop_keeps (fun x => dirs x = ds_id d :: dirs w));
      intros; try assumption; reflexivity. }
  unfold sys_closedir.
  destruct (ds_end d); destruct (negb _);
    destruct (os_closedir os (ds_id d));
    cbn [snd fail negb Z.eqb dirs with_dirs with_fds with_errno put_err];
    rewrite H3; apply filter_fresh; exact Hfresh.
Qed.

Lemma ls_closes_its_stream_witness :
  dirs (snd (do_ls os_entry_vanishes "" (boot [] []))) = dirs (boot [] []).
Proof.
  apply (ls_closes_its_stream os_entry_vanishes "" (boot [] [])).
  intros d Hd Hin. exact Hin.
Defined.

Lemma sys_close_releases :
  forall os fd w l,
    fds w = fd :: l -> ~ In fd l -> fds (snd (sys_close os fd w)) = l.
Proof.
  intros os fd w l Hw Hfresh. unfold sys_close, is_open.
  rewrite Hw. cbn [existsb]. rewrite Z.eqb_refl. cbn [orb].
  rewrite (filter_fresh _ _ Hfresh).
  destruct (os_close os fd); reflexivity.
Qed.

Lemma sys_close_closed :
  forall os fd w,
    ~ In fd (fds w) -> fds (snd (sys_close os fd w)) = fds w.
Proof.
  intros os fd w Hfresh. unfold sys_close, is_open.
  rewrite (existsb_absent _ _ Hfresh). reflexivity.
Qed.

(** X15: when [do_cat] runs to the end of the file (it then returns no
    value), the descriptor it opened is closed again: the descriptors open
    afterwards are those that were open before.  (The descriptor [open]
    hands out is a new one.) *)
Theorem cat_closes_descriptor_at_end_of_file :
  forall os path w w',
    (forall file, os_open os path = inr file ->
                  ~ In (Z.of_N (f_fd file)) (fds w)) ->
    do_cat os path w = Some (Indeterminate, w') ->
    fds w' = fds w.
Proof.
  intros os path w w' Hfresh H. unfold do_cat, sys_open in H.
  destruct (os_open os path) as [e|file].
  - change (-1 <? 0) with true in H. cbv iota in H.
    destruct (sys_close os (-1) _); discriminate.
  - specialize (Hfresh file eq_refl).
    destruct (Z.of_N (f_fd file) <? 0).
    + destruct (sys_close os _ _); discriminate.
    + destruct (cat_loop os path (f_reads file) _) as [[[v|] w2]|] eqn:Hloop;
        [discriminate| |discriminate].
      apply (cat_loop_keeps
               (fun x => fds x = Z.of_N (f_fd file) :: fds w)) in Hloop;
        try (intros; try assumption; reflexivity).
      pose proof (sys_close_releases os _ w2 _ Hloop Hfresh) as C1.
      destruct (sys_close os (Z.of_N (f_fd file)) w2) as [c w3].
      cbn [snd] in C1. cbv zeta in H.
      assert (C2 : forall w4, fds w4 = fds w ->
                   fds (snd (sys_close os (Z.of_N (f_fd file)) w4)) = fds w).
      { intros w4 E. rewrite sys_close_closed; [exact E|].
        rewrite E. exact Hfresh. }
      destruct (c <? 0);
        match type of H with
        | context [sys_close os ?fd ?w4] =>
            specialize (C2 w4 C1); destruct (sys_close os fd w4) as [c' w5]
        end;
        cbn [snd] in C2; inversion H; subst; exact C2.
Qed.

Lemma cat_closes_descriptor_at_end_of_file_witness :
  exists w',
    do_cat os_empty_file "e" (boot [] []) = Some (Indeterminate, w')
    /\ fds w' = fds (boot [] []).
Proof.
  eexists. split; [reflexivity|].
  apply (cat_closes_descriptor_at_end_of_file os_empty_file "e" (boot [] [])).
  - intros file Hopen Hin. exact Hin.
  - reflexivity.
Defined.

(** ** More on listing a directory *)

Lemma ls_entry_errno_stays :
  forall os dir d_name w,
    0 < errno w -> 0 < errno (ls_entry os dir d_name w).
Proof.
  intros os dir d_name w H. unfold ls_entry, sys_lstat.
  destruct (PATH_MAX <=? _)%nat; [exact H|].
  destruct (os_lstat os _); cbn [fail errno put_err put_out with_errno];
    [lia|exact H].
Qed.

Lemma ls_loop_errno_stays :
  forall os dir entries w,
    0 < errno w -> 0 < errno (ls_loop os dir entries w).
Proof.
  intros os dir entries. unfold ls_loop.
  induction entries as [|d_name later IH]; intros w H; simpl.
  - exact H.
  - apply IH, ls_entry_errno_stays, H.
Qed.

Lemma ls_loop_errno_set :
  forall os dir entries d_name e w,
    In d_name entries ->
    (String.length dir + 1 + String.length d_name < PATH_MAX)%nat ->
    os_lstat os (dir ++ "/" ++ d_name) = inl e ->
    0 < errno (ls_loop os dir entries w).
Proof.
  intros os dir entries d_name e. unfold ls_loop.
  induction entries as [|x later IH]; intros w Hin Hfit Hstat;
    [contradiction|].
  simpl. destruct Hin as [->|Hin].
  - apply (ls_loop_errno_stays os dir later).
    unfold ls_entry, sys_lstat.
    apply Nat.leb_gt in Hfit. rewrite Hfit, Hstat.
    cbn [fail errno put_err with_errno]. lia.
  - apply IH; assumption.
Qed.

(** X16: one entry that [lstat] cannot examine makes the whole listing
    fail: when [lstat] fails on an entry of the directory whose path fits
    in [PATH_MAX] bytes, [do_ls] returns -1, even though the stream is read
    to its end and closed.  The error number of [lstat] is still in
    [errno] when the loop ends, and [errno] is what the test after the
    loop looks at. *)
Theorem ls_fails_when_an_entry_cannot_be_examined :
  forall os dirname w d d_name e,
    os_opendir os (ls_target dirname) = inr d ->
    In d_name (ds_entries d) ->
    (String.length (ls_target dirname) + 1 + String.length d_name
     < PATH_MAX)%nat ->
    os_lstat os (ls_target dirname ++ "/" ++ d_name) = inl e ->
    fst (do_ls os dirname w) = Returned (-1).
Proof.
  intros os dirname w d d_name e Hopen Hin Hfit Hstat.
  unfold do_ls. fold (ls_target dirname). rewrite Hopen.
  set (w3 := ls_loop os _ (ds_entries d) _).
  assert (H3 : 0 < errno w3)
    by (subst w3; eapply ls_loop_errno_set; eassumption).
  assert (H4 : negb (errno match ds_end d with
                           | Some e' => with_errno (Z.pos e') w3
                           | None => w3
                           end =? 0) = true).
  { destruct (ds_end d); cbn [errno with_errno]; [reflexivity|].
    apply negb_true_iff, Z.eqb_neq. lia. }
  rewrite H4. destruct (sys_closedir os (ds_id d) _). reflexivity.
Qed.

Lemma ls_fails_when_an_entry_cannot_be_examined_witness :
  fst (do_ls os_entry_vanishes "" (boot [] [])) = Returned (-1).
Proof.
  apply (ls_fails_when_an_entry_cannot_be_examined os_entry_vanishes ""
           (boot [] []) (one_entry_dir None) "a" ENOENT).
  - reflexivity.
  - simpl. left. reflexivity.
  - apply Nat.ltb_lt. vm_compute. reflexivity.
  - reflexivity.
Defined.

Lemma ls_loop_stdout :
  forall os dir entries w,
    stdout (ls_loop os dir entries w) = stdout w ++ listing os dir entries.
Proof.
  intros os dir entries. unfold ls_loop.
  induction entries as [|d_name later IH]; intros w;
    cbn [fold_left listing].
  - symmetry. apply append_nil_r.
  - rewrite IH. unfold ls_entry, sys_lstat.
    destruct (PATH_MAX <=? _)%nat; [reflexivity|].
    destruct (os_lstat os _); cbn [fail stdout put_err put_out with_errno];
      [reflexivity|].
    apply append_assoc_string.
Qed.

(** X17: what [do_ls] writes to stdout is the listing of the directory and
    nothing else: one line for each entry that [lstat] describes, in the
    order in which the stream yields the entries, whether or not the
    command then succeeds; when the directory cannot be opened nothing is
    written to stdout.  All diagnostics go to stderr. *)
Theorem ls_writes_the_listing :
  forall os dirname w,
    stdout (snd (do_ls os dirname w))
    = stdout w
      ++ match os_opendir os (ls_target dirname) with
         | inr d => listing os (ls_target dirname) (ds_entries d)
         | inl _ => ""
         end.
Proof.
  intros os dirname w. unfold do_ls. fold (ls_target dirname).
  destruct (os_opendir os (ls_target dirname)) as [e|d].
  - symmetry. apply append_nil_r.
  - set (w3 := ls_loop os _ (ds_entries d) _).
    assert (H3 : stdout w3
                 = stdout w ++ listing os (ls_target dirname) (ds_entries d))
      by (subst w3; rewrite ls_loop_stdout; reflexivity).
    unfold sys_closedir.
    destruct (ds_end d); destruct (negb _);
      destruct (os_closedir os (ds_id d));
      cbn [snd fail negb Z.eqb]; exact H3.
Qed.

(** ** More on showing a file *)

Lemma cat_loop_value :
  forall os path reads w v w',
    cat_loop os path reads w = Some (Some v, w') -> v = -1.
Proof.
  intros os path reads.
  induction reads as [|[e|data] later IH]; intros w v w' H;
    cbn [cat_loop] in H.
  - discriminate.
  - inversion H. reflexivity.
  - destruct (firstn BUFFER_SIZE data) as [|c chunk]; [discriminate|].
    destruct (fwrite_buffer _ _ _); [|discriminate].
    eapply IH. exact H.
Qed.

(** X18: [do_cat] and [do_stat] never return 0: [do_stat] returns -1 or
    falls off its end without a value, and so does [do_cat] whenever it
    returns at all. *)
Theorem cat_and_stat_never_return_zero :
  forall os path w,
    fst (do_stat os path w) <> Returned 0
    /\ (forall r w', do_cat os path w = Some (r, w') -> r <> Returned 0).
Proof.
  intros os path w. split.
  - unfold do_stat, sys_stat. destruct (os_stat os path); discriminate.
  - intros r w' H. unfold do_cat, sys_open in H.
    destruct (os_open os path) as [e|file].
    + change (-1 <? 0) with true in H. cbv iota in H.
      destruct (sys_close os (-1) _). inversion H. discriminate.
    + destruct (Z.of_N (f_fd file) <? 0).
      * destruct (sys_close os _ _). inversion H. discriminate.
      * destruct (cat_loop os path (f_reads file) _) as [[[v|] w2]|] eqn:Hloop;
          [| |discriminate].
        -- apply cat_loop_value in Hloop. inversion H. subst. discriminate.
        -- destruct (sys_close os _ w2) as [c w3]. cbv zeta in H.
           destruct (c <? 0); destruct (sys_close os _ _); inversion H;
             discriminate.
Qed.

Lemma string_of_list_app :
  forall a b,
    string_of_list_ascii (a ++ b)
    = string_of_list_ascii a ++ string_of_list_ascii b.
Proof.
  induction a as [|c a IH]; intros b; simpl; [|rewrite IH]; reflexivity.
Qed.

(** X19: [do_cat] on a file that one [read] delivers whole, with the
    memory behind [buffer] mapped far enough: stdout receives the bytes of
    the file, then the bytes that follow them in memory up to
    [BUFFER_SIZE * (BUFFER_SIZE - 1)] bytes in all, then a newline; no
    value is returned. *)
Theorem cat_writes_the_file_then_memory :
  forall os path w fd data,
    os_open os path = inr (mkFile fd [ReadOk data]) ->
    data <> [] ->
    (List.length data <= BUFFER_SIZE)%nat ->
    List.length (cells (buffer w)) = BUFFER_SIZE ->
    (BUFFER_SIZE * (BUFFER_SIZE - 2) <= List.length (above (buffer w)))%nat ->
    exists stale w',
      do_cat os path w = Some (Indeterminate, w')
      /\ stdout w' = stdout w ++ string_of_list_ascii data ++ stale ++ NL
      /\ String.length stale
         = (BUFFER_SIZE * (BUFFER_SIZE - 1) - List.length data)%nat.
Proof.
  intros os path w fd data Hopen Hdata Hlen Hcells Habove.
  unfold do_cat, sys_open. rewrite Hopen. cbn [f_fd f_reads].
  destruct (Z.ltb_spec (Z.of_N fd) 0) as [Hneg|_]; [lia|].
  cbn [cat_loop]. rewrite (firstn_all2 data) by exact Hlen.
  destruct data as [|c data']; [contradiction|].
  set (data := c :: data') in *.
  unfold fwrite_buffer. cbn [buffer with_buffer with_fds].
  unfold upwards, store. cbn [cells above].
  set (total := (BUFFER_SIZE * (BUFFER_SIZE - 1))%nat).
  set (tail := (skipn (List.length data) (cells (buffer w))
                ++ above (buffer w))%list).
  assert (Htail : (total - List.length data <= List.length tail)%nat).
  { subst tail total. rewrite length_app, length_skipn, Hcells.
    unfold BUFFER_SIZE in *. lia. }
  rewrite <- app_assoc. fold tail.
  assert (Hmapped : (List.length (data ++ tail) <? total)%nat = false).
  { apply Nat.ltb_ge. rewrite length_app. lia. }
  rewrite Hmapped.
  assert (Hfirst : firstn total (data ++ tail)
                   = (data ++ firstn (total - List.length data) tail)%list).
  { rewrite firstn_app. rewrite (firstn_all2 data); [reflexivity|].
    subst total. unfold BUFFER_SIZE in *. lia. }
  rewrite Hfirst, string_of_list_app.
  exists (string_of_list_ascii (firstn (total - List.length data) tail)).
  match goal with
  | |- context [sys_close os ?fd0 ?w0] =>
      pose proof (sys_close_silent os fd0 w0) as [Ho _];
      destruct (sys_close os fd0 w0) as [c1 w1]
  end.
  cbn [snd] in Ho.
  match goal with
  | |- context [sys_close os ?fd0 ?w0] =>
      pose proof (sys_close_silent os fd0 w0) as [Ho2 _];
      destruct (sys_close os fd0 w0) as [c2 w2]
  end.
  cbn [snd] in Ho2. exists w2. split; [reflexivity|]. split.
  - rewrite Ho2.
    replace (stdout (if c1 <? 0 then put_err _ w1 else w1)) with (stdout w1)
      by (destruct (c1 <? 0); reflexivity).
    rewrite Ho. cbn [stdout put_out with_buffer with_fds].
    rewrite !append_assoc_string. reflexivity.
  - rewrite length_string_of_list, length_firstn. lia.
Qed.

Lemma cat_writes_the_file_then_memory_witness :
  exists stale w',
    do_cat os_small_file "f" roomy_world = Some (Indeterminate, w')
    /\ stdout w'
       = stdout roomy_world ++ string_of_list_ascii ["a"; "b"; "c"]%char
         ++ stale ++ NL
    /\ String.length stale
       = (BUFFER_SIZE * (BUFFER_SIZE - 1) - List.length ["a"; "b"; "c"]%char)%nat.
Proof.
  apply (cat_writes_the_file_then_memory os_small_file "f" roomy_world 3).
  - reflexivity.
  - discriminate.
  - apply Nat.leb_le. reflexivity.
  - apply repeat_length.
  - apply Nat.leb_le. vm_compute. reflexivity.
Defined.

(** ** The prompt and [pwd] *)

(** X20: [do_pwd] prints what the prompt prints, colour escapes included,
    and a newline: when it returns 0 the state is the one
    [display_prompt] would leave, with a newline added to stdout; otherwise
    it returns -1 and neither [do_pwd] nor [display_prompt] writes to
    stdout. *)
Theorem pwd_prints_the_prompt :
  forall os w,
    (fst (do_pwd os w) = Returned 0
     /\ snd (do_pwd os w) = put_out NL (display_prompt os w))
    \/ (fst (do_pwd os w) = Returned (-1)
        /\ stdout (snd (do_pwd os w)) = stdout w
        /\ stdout (display_prompt os w) = stdout w).
Proof.
  intros os w. unfold do_pwd, display_prompt, sys_getcwd.
  destruct (os_getcwd os); [right; repeat split|].
  destruct (MAX_PATH_LENGTH <=? String.length (cwd w))%nat;
    [right|left]; repeat split.
Qed.

(** X21: in a working directory whose path has [MAX_PATH_LENGTH] bytes or
    more the shell shows no prompt, and [pwd] fails with one line on
    stderr: the path does not fit in the array given to [getcwd]. *)
Theorem long_working_directory_hides_prompt :
  forall os w,
    (MAX_PATH_LENGTH <= String.length (cwd w))%nat ->
    stdout (display_prompt os w) = stdout w
    /\ fst (do_pwd os w) = Returned (-1)
    /\ stdout (snd (do_pwd os w)) = stdout w
    /\ exists reason,
        stderr (snd (do_pwd os w))
        = stderr w ++ "Error outputting current directory: " ++ reason ++ NL.
Proof.
  intros os w H. apply Nat.leb_le in H.
  unfold do_pwd, display_prompt, sys_getcwd. rewrite H.
  destruct (os_getcwd os); cbn [fst snd fail];
    (split; [reflexivity|]); (split; [reflexivity|]);
    (split; [reflexivity|]); eexists; reflexivity.
Qed.

Lemma long_working_directory_hides_prompt_witness :
  stdout (display_prompt os_plain deep_world) = stdout deep_world
  /\ fst (do_pwd os_plain deep_world) = Returned (-1)
  /\ stdout (snd (do_pwd os_plain deep_world)) = stdout deep_world
  /\ exists reason,
      stderr (snd (do_pwd os_plain deep_world))
      = stderr deep_world ++ "Error outputting current directory: "
        ++ reason ++ NL.
Proof.
  apply (long_working_directory_hides_prompt os_plain deep_world).
  apply Nat.leb_le. vm_compute. reflexivity.
Defined.

(** ** Lines that are no command *)

Lemma unknown_command_parts :
  forall line,
    unknown_command line = true ->
    leading_space line = false
    /\ verb_letters (take_word line) = false
    /\ starts_with "cd" line = false
    /\ line <> "pwd" /\ line <> "exit" /\ line <> "".
Proof.
  intros line H. unfold unknown_command in H.
  repeat (apply andb_prop in H; destruct H as [H ?]).
  repeat match goal with
         | H : negb _ = true |- _ => apply negb_true_iff in H
         end.
  repeat split; try assumption; apply String.eqb_neq; assumption.
Qed.

(** X22: typing a line that is no command writes one line to stderr,
    "myshell: <line>: No such file or directory" with the line as stripped,
    and changes nothing else: stdout holds only the prompt more, and the
    working directory, the file system and the open descriptors are as
    before.  The turn goes on to the next line. *)
Theorem typed_unknown_command_only_reports :
  forall os w s rest,
    one_line s = true ->
    (String.length s < BUFFER_SIZE - 1)%nat ->
    unknown_command (rstrip s) = true ->
    exists w',
      main_step os w (typed s ++ rest)%list = Running w' rest
      /\ stderr w'
         = stderr w ++ "myshell: " ++ rstrip s
           ++ ": No such file or directory" ++ NL
      /\ stdout w' = stdout (display_prompt os w)
      /\ cwd w' = cwd w /\ fs_log w' = fs_log w /\ fds w' = fds w.
Proof.
  intros os w s rest Hs Hlen Hunknown.
  destruct (unknown_command_parts _ Hunknown)
    as (Hlead & Hverb & Hcd & Hpwd & Hexit & Hne).
  destruct (typed_line_read (buffer w) s rest Hs Hlen Hne)
    as (line & stripped & Hf & Hstrip & Hstr & _).
  rewrite <- Hstr in *.
  rewrite (main_step_command os w _ line rest stripped Hf Hstrip Hcd Hexit).
  unfold ready.
  change (string_at stripped) with (cstring (upwards stripped)) in *.
  rewrite (no_call_exec os _ (upwards stripped) Hlead Hverb Hpwd).
  cbn [perform after_command].
  assert (Hlen0 : (strnlen (cstring (upwards stripped)) BUFFER_SIZE =? 0)%nat
                  = false).
  { destruct (cstring (upwards stripped)); [contradiction|reflexivity]. }
  rewrite Hlen0. cbn [negb].
  eexists. split; [reflexivity|].
  cbn [stderr stdout cwd fs_log fds put_err with_filename with_buffer].
  destruct (display_prompt_frame os w) as (-> & -> & -> & -> & _).
  repeat split.
Qed.

Lemma typed_unknown_command_only_reports_witness :
  exists w',
    main_step os_plain (boot [] []) (typed "frobnicate now  " ++ typed "ls")%list
    = Running w' (typed "ls")
    /\ stderr w'
       = stderr (boot [] []) ++ "myshell: " ++ rstrip "frobnicate now  "
         ++ ": No such file or directory" ++ NL
    /\ stdout w' = stdout (display_prompt os_plain (boot [] []))
    /\ cwd w' = cwd (boot [] []) /\ fs_log w' = fs_log (boot [] [])
    /\ fds w' = fds (boot [] []).
Proof.
  apply (typed_unknown_command_only_reports os_plain (boot [] [])
           "frobnicate now  " (typed "ls")).
  - reflexivity.
  - simpl. unfold BUFFER_SIZE. lia.
  - reflexivity.
Defined.

(** ** Invalid memory accesses *)

Lemma execute_command_fault :
  forall os buf w,
    execute_command os buf w = None ->
    fst (sscanf buf "cat %s" (filename w)) = 1.
Proof.
  intros os buf w H. unfold execute_command, scan in H.
  destruct (sscanf buf "cat %s" (filename w)) as [n1 s1].
  cbn [fst]. destruct (Z.eqb_spec n1 1) as [E|_]; [exact E|].
  destruct (sscanf buf "stat %s" _) as [n2 s2].
  destruct (n2 =? 1); [discriminate|].
  destruct (sscanf buf "mkdir %s" _) as [n3 s3].
  destruct (n3 =? 1); [discriminate|].
  destruct (sscanf buf "rmdir %s" _) as [n4 s4].
  destruct (n4 =? 1); [discriminate|].
  destruct (sscanf buf "rm %s" _) as [n5 s5].
  destruct (n5 =? 1); [discriminate|].
  destruct (sscanf buf "ls %s" _) as [n6 s6].
  destruct ((n6 =? 1) || _); [discriminate|].
  destruct (strncmp buf "pwd" BUFFER_SIZE =? 0); discriminate.
Qed.

Lemma scanned_verb :
  forall v buf dest,
    ordinary v = true ->
    fst (sscanf buf (v ++ " %s") dest) = 1 -> starts_with v buf = true.
Proof.
  intros v buf dest Hv H.
  destruct (starts_with v buf) eqn:E; [reflexivity|].
  destruct (sscanf_miss v buf dest Hv E) as (n & Hn & Hone).
  unfold sscanf in H. rewrite Hn in H. cbn [fst] in H. subst n.
  discriminate.
Qed.

(** X23: among the memory accesses the embedding follows (those to
    [buffer] and around it, and the one through the result of [getpwuid]),
    a turn of [main] on a typed line that holds something other than white
    space makes an invalid one only in two cases: the line begins with the
    letters of [cat] (the handler writes out
    [BUFFER_SIZE * (BUFFER_SIZE - 1)] bytes starting at [buffer]), or it
    begins with [cd] and the user database has no entry for the user. *)
Theorem only_cat_and_cd_can_fault :
  forall os w s rest,
    one_line s = true ->
    (String.length s < BUFFER_SIZE - 1)%nat ->
    rstrip s <> "" ->
    main_step os w (typed s ++ rest)%list = Fault ->
    starts_with "cat" (rstrip s) = true
    \/ (starts_with "cd" (rstrip s) = true /\ getpwuid_dir os = None).
Proof.
  intros os w s rest Hs Hlen Hne H.
  destruct (typed_line_read (buffer w) s rest Hs Hlen Hne)
    as (line & stripped & Hf & Hstrip & Hstr & _).
  rewrite (main_step_line os w _ line rest stripped Hf Hstrip) in H.
  cbv zeta in H. rewrite Hstr in H.
  unfold scan in H. cbn [filename ready with_filename] in H.
  destruct (sscanf (rstrip s) "cd %s" "") as [n stored] eqn:Hscan.
  destruct ((n =? 1) || (strncmp (rstrip s) "cd" BUFFER_SIZE =? 0)) eqn:Hcd.
  - right.
    destruct (starts_with "cd" (rstrip s)) eqn:Estart.
    + split; [reflexivity|].
      unfold do_cd in H. destruct (getpwuid_dir os); [|reflexivity].
      match type of H with
      | context [(strnlen ?f MAX_PATH_LENGTH =? 0)%nat] =>
          destruct (strnlen f MAX_PATH_LENGTH =? 0)%nat
      end;
        destruct (sys_chdir os _ _) as [c w6]; destruct (c <? 0);
        discriminate.
    + exfalso. rewrite <- Hstr in Estart.
      pose proof (other_line_is_not_cd (upwards stripped) Estart) as Hline.
      unfold is_cd_line in Hline. fold (string_at stripped) in Hline.
      rewrite Hstr, Hscan in Hline. cbn [fst] in Hline. congruence.
  - destruct (strncmp (rstrip s) "exit" BUFFER_SIZE =? 0); [discriminate|].
    left.
    destruct (execute_command os (rstrip s) _) as [[r w6]|] eqn:Hexec;
      [discriminate|].
    apply execute_command_fault in Hexec.
    apply (scanned_verb "cat" _ _ eq_refl Hexec).
Qed.

Lemma only_cat_and_cd_can_fault_witness :
  starts_with "cat" (rstrip "cat f") = true
  \/ (starts_with "cd" (rstrip "cat f") = true
      /\ getpwuid_dir os_one_byte_file = None).
Proof.
  apply (only_cat_and_cd_can_fault os_one_byte_file (boot [] []) "cat f" []).
  - reflexivity.
  - simpl. unfold BUFFER_SIZE. lia.
  - simpl. discriminate.
  - vm_compute. reflexivity.
Defined.

(** ** More on the handlers *)

(** X25: [do_ls] does not depend on the error number an earlier call left
    in [errno]: it ends with the same value and in the same state whatever
    [errno] holds on entry, since [errno] is set before it is read on every
    path. *)
Theorem ls_ignores_stale_errno :
  forall os dirname e w,
    do_ls os dirname (with_errno e w) = do_ls os dirname w.
Proof.
  intros os dirname e w. unfold do_ls.
  destruct (os_opendir os _) as [e'|d]; reflexivity.
Qed.

(** X26: the report of [do_stat] tells neither the size nor the type of
    the file: on two systems that give the same text for times and whose
    answers for the path agree on block size, blocks, links, inode and
    modification time, [do_stat] ends in the same state, whatever
    [st_size] and [st_mode] are.  (The field labelled "Size" is
    [st_blksize].) *)
Theorem stat_report_ignores_size_and_type :
  forall os os' path w sb sb',
    ctime os = ctime os' ->
    os_stat os path = inr sb -> os_stat os' path = inr sb' ->
    st_blksize sb = st_blksize sb' -> st_blocks sb = st_blocks sb' ->
    st_nlink sb = st_nlink sb' -> st_ino sb = st_ino sb' ->
    st_mtime sb = st_mtime sb' ->
    do_stat os path w = do_stat os' path w.
Proof.
  intros os os' path w sb sb' Htime Hs Hs' Hsize Hblocks Hlinks Hino Hmtime.
  unfold do_stat, sys_stat. rewrite Hs, Hs'.
  rewrite Htime, Hsize, Hblocks, Hlinks, Hino, Hmtime. reflexivity.
Qed.

Lemma stat_report_ignores_size_and_type_witness :
  do_stat os_stat_file "x" (boot [] [])
  = do_stat os_stat_directory "x" (boot [] []).
Proof.
  apply (stat_report_ignores_size_and_type os_stat_file os_stat_directory "x"
           (boot [] []) (regular 10)
           (mkStat (Z.lor S_IFDIR 493) 4096 4096 8 1 1000 0));
    reflexivity.
Defined.

(** ** Lines without argument, and two turns in a row *)

Lemma typed_bare_line :
  forall (r0 : region) verb trail rest,
    ordinary verb = true -> verb <> "" -> one_line verb = true ->
    blanks trail = true ->
    (String.length (verb ++ trail) < BUFFER_SIZE - 1)%nat ->
    exists line stripped,
      fgets BUFFER_SIZE (typed (verb ++ trail) ++ rest)%list
      = Some (line, rest)
      /\ fst (strip_trailing_whitespace (store line r0)) = Some stripped
      /\ string_at stripped = verb.
Proof.
  intros r0 verb trail rest Hverb Hne Hline Htrail Hlen.
  assert (Hrs : rstrip (verb ++ trail) = verb).
  { rewrite rstrip_app_blanks by exact Htrail. apply rstrip_word, Hverb. }
  destruct (typed_line_read r0 (verb ++ trail) rest)
    as (line & stripped & Hf & Hs & Hstr & _).
  - apply one_line_app; [exact Hline|apply blanks_one_line, Htrail].
  - exact Hlen.
  - rewrite Hrs. exact Hne.
  - exists line, stripped. split; [exact Hf|]. split; [exact Hs|].
    rewrite Hstr. exact Hrs.
Qed.

(** C8: the loop of [main] also ends without [exit].  When the user
    database has no entry for the user, [getpwuid] returns NULL; on the
    line [cd] (trailing blanks or not) [do_cd] reads [p->pw_dir] through
    that pointer, and the turn ends in an invalid memory access: no
    failure is reported, no later line is read, and the program has not
    ended by [exit(EXIT_SUCCESS)]. *)
Theorem cd_without_passwd_entry_ends_the_shell :
  forall os later w trail rest,
    getpwuid_dir os = None ->
    blanks trail = true ->
    (String.length ("cd" ++ trail) < BUFFER_SIZE - 1)%nat ->
    command_line w (typed ("cd" ++ trail) ++ rest)%list = Some "cd"
    /\ main_step os w (typed ("cd" ++ trail) ++ rest)%list = Fault
    /\ main (os :: later) w (typed ("cd" ++ trail) ++ rest)%list = Fault.
Proof.
  intros os later w trail rest Hpw Htrail Hlen.
  destruct (typed_bare_line (buffer w) "cd" trail rest)
    as (line & stripped & Hf & Hs & Hstr); auto; try discriminate.
  assert (Hstep : main_step os w (typed ("cd" ++ trail) ++ rest)%list = Fault).
  { rewrite (main_step_line os w _ line rest stripped Hf Hs).
    cbv zeta. rewrite Hstr.
    pose proof (scan_hit "cd" "" (ready os stripped w) eq_refl) as E.
    cbn [append skip_space] in E. rewrite E. clear E.
    change ((EOF =? 1) || (strncmp "cd" "cd" BUFFER_SIZE =? 0)) with true.
    cbv iota. cbn [filename with_filename ready].
    unfold do_cd. rewrite Hpw. reflexivity. }
  split.
  - unfold command_line. rewrite Hf, Hs, Hstr. reflexivity.
  - split; [exact Hstep|]. cbn [main]. rewrite Hstep. reflexivity.
Qed.

Lemma cd_without_passwd_entry_ends_the_shell_witness :
  command_line (boot [NUL] []) (typed "cd" ++ typed "exit")%list = Some "cd"
  /\ main_step (with_home None os_plain) (boot [NUL] [])
       (typed "cd" ++ typed "exit")%list = Fault
  /\ main [with_home None os_plain; os_plain] (boot [NUL] [])
       (typed "cd" ++ typed "exit")%list = Fault.
Proof.
  apply (cd_without_passwd_entry_ends_the_shell (with_home None os_plain)
           [os_plain] (boot [NUL] []) "" (typed "exit")).
  - reflexivity.
  - reflexivity.
  - simpl. unfold BUFFER_SIZE. lia.
Defined.

Lemma typed_pwd_turn :
  forall os w trail rest,
    blanks trail = true ->
    (String.length ("pwd" ++ trail) < BUFFER_SIZE - 1)%nat ->
    exists stripped,
      string_at stripped = "pwd"
      /\ main_step os w (typed ("pwd" ++ trail) ++ rest)%list
         = Running
             (snd (do_pwd os
                     (with_filename ""
                        (with_buffer stripped (display_prompt os w)))))
             rest.
Proof.
  intros os w trail rest Htrail Hlen.
  destruct (typed_bare_line (buffer w) "pwd" trail rest)
    as (line & stripped & Hf & Hs & Hstr); auto; try discriminate.
  exists stripped. split; [exact Hstr|].
  rewrite (main_step_command os w _ line rest stripped Hf Hs);
    rewrite Hstr; [|reflexivity|discriminate].
  unfold ready.
  change (execute_command os "pwd"
            (with_filename "" (with_buffer stripped (display_prompt os w))))
    with (Some (do_pwd os
                  (with_filename ""
                     (with_buffer stripped (display_prompt os w))))).
  cbn [after_command]. destruct (do_pwd os _). reflexivity.
Qed.

(** X27: typing [ls] alone, possibly followed by blanks, lists the
    directory "."; typing [pwd] alone, possibly followed by blanks, runs
    [do_pwd].  Either way the handler starts once the prompt is written
    and [buffer] holds the stripped line, and the turn goes on with the
    input that follows the line. *)
Theorem typed_bare_ls_and_pwd :
  forall os w trail rest,
    blanks trail = true ->
    (String.length ("pwd" ++ trail) < BUFFER_SIZE - 1)%nat ->
    (exists stripped,
       string_at stripped = "ls"
       /\ main_step os w (typed ("ls" ++ trail) ++ rest)%list
          = Running
              (snd (do_ls os "."
                      (with_filename "."
                         (with_buffer stripped (display_prompt os w)))))
              rest)
    /\ (exists stripped,
          string_at stripped = "pwd"
          /\ main_step os w (typed ("pwd" ++ trail) ++ rest)%list
             = Running
                 (snd (do_pwd os
                         (with_filename ""
                            (with_buffer stripped (display_prompt os w)))))
                 rest).
Proof.
  intros os w trail rest Htrail Hlen. split.
  - destruct (typed_bare_line (buffer w) "ls" trail rest)
      as (line & stripped & Hf & Hs & Hstr); auto; try discriminate.
    { simpl in *. lia. }
    exists stripped. split; [exact Hstr|].
    rewrite (main_step_command os w _ line rest stripped Hf Hs);
      rewrite Hstr; [|reflexivity|discriminate].
    unfold ready.
    rewrite (dispatch_ls os _ "" I (fun _ => eq_refl)).
    cbn [perform after_command]. 
    change (registry_select ("ls" ++ "")) with (CallLs ".").
    cbn [perform after_command]. destruct (do_ls os _ _). reflexivity.
  - exact (typed_pwd_turn os w trail rest Htrail Hlen).
Qed.

Lemma typed_bare_ls_and_pwd_witness :
  (exists stripped,
     string_at stripped = "ls"
     /\ main_step os_listing_ok (boot [NUL] []) (typed ("ls" ++ " ") ++ [])%list
        = Running
            (snd (do_ls os_listing_ok "."
                    (with_filename "."
                       (with_buffer stripped
                          (display_prompt os_listing_ok (boot [NUL] []))))))
            [])
  /\ (exists stripped,
        string_at stripped = "pwd"
        /\ main_step os_listing_ok (boot [NUL] [])
             (typed ("pwd" ++ " ") ++ [])%list
           = Running
               (snd (do_pwd os_listing_ok
                       (with_filename ""
                          (with_buffer stripped
                             (display_prompt os_listing_ok (boot [NUL] []))))))
               []).
Proof.
  apply (typed_bare_ls_and_pwd os_listing_ok (boot [NUL] []) " " []).
  - reflexivity.
  - simpl. unfold BUFFER_SIZE. lia.
Defined.

Lemma typed_cd_turn :
  forall os w dir rest reached,
    graphic dir = true -> dir <> "" ->
    (String.length ("cd" ++ " " ++ dir) < BUFFER_SIZE - 1)%nat ->
    os_chdir os (cwd w) dir = inr reached ->
    exists w1,
      main_step os w (typed ("cd" ++ " " ++ dir) ++ rest)%list
      = Running w1 rest
      /\ cwd w1 = reached /\ stderr w1 = stderr w.
Proof.
  intros os w dir rest reached Hdir Hne Hlen Hch.
  destruct (typed_command_line (buffer w) "cd" " " dir "" rest)
    as (line & stripped & Hf & Hs & Hstr & _); auto.
  { rewrite append_nil_r. exact Hlen. }
  rewrite append_nil_r in Hf.
  rewrite (main_step_line os w _ line rest stripped Hf Hs).
  cbv zeta. rewrite Hstr.
  pose proof (scan_hit "cd" (" " ++ dir) (ready os stripped w) eq_refl) as E.
  cbn [append] in E. cbn [append]. rewrite E. clear E.
  pose proof (skip_space_gap " " dir eq_refl Hdir) as Hskip.
  cbn [append] in Hskip. rewrite Hskip. clear Hskip.
  assert (Htake : take_word dir = dir).
  { rewrite <- (take_word_graphic dir "" Hdir I) at 2.
    rewrite append_nil_r. reflexivity. }
  destruct dir as [|d dir']; [contradiction|].
  rewrite Htake. change (1 =? 1) with true. cbn [orb].
  cbn [filename with_filename]. unfold do_cd.
  change (strnlen (String d dir') MAX_PATH_LENGTH =? 0)%nat with false.
  cbv iota. unfold sys_chdir.
  cbn [cwd with_filename ready with_buffer].
  destruct (display_prompt_frame os w) as (Hcwd & Herr & _).
  rewrite Hcwd, Hch.
  eexists. split; [reflexivity|].
  cbn [cwd stderr with_cwd with_filename with_buffer ready].
  rewrite Herr. split; reflexivity.
Qed.

(** X28: [cd] followed by [pwd]: when the line [cd <dir>] is typed and
    [chdir] reaches a directory whose path has fewer than
    [MAX_PATH_LENGTH] bytes, and the line [pwd] is typed next, the two
    turns leave the process in that directory and the last thing written
    to stdout is the prompt text for that directory followed by a
    newline; stderr received nothing. *)
Theorem cd_then_pwd_shows_new_directory :
  forall os1 os2 w dir reached rest,
    graphic dir = true -> dir <> "" ->
    (String.length ("cd" ++ " " ++ dir) < BUFFER_SIZE - 1)%nat ->
    os_chdir os1 (cwd w) dir = inr reached ->
    os_getcwd os2 = None ->
    (String.length reached < MAX_PATH_LENGTH)%nat ->
    exists w' before,
      main [os1; os2] w
        (typed ("cd" ++ " " ++ dir) ++ typed "pwd" ++ rest)%list
      = Running w' rest
      /\ cwd w' = reached
      /\ stdout w' = before ++ prompt reached ++ NL
      /\ stderr w' = stderr w.
Proof.
  intros os1 os2 w dir reached rest Hdir Hne Hlen Hch Hget Hshort.
  destruct (typed_cd_turn os1 w dir (typed "pwd" ++ rest)%list reached
              Hdir Hne Hlen Hch) as (w1 & E1 & Hcwd1 & Herr1).
  destruct (typed_pwd_turn os2 w1 "" rest eq_refl) as (stripped & _ & E2).
  { simpl. unfold BUFFER_SIZE. lia. }
  cbn [append] in E2.
  cbn [main]. rewrite E1, E2.
  unfold do_pwd, sys_getcwd. rewrite Hget.
  cbn [cwd with_filename with_buffer].
  destruct (display_prompt_frame os2 w1) as (Hcwd & Herr & _).
  rewrite Hcwd, Hcwd1.
  apply Nat.leb_gt in Hshort. rewrite Hshort. cbn [snd].
  eexists. exists (stdout (display_prompt os2 w1)).
  split; [reflexivity|].
  cbn [cwd stdout stderr put_out with_filename with_buffer].
  rewrite Hcwd, Herr, Hcwd1, Herr1.
  split; [reflexivity|]. split; [|reflexivity].
  apply append_assoc_string.
Qed.

Lemma cd_then_pwd_shows_new_directory_witness :
  exists w' before,
    main [os_plain; os_plain] (boot [NUL] [])
      (typed ("cd" ++ " " ++ "/usr/lib") ++ typed "pwd" ++ typed "exit")%list
    = Running w' (typed "exit")
    /\ cwd w' = "/usr/lib"
    /\ stdout w' = before ++ prompt "/usr/lib" ++ NL
    /\ stderr w' = stderr (boot [NUL] []).
Proof.
  apply (cd_then_pwd_shows_new_directory os_plain os_plain (boot [NUL] [])
           "/usr/lib" "/usr/lib" (typed "exit")).
  - reflexivity.
  - discriminate.
  - simpl. unfold BUFFER_SIZE. lia.
  - reflexivity.
  - reflexivity.
  - simpl. unfold MAX_PATH_LENGTH. lia.
Defined.
